(** * Ipma-Expert: a shallow embedding of [app/main.py]

    The chat handler of the application answers weather questions about
    Portuguese districts.  This development embeds the handler and the
    layers below it (intent extraction, location lookup, data providers,
    day formatting, map fragments) and proves properties of them.

    Conventions of the embedding:
    - a Python [str] is the list of its Unicode code points;
    - a Python object coming from JSON is a [value];
    - an exception is an [Err] result; effects (HTTP requests, fresh
      uuids) are threaded through an explicit [world];
    - builtins whose definition lives outside the repository
      ([str.lower], [repr], [float], plotly's rendering, [uuid4]) are the
      fields of a record [builtins] over which everything is stated. *)

From Stdlib Require Import ZArith QArith String Ascii.
From stdpp Require Import base option list gmap.

Set Default Proof Using "Type*".
Set Warnings "-register-all".

(** ** Strings *)

(** A Python string: the sequence of its code points. *)
Abbreviation str := (list N).

(** Literals are written as Rocq strings, which hold the UTF-8 bytes of
    the source text; [utf8_decode] turns them into code points. *)
Fixpoint utf8_decode (bs : list N) : str :=
  match bs with
  | [] => []
  | b0 :: r0 =>
      if (b0 <? 128)%N then b0 :: utf8_decode r0
      else if (b0 <? 224)%N then
        match r0 with
        | b1 :: r1 => ((b0 - 192) * 64 + (b1 - 128))%N :: utf8_decode r1
        | _ => []
        end
      else if (b0 <? 240)%N then
        match r0 with
        | b1 :: b2 :: r2 =>
            ((b0 - 224) * 4096 + (b1 - 128) * 64 + (b2 - 128))%N :: utf8_decode r2
        | _ => []
        end
      else
        match r0 with
        | b1 :: b2 :: b3 :: r3 =>
            ((b0 - 240) * 262144 + (b1 - 128) * 4096
             + (b2 - 128) * 64 + (b3 - 128))%N :: utf8_decode r3
        | _ => []
        end
  end.

Fixpoint bytes_of (s : string) : list N :=
  match s with
  | EmptyString => []
  | String c s' => N_of_ascii c :: bytes_of s'
  end.

Definition lit (s : string) : str := utf8_decode (bytes_of s).
Arguments lit s%_string.

(** [is_prefix p s]: [s.startswith(p)]. *)
Fixpoint is_prefix (p s : str) : bool :=
  match p, s with
  | [], _ => true
  | _ :: _, [] => false
  | x :: p', y :: s' => (x =? y)%N && is_prefix p' s'
  end.

(** [contains needle hay]: the Python test [needle in hay]. *)
Fixpoint contains (needle hay : str) : bool :=
  is_prefix needle hay ||
  match hay with
  | [] => false
  | _ :: hay' => contains needle hay'
  end.

(** What [in] decides: [needle] occurs as a contiguous block of [hay]. *)
Definition substring (needle hay : str) : Prop :=
  ∃ pre post, hay = pre ++ needle ++ post.

(** [str.isspace] on one code point (the code points CPython treats as
    white space). *)
Definition isspace (c : N) : bool :=
  ((9 <=? c) && (c <=? 13) || (28 <=? c) && (c <=? 32)
   || (c =? 133) || (c =? 160) || (c =? 5760)
   || (8192 <=? c) && (c <=? 8202)
   || (c =? 8232) || (c =? 8233) || (c =? 8239) || (c =? 8287)
   || (c =? 12288))%N.

Fixpoint lstrip (s : str) : str :=
  match s with
  | [] => []
  | c :: s' => if isspace c then lstrip s' else s
  end.

(** [s.strip()] *)
Definition strip (s : str) : str := rev (lstrip (rev (lstrip s))).

(** Lexicographic order on code points: [s < t] on Python strings. *)
Fixpoint str_ltb (s t : str) : bool :=
  match s, t with
  | _, [] => false
  | [], _ :: _ => true
  | x :: s', y :: t' => (x <? y)%N || (x =? y)%N && str_ltb s' t'
  end.

(** ** Python objects and exceptions *)

Inductive value : Type :=
  | VNone
  | VBool (b : bool)
  | VInt (z : Z)
  | VFloat (q : Q)
  | VStr (s : str)
  | VList (l : list value)
  | VDict (d : list (str * value)).

Inductive exn : Type :=
  | KeyError (k : value)
  | IndexError
  | TypeError
  | AttributeError
  | ValueError
  | ClientError
  | ClientResponseError (status : N)
  | ContentTypeError
  | JSONDecodeError.

Inductive result (A : Type) : Type :=
  | Ok (a : A)
  | Err (e : exn).
Arguments Ok {A} a.
Arguments Err {A} e.

Global Instance result_ret : MRet result := λ A a, Ok a.
Global Instance result_bind : MBind result := λ A B f m,
  match m with
  | Ok a => f a
  | Err e => Err e
  end.

(** Lookup in the association list of a JSON object. *)
Fixpoint assoc (k : str) (d : list (str * value)) : option value :=
  match d with
  | [] => None
  | (k', v) :: d' => if bool_decide (k' = k) then Some v else assoc k d'
  end.

(** The number a Python number stands for ([True == 1], [1 == 1.0]). *)
Definition num_of (v : value) : option Q :=
  match v with
  | VBool b => Some (inject_Z (if b then 1 else 0))
  | VInt z => Some (inject_Z z)
  | VFloat q => Some q
  | _ => None
  end.

(** [a == b] on the objects [json] produces. *)
Fixpoint py_eq (a b : value) {struct a} : bool :=
  match a, b with
  | VNone, VNone => true
  | VStr s, VStr t => bool_decide (s = t)
  | VList l, VList m =>
      (fix go (l m : list value) : bool :=
         match l, m with
         | [], [] => true
         | x :: l', y :: m' => py_eq x y && go l' m'
         | _, _ => false
         end) l m
  | VDict d, VDict e =>
      (length d =? length e)%nat &&
      (fix go (d : list (str * value)) : bool :=
         match d with
         | [] => true
         | (k, v) :: d' =>
             match assoc k e with
             | Some v' => py_eq v v'
             | None => false
             end && go d'
         end) d
  | _, _ =>
      match num_of a, num_of b with
      | Some x, Some y => Qeq_bool x y
      | _, _ => false
      end
  end.

(** [bool(v)] *)
Definition truthy (v : value) : bool :=
  match v with
  | VNone => false
  | VBool b => b
  | VInt z => negb (z =? 0)%Z
  | VFloat q => negb (Qeq_bool q 0)
  | VStr s => negb (bool_decide (s = []))
  | VList l => negb (bool_decide (length l = 0%nat))
  | VDict d => negb (bool_decide (length d = 0%nat))
  end.

(** [v[k]] for a string key [k]. *)
Definition getitem (v : value) (k : str) : result value :=
  match v with
  | VDict d =>
      match assoc k d with
      | Some x => Ok x
      | None => Err (KeyError (VStr k))
      end
  | _ => Err TypeError
  end.

(** [v[0]] *)
Definition getitem0 (v : value) : result value :=
  match v with
  | VList (x :: _) => Ok x
  | VList [] => Err IndexError
  | VStr (c :: _) => Ok (VStr [c])
  | VStr [] => Err IndexError
  | VDict _ => Err (KeyError (VInt 0))
  | _ => Err TypeError
  end.

(** [v.get(k, dflt)] *)
Definition dict_get (v : value) (k : str) (dflt : value) : result value :=
  match v with
  | VDict d => Ok (default dflt (assoc k d))
  | _ => Err AttributeError
  end.

(** The elements a [for] loop over [v] visits. *)
Definition py_iter (v : value) : result (list value) :=
  match v with
  | VList l => Ok l
  | VStr s => Ok ((λ c, VStr [c]) <$> s)
  | VDict d => Ok ((λ kv, VStr kv.1) <$> d)
  | _ => Err TypeError
  end.

(** Whether [v] can be a dictionary key. *)
Definition hashable (v : value) : bool :=
  match v with
  | VList _ | VDict _ => false
  | _ => true
  end.

(** ** Builtins from outside the repository *)

Record builtins : Type := {
  (** [str.lower] *)
  py_lower : str → str;
  (** [repr] *)
  py_repr : value → str;
  (** [float] *)
  py_float : value → result Q;
  (** plotly: figure with the two temperature traces, rendered by
      [pio.to_html] *)
  plot_html : list value → list Q → list Q → str;
  (** the hexadecimal text of the [n]-th uuid drawn *)
  uuid4_hex : nat → str;
}.

(** ** [difflib]: the similarity ratio of [SequenceMatcher]

    [extract_city] calls [difflib.get_close_matches], whose answer is
    decided by [SequenceMatcher.ratio] and its two cheap upper bounds.
    The functions below follow CPython's [difflib.py] with
    [isjunk = None] and [autojunk = True], the way [get_close_matches]
    builds its matcher.  Indices are naturals.  Ratios, floats in
    Python, are kept as exact rationals: [2.0 * matches / length] is the
    correctly rounded quotient, and rounding is monotone, so comparisons
    between such ratios and with the cutoff [0.6] agree with the exact
    ones for every pair of strings a machine can hold. *)
Module difflib.

(** [__chain_b]: for each element of [b] the ascending list of the
    positions it occupies, minus the popular elements when [b] has 200
    elements or more. *)
Definition index_b (b : str) : gmap N (list nat) :=
  foldl (λ (b2j : gmap N (list nat)) '(i, elt),
           <[elt := default [] (b2j !! elt) ++ [i]]> b2j)
        ∅ (imap pair b).

Definition chain_b (b : str) : gmap N (list nat) :=
  let b2j := index_b b in
  let n := length b in
  if (200 <=? n)%nat then
    let ntest := (n / 100 + 1)%nat in
    filter (λ kv : N * list nat, ¬ (ntest < length kv.2)%nat) b2j
  else b2j.

(** The running best block [(besti, bestj, bestsize)]. *)
Definition block : Type := nat * nat * nat.

Section matcher.
Variables a b : str.
Variable b2j : gmap N (list nat).

(** [a[i] == b[j]], both in range. *)
Definition same (i j : nat) : bool :=
  match a !! i, b !! j with
  | Some x, Some y => (x =? y)%N
  | _, _ => false
  end.

(** The loop over [b2j.get(a[i], nothing)] in [find_longest_match]:
    positions below [blo] are skipped, the first one at or above
    [bhi] ends the loop. *)
Fixpoint scan_row (blo bhi i : nat) (j2len : gmap nat nat) (js : list nat)
    (best : block) (newj2len : gmap nat nat) : block * gmap nat nat :=
  match js with
  | [] => (best, newj2len)
  | j :: js' =>
      if (j <? blo)%nat then scan_row blo bhi i j2len js' best newj2len
      else if (bhi <=? j)%nat then (best, newj2len)
      else
        let k := S (match j with
                    | O => 0
                    | S j' => default 0 (j2len !! j')
                    end) in
        let best' := if (best.2 <? k)%nat
                     then (i + 1 - k, j + 1 - k, k)%nat else best in
        scan_row blo bhi i j2len js' best' (<[j := k]> newj2len)
  end.

(** The loop [for i in range(alo, ahi)]. *)
Fixpoint scan (blo bhi : nat) (rows : list nat) (best : block)
    (j2len : gmap nat nat) : block :=
  match rows with
  | [] => best
  | i :: rows' =>
      let js := match a !! i with
                | Some x => default [] (b2j !! x)
                | None => []
                end in
      let '(best', newj2len) := scan_row blo bhi i j2len js best ∅ in
      scan blo bhi rows' best' newj2len
  end.

(** First [while]: grow the block to the left. *)
Fixpoint extend_left (alo blo besti bestj bestsize : nat) : block :=
  match besti, bestj with
  | S i', S j' =>
      if (alo <? besti)%nat && (blo <? bestj)%nat && same i' j'
      then extend_left alo blo i' j' (S bestsize)
      else (besti, bestj, bestsize)
  | _, _ => (besti, bestj, bestsize)
  end.

(** Second [while]: grow the block to the right; at most
    [ahi - (besti + bestsize)] rounds. *)
Fixpoint extend_right (rounds ahi bhi besti bestj bestsize : nat) : nat :=
  match rounds with
  | O => bestsize
  | S rounds' =>
      if (besti + bestsize <? ahi)%nat && (bestj + bestsize <? bhi)%nat
         && same (besti + bestsize) (bestj + bestsize)
      then extend_right rounds' ahi bhi besti bestj (S bestsize)
      else bestsize
  end.

(** [find_longest_match(alo, ahi, blo, bhi)].  No element is junk, so
    the two closing loops, which only absorb junk, do nothing. *)
Definition find_longest_match (alo ahi blo bhi : nat) : block :=
  let '(besti, bestj, bestsize) :=
    scan blo bhi (seq alo (ahi - alo)) (alo, blo, 0%nat) ∅ in
  let '(besti, bestj, bestsize) :=
    extend_left alo blo besti bestj bestsize in
  (besti, bestj,
   extend_right (ahi - (besti + bestsize)) ahi bhi besti bestj bestsize).

(** The work list loop of [get_matching_blocks].  The Python list
    [queue] is kept with its last element first, so [pop] takes the
    head; [steps] bounds the number of rounds. *)
Fixpoint split_blocks (steps : nat) (queue : list (nat * nat * nat * nat))
    (matching_blocks : list block) : list block :=
  match steps, queue with
  | S steps', (alo, ahi, blo, bhi) :: queue' =>
      let '(i, j, k) := find_longest_match alo ahi blo bhi in
      if (k =? 0)%nat then split_blocks steps' queue' matching_blocks
      else
        let q1 := if (alo <? i)%nat && (blo <? j)%nat
                  then (alo, i, blo, j) :: queue' else queue' in
        let q2 := if (i + k <? ahi)%nat && (j + k <? bhi)%nat
                  then (i + k, ahi, j + k, bhi)%nat :: q1 else q1 in
        split_blocks steps' q2 (matching_blocks ++ [(i, j, k)])
  | _, _ => matching_blocks
  end.
End matcher.

(** The list [matching_blocks] of [get_matching_blocks] when its work
    list loop ends. *)
Definition matching_blocks (a b : str) : list block :=
  split_blocks a b (chain_b b) (2 * length a + 1)
    [(0, length a, 0, length b)%nat] [].

(** [s <= t] on triples. *)
Definition block_leb (s t : block) : bool :=
  let '(i1, j1, k1) := s in
  let '(i2, j2, k2) := t in
  ((i1 <? i2) || (i1 =? i2) && ((j1 <? j2) || (j1 =? j2) && (k1 <=? k2)))%nat.

Fixpoint insert_block (t : block) (l : list block) : list block :=
  match l with
  | [] => [t]
  | u :: l' => if block_leb t u then t :: l else u :: insert_block t l'
  end.

(** [matching_blocks.sort()]: triples are totally ordered, so any
    sorting algorithm gives the list Python's gives. *)
Definition sort_blocks (l : list block) : list block :=
  foldr insert_block [] l.

(** The loop that merges adjacent blocks, with the [if k1] that follows
    it. *)
Fixpoint collapse (i1 j1 k1 : nat) (blocks non_adjacent : list block)
    : list block :=
  let flushed := if (k1 =? 0)%nat then non_adjacent
                 else non_adjacent ++ [(i1, j1, k1)] in
  match blocks with
  | [] => flushed
  | (i2, j2, k2) :: blocks' =>
      if (i1 + k1 =? i2)%nat && (j1 + k1 =? j2)%nat
      then collapse i1 j1 (k1 + k2) blocks' non_adjacent
      else collapse i2 j2 k2 blocks' flushed
  end.

Definition get_matching_blocks (a b : str) : list block :=
  collapse 0 0 0 (sort_blocks (matching_blocks a b)) []
  ++ [(length a, length b, 0%nat)].

(** [_calculate_ratio] *)
Definition calculate_ratio (matches len : nat) : Q :=
  if (len =? 0)%nat then 1
  else (2 * inject_Z (Z.of_nat matches) / inject_Z (Z.of_nat len))%Q.

(** [sum(triple[-1] for triple in self.get_matching_blocks())] *)
Definition matches (a b : str) : nat :=
  sum_list ((λ t : block, t.2) <$> get_matching_blocks a b).

Definition ratio (a b : str) : Q :=
  calculate_ratio (matches a b) (length a + length b).

(** [fullbcount]: how often each element occurs in [b]. *)
Definition fullbcount (b : str) : gmap N Z :=
  foldl (λ (m : gmap N Z) elt, <[elt := (default 0 (m !! elt) + 1)%Z]> m) ∅ b.

(** The loop of [quick_ratio] over the elements of [a]. *)
Fixpoint quick_matches (fbc : gmap N Z) (a : str) (avail : gmap N Z)
    (matches : nat) : nat :=
  match a with
  | [] => matches
  | elt :: a' =>
      let numb := match avail !! elt with
                  | Some n => n
                  | None => default 0%Z (fbc !! elt)
                  end in
      quick_matches fbc a' (<[elt := (numb - 1)%Z]> avail)
        (if (0 <? numb)%Z then S matches else matches)
  end.

Definition quick_ratio (a b : str) : Q :=
  calculate_ratio (quick_matches (fullbcount b) a ∅ 0) (length a + length b).

Definition real_quick_ratio (a b : str) : Q :=
  calculate_ratio (length a `min` length b) (length a + length b).

(** [(r1, x1) < (r2, x2)] on (score, string) pairs. *)
Definition scored_ltb (p q : Q * str) : bool :=
  match (p.1 ?= q.1)%Q with
  | Lt => true
  | Eq => str_ltb p.2 q.2
  | Gt => false
  end.

(** [max(result)]: the first greatest element. *)
Definition max_scored (l : list (Q * str)) : option (Q * str) :=
  match l with
  | [] => None
  | p :: l' => Some (foldl (λ m q, if scored_ltb m q then q else m) p l')
  end.

(** [get_close_matches(word, possibilities, n=1, cutoff)]; with
    [n = 1], [heapq.nlargest] is [max].  The answer has at most one
    element. *)
Definition get_close_matches (word : str) (possibilities : list str)
    (cutoff : Q) : list str :=
  let result :=
    omap (λ x,
            if Qle_bool cutoff (real_quick_ratio x word)
               && Qle_bool cutoff (quick_ratio x word)
               && Qle_bool cutoff (ratio x word)
            then Some (ratio x word, x) else None)
         possibilities in
  match max_scored result with
  | Some (_, x) => [x]
  | None => []
  end.

End difflib.

(** ** The world outside: HTTP and fresh identifiers *)

Inductive request : Type :=
  | Get (url : str)
  | Post (url : str) (body : value).

(** The body of a reply as [resp.json()] reads it: the content type is
    checked first; a body of the expected type that is empty decodes to
    [None]; any other text goes through [json.loads]. *)
Inductive payload : Type :=
  | NotJson             (* the content type is not JSON *)
  | Blank               (* JSON by its type, and nothing but white space *)
  | Malformed           (* JSON by its type, and text [json.loads] rejects *)
  | Json (j : value).   (* JSON by its type, and the text of [j] *)

(** What a request meets: no connection, or a status and a body. *)
Inductive reply : Type :=
  | NoReply
  | Reply (status : N) (body : payload).

(** The servers: the reply to a request may depend on the requests sent
    before it. *)
Definition network : Type := list request → request → reply.

Record world : Type := {
  sent : list request;   (* the requests issued so far, oldest first *)
  drawn : nat;           (* how many uuids were drawn *)
}.

(** A computation that may raise and may talk to the world. *)
Definition M (A : Type) : Type := world → result A * world.

Global Instance M_ret : MRet M := λ A a w, (Ok a, w).
Global Instance M_bind : MBind M := λ A B f m w,
  match m w with
  | (Ok a, w') => f a w'
  | (Err e, w') => (Err e, w')
  end.

(** A pure step inside [M]. *)
Definition lift {A} (r : result A) : M A := λ w, (r, w).

Definition dq : str := [34%N].
Definition nl : str := [10%N].

Definition BASE_URL : str := lit "https://api.ipma.pt/open-data".

Definition EMOJI_MAP : list (str * str) := [
  (lit "Céu limpo", lit "☀️");
  (lit "Céu pouco nublado", lit "⛅");
  (lit "Céu parcialmente nublado", lit "⛅");
  (lit "Céu muito nublado ou encoberto", lit "☁️");
  (lit "Céu nublado por nuvens altas", lit "☁️");
  (lit "Céu com períodos de muito nublado", lit "☁️");
  (lit "Céu nublado", lit "☁️");
  (lit "Aguaceiros/chuva", lit "🌧️");
  (lit "Aguaceiros/chuva fracos", lit "🌦️");
  (lit "Aguaceiros/chuva fortes", lit "⛈️");
  (lit "Chuva/aguaceiros", lit "🌧️");
  (lit "Chuva fraca ou chuvisco", lit "🌦️");
  (lit "Chuva/aguaceiros forte", lit "⛈️");
  (lit "Períodos de chuva", lit "🌧️");
  (lit "Períodos de chuva fraca", lit "🌦️");
  (lit "Períodos de chuva forte", lit "⛈️");
  (lit "Chuvisco", lit "🌦️");
  (lit "Neblina", lit "🌫️");
  (lit "Nevoeiro ou nuvens baixas", lit "🌫️");
  (lit "Nevoeiro", lit "🌫️");
  (lit "Neve", lit "❄️");
  (lit "Aguaceiros de neve", lit "🌨️");
  (lit "Chuva e Neve", lit "🌨️");
  (lit "Trovoada", lit "⛈️");
  (lit "Aguaceiros e possibilidade de trovoada", lit "⛈️");
  (lit "Chuva e possibilidade de trovoada", lit "⛈️");
  (lit "Granizo", lit "🌨️");
  (lit "Geada", lit "🧊");
  (lit "Nebulosidade convectiva", lit "☁️")
].

(** The arguments the handler passes to [render_template]. *)
Record response : Type := {
  user_message : str;
  resposta : str;
  grafico_html : option str;
  map_html : option str;
  plot_list : option (list (value * str));
}.

(** A preprocessor is a coroutine function or a plain lambda. *)
Inductive preprocessor : Type :=
  | Async (f : str → M value)
  | Sync (f : str → value).

Section app.
Variable py : builtins.
Variable net : network.

(** [str(v)], which is also how an f-string formats [v]. *)
Definition py_str (v : value) : str :=
  match v with
  | VStr s => s
  | _ => py_repr py v
  end.

(** [v.lower()] *)
Definition lower_method (v : value) : result str :=
  match v with
  | VStr s => Ok (py_lower py s)
  | _ => Err AttributeError
  end.

(** *** Layer 1: api call *)

(** The status check and decoding shared by [fetch_json] and
    [call_mistral]: [raise_for_status] then [resp.json()]. *)
Definition send (rq : request) : M value := λ w,
  let w' := {| sent := sent w ++ [rq]; drawn := drawn w |} in
  match net (sent w) rq with
  | NoReply => (Err ClientError, w')
  | Reply status body =>
      if (400 <=? status)%N then (Err (ClientResponseError status), w')
      else match body with
           | NotJson => (Err ContentTypeError, w')
           | Blank => (Ok VNone, w')
           | Malformed => (Err JSONDecodeError, w')
           | Json j => (Ok j, w')
           end
  end.

Definition fetch_json (path : str) : M value :=
  send (Get (BASE_URL ++ path)).

(** *** Layer 2: pre-processing *)

(** The first loop of [extract_city]. *)
Fixpoint first_contained (lower : str) (locs : list value)
    : result (option value) :=
  match locs with
  | [] => Ok None
  | loc :: locs' =>
      name ← getitem loc (lit "local");
      l ← lower_method name;
      if contains l lower then Ok (Some name)
      else first_contained lower locs'
  end.

(** The last loop of [extract_city]. *)
Fixpoint first_equal (matched : str) (locs : list value)
    : result (option value) :=
  match locs with
  | [] => Ok None
  | loc :: locs' =>
      name ← getitem loc (lit "local");
      l ← lower_method name;
      if bool_decide (l = matched) then Ok (Some name)
      else first_equal matched locs'
  end.

Definition extract_city (text : str) : M value :=
  let lower := py_lower py text in
  data ← fetch_json (lit "/distrits-islands.json");
  lift (
    locs ← getitem data (lit "data") ≫= py_iter;
    hit ← first_contained lower locs;
    match hit with
    | Some name => Ok name
    | None =>
        (* fuzzy match *)
        locs ← getitem data (lit "data") ≫= py_iter;
        names ← mapM (λ loc, getitem loc (lit "local")) locs;
        lowered ← mapM lower_method names;
        match difflib.get_close_matches lower lowered (6 # 10) with
        | matched :: _ =>
            locs ← getitem data (lit "data") ≫= py_iter;
            hit ← first_equal matched locs;
            Ok (default VNone hit)
        | [] => Ok VNone
        end
    end).

Definition PREPROCESSORS : list (str * preprocessor) := [
  (lit "cidade", Async extract_city);
  (lit "incluir_grafico",
   Sync (λ t, VBool (contains (lit "gráfico") (py_lower py t)
                     || contains (lit "grafico") (py_lower py t))));
  (lit "intencao_previsao",
   Sync (λ t, VBool (existsb (λ kw, contains kw (py_lower py t))
                       [lit "tempo"; lit "previsão"])));
  (lit "mostrar_mapa",
   Sync (λ t, VBool (contains (lit "mapa") (py_lower py t))));
  (lit "todas_localidades",
   Sync (λ t, VBool (existsb (λ kw, contains kw (py_lower py t))
                       [lit "todas as cidades"; lit "todas localidades";
                        lit "all cities"])))
].

(** The loop of [parse_user_input] over the table. *)
Fixpoint run_preprocessors (text : str) (table : list (str * preprocessor))
    (out : gmap str value) : M (gmap str value) :=
  match table with
  | [] => mret out
  | (flag, fn) :: table' =>
      v ← match fn with
          | Async f => f text
          | Sync f => mret (f text)
          end;
      run_preprocessors text table' (<[flag := v]> out)
  end.

Definition parse_user_input (text : str) : M (gmap str value) :=
  run_preprocessors text PREPROCESSORS ∅.

(** [d.get(k)] and [d[k]] on the dictionaries the program builds. *)
Definition flag_get (d : gmap str value) (k : str) : value :=
  default VNone (d !! k).

Definition flag_item (d : gmap str value) (k : str) : result value :=
  match d !! k with
  | Some v => Ok v
  | None => Err (KeyError (VStr k))
  end.

(** *** Layer 3: data providers *)

Definition provider_locations (parsed : gmap str value) : M value :=
  r ← fetch_json (lit "/distrits-islands.json");
  lift (getitem r (lit "data")).

Definition provider_forecast (parsed : gmap str value) : M value :=
  gid ← lift (flag_item parsed (lit "global_id"));
  r ← fetch_json (lit "/forecast/meteorology/cities/daily/"
                  ++ py_str gid ++ lit ".json");
  lift (getitem r (lit "data")).

Definition provider_weather_types (parsed : gmap str value) : M value :=
  r ← fetch_json (lit "/weather-type-classe.json");
  lift (getitem r (lit "data")).

Definition provider_precipitation (parsed : gmap str value) : M value :=
  r ← fetch_json (lit "/precipitation-classe.json");
  lift (getitem r (lit "data")).

Definition DATA_PROVIDERS : list (str * (gmap str value → M value)) := [
  (lit "locations", provider_locations);
  (lit "forecast", provider_forecast);
  (lit "weather_types", provider_weather_types);
  (lit "precipitation", provider_precipitation)
].

(** The loop of [gather_data] over the table. *)
Fixpoint run_providers (parsed : gmap str value)
    (table : list (str * (gmap str value → M value)))
    (out : gmap str value) : M (gmap str value) :=
  match table with
  | [] => mret out
  | (key, fn) :: table' =>
      v ← fn parsed;
      run_providers parsed table' (<[key := v]> out)
  end.

Definition gather_data (parsed : gmap str value) : M (gmap str value) :=
  run_providers parsed DATA_PROVIDERS ∅.

(** *** Layer 4: data transformation *)

(** [next((w["descWeatherTypePT"] for w in types if ...), "Desconhecido")] *)
Fixpoint find_weather (day : value) (types : list value) : result value :=
  match types with
  | [] => Ok (VStr (lit "Desconhecido"))
  | w :: types' =>
      wid ← getitem w (lit "idWeatherType");
      did ← getitem day (lit "idWeatherType");
      if py_eq wid did then getitem w (lit "descWeatherTypePT")
      else find_weather day types'
  end.

(** [next((p["descClassPrecIntPT"] for p in precs if ...), "Sem dados")] *)
Fixpoint find_precipitation (cpi : value) (precs : list value)
    : result value :=
  match precs with
  | [] => Ok (VStr (lit "Sem dados"))
  | p :: precs' =>
      pc ← getitem p (lit "classPrecInt");
      if bool_decide (py_str pc = py_str cpi)
      then getitem p (lit "descClassPrecIntPT")
      else find_precipitation cpi precs'
  end.

(** [EMOJI_MAP.get(desc, "")] *)
Definition emoji_of (desc : value) : result value :=
  match desc with
  | VStr s =>
      Ok (VStr (default [] (snd <$> find (λ kv, bool_decide (kv.1 = s))
                                        EMOJI_MAP)))
  | VList _ | VDict _ => Err TypeError
  | _ => Ok (VStr [])
  end.

Definition format_day (day types precs : value) : result value :=
  desc ← py_iter types ≫= find_weather day;
  cpi ← dict_get day (lit "classPrecInt") VNone;
  pdesc ← match cpi with
          | VNone => Ok (VStr (lit "Sem dados"))
          | _ => py_iter precs ≫= find_precipitation cpi
          end;
  date ← getitem day (lit "forecastDate");
  tmin ← getitem day (lit "tMin");
  tmax ← getitem day (lit "tMax");
  wind ← getitem day (lit "predWindDir");
  fallback ← dict_get day (lit "precipitaProb") (VStr (lit "0"));
  prob ← dict_get day (lit "precitaProb") fallback;
  emoji ← emoji_of desc;
  Ok (VDict [
    (lit "data", date);
    (lit "temperatura_min", tmin);
    (lit "temperatura_max", tmax);
    (lit "vento", wind);
    (lit "tipo_tempo", desc);
    (lit "precipitacao", pdesc);
    (lit "prob_precipitacao", prob);
    (lit "emoji", emoji)
  ]).

(** *** Layer 5: plot generator *)

Definition generate_plot (forecast_data : value) : result str :=
  dates ← py_iter forecast_data
           ≫= mapM (λ d, getitem d (lit "forecastDate"));
  tmin ← py_iter forecast_data
          ≫= mapM (λ d, getitem d (lit "tMin") ≫= py_float py);
  tmax ← py_iter forecast_data
          ≫= mapM (λ d, getitem d (lit "tMax") ≫= py_float py);
  Ok (plot_html py dates tmin tmax).

(** *** Layer 6: map and pointer with meteorology *)

(** [f"map-{uuid.uuid4().hex}"] *)
Definition fresh_map_id : M str := λ w,
  (Ok (lit "map-" ++ uuid4_hex py (drawn w)),
   {| sent := sent w; drawn := S (drawn w) |}).

Definition tile_layer : str :=
  lit "    L.tileLayer('https://{s}.tile.openstreetmap.org/{z}/{x}/{y}.png', {"
  ++ nl ++
  lit "      attribution: '© OpenStreetMap contributors'" ++ nl ++
  lit "    }).addTo(map);" ++ nl.

Definition generate_map (lat lon : value) (popup : str) : M str :=
  map_id ← fresh_map_id;
  mret (nl ++
    lit "<div id=" ++ dq ++ map_id ++ dq ++ lit " style=" ++ dq
      ++ lit "height:300px;" ++ dq ++ lit "></div>" ++ nl ++
    lit "<script>" ++ nl ++
    lit "  (function() {" ++ nl ++
    lit "    var map = L.map('" ++ map_id ++ lit "').setView(["
      ++ py_str lat ++ lit ", " ++ py_str lon ++ lit "], 10);" ++ nl ++
    tile_layer ++
    lit "    L.marker([" ++ py_str lat ++ lit ", " ++ py_str lon
      ++ lit "])" ++ nl ++
    lit "      .addTo(map)" ++ nl ++
    lit "      .bindPopup(" ++ py_repr py (VStr popup) ++ lit ")" ++ nl ++
    lit "      .openPopup();" ++ nl ++
    lit "  })();" ++ nl ++
    lit "</script>" ++ nl).

(** *** Layer 7: multi map and pointer with meteorology *)

(** The dictionary [forecasts], keyed by location id, in insertion
    order. *)
Fixpoint pydict_find (k : value) (d : list (value * value)) : option value :=
  match d with
  | [] => None
  | (k', v) :: d' => if py_eq k' k then Some v else pydict_find k d'
  end.

(** [d.get(k, dflt)] *)
Definition pydict_get (d : list (value * value)) (k dflt : value)
    : result value :=
  if hashable k then Ok (default dflt (pydict_find k d)) else Err TypeError.

Fixpoint pydict_store (k v : value) (d : list (value * value))
    : list (value * value) :=
  match d with
  | [] => [(k, v)]
  | (k', v') :: d' =>
      if py_eq k' k then (k', v) :: d' else (k', v') :: pydict_store k v d'
  end.

(** [d[k] = v] *)
Definition pydict_set (d : list (value * value)) (k v : value)
    : result (list (value * value)) :=
  if hashable k then Ok (pydict_store k v d) else Err TypeError.

(** [popup += s] *)
Definition iadd_str (popup : value) (s : str) : result value :=
  match popup with
  | VStr p => Ok (VStr (p ++ s))
  | VList l => Ok (VList (l ++ ((λ c, VStr [c]) <$> s)))
  | _ => Err TypeError
  end.

(** The text of a marker's popup for one location. *)
Definition popup_of (loc f : value) : result value :=
  popup ← getitem loc (lit "local");
  if truthy f then
    emoji ← getitem f (lit "emoji");
    tipo ← getitem f (lit "tipo_tempo");
    tmin ← getitem f (lit "temperatura_min");
    tmax ← getitem f (lit "temperatura_max");
    iadd_str popup (lit " — " ++ py_str emoji ++ lit " " ++ py_str tipo
                    ++ lit " " ++ py_str tmin ++ lit "°C–" ++ py_str tmax
                    ++ lit "°C")
  else Ok popup.

(** One line of script: a marker with its popup. *)
Definition marker_js (lat lon : Q) (popup : value) : str :=
  lit "    L.marker([" ++ py_repr py (VFloat lat) ++ lit ", "
  ++ py_repr py (VFloat lon) ++ lit "]).addTo(map).bindPopup("
  ++ py_repr py popup ++ lit ");" ++ nl.

(** The [for loc in locations] loop of [generate_map_all]. *)
Fixpoint add_markers (forecasts : list (value * value)) (locs : list value)
    (html : str) : result str :=
  match locs with
  | [] => Ok html
  | loc :: locs' =>
      gid ← getitem loc (lit "globalIdLocal");
      lat ← getitem loc (lit "latitude") ≫= py_float py;
      lon ← getitem loc (lit "longitude") ≫= py_float py;
      f ← pydict_get forecasts gid (VDict []);
      popup ← popup_of loc f;
      add_markers forecasts locs' (html ++ marker_js lat lon popup)
  end.

Definition map_all_head (map_id : str) : str :=
  nl ++
  lit "<div id=" ++ dq ++ map_id ++ dq ++ lit " style=" ++ dq
    ++ lit "height:500px;" ++ dq ++ lit "></div>" ++ nl ++
  lit "<script>" ++ nl ++
  lit "  (function() {" ++ nl ++
  lit "    var map = L.map('" ++ map_id
    ++ lit "').setView([39.5, -8.0], 7);" ++ nl ++
  tile_layer.

Definition map_all_tail : str := lit "  })();</script>".

Definition generate_map_all (locations : value)
    (forecasts : list (value * value)) : M str :=
  map_id ← fresh_map_id;
  lift (
    locs ← py_iter locations;
    html ← add_markers forecasts locs (map_all_head map_id);
    Ok (html ++ map_all_tail)).

(** *** Layer 8: prompt + mistral *)

Definition build_prompt (cidade hoje : value) : result str :=
  data ← getitem hoje (lit "data");
  tipo ← getitem hoje (lit "tipo_tempo");
  emoji ← getitem hoje (lit "emoji");
  tmin ← getitem hoje (lit "temperatura_min");
  tmax ← getitem hoje (lit "temperatura_max");
  vento ← getitem hoje (lit "vento");
  prec ← getitem hoje (lit "precipitacao");
  prob ← getitem hoje (lit "prob_precipitacao");
  Ok (lit "Cidade: " ++ py_str cidade ++ nl ++
      lit "Data: " ++ py_str data ++ nl ++
      lit "Tempo: " ++ py_str tipo ++ lit " " ++ py_str emoji ++ nl ++
      lit "Tª min: " ++ py_str tmin ++ lit "°C" ++ nl ++
      lit "Tª max: " ++ py_str tmax ++ lit "°C" ++ nl ++
      lit "Vento: " ++ py_str vento ++ nl ++
      lit "Precipitação: " ++ py_str prec ++ nl ++
      lit "Prob.: " ++ py_str prob ++ lit "%" ++ nl ++ nl ++
      lit "Responde em português europeu, de forma simpática.").

Definition call_mistral (prompt : str) : M str :=
  r ← send (Post (lit "http://localhost:11434/api/generate")
              (VDict [(lit "model", VStr (lit "mistral"));
                      (lit "prompt", VStr prompt);
                      (lit "stream", VBool false)]));
  lift (
    text ← getitem r (lit "response");
    match text with
    | VStr s => Ok (strip s)
    | _ => Err AttributeError
    end).

(** *** Routes: the chat handler *)

(** [format_day(data["forecast"][0], data["weather_types"],
    data["precipitation"])] *)
Definition format_today (data : gmap str value) : result value :=
  day ← flag_item data (lit "forecast") ≫= getitem0;
  types ← flag_item data (lit "weather_types");
  precs ← flag_item data (lit "precipitation");
  format_day day types precs.

(** [plot_list.append(item)] *)
Definition plot_list_append (pl : option (list (value * str)))
    (item : value * str) : result (option (list (value * str))) :=
  match pl with
  | Some l => Ok (Some (l ++ [item]))
  | None => Err AttributeError
  end.

(** The loop over [locs] of the all-cities branch. *)
Fixpoint all_cities_loop (flags : gmap str value) (locs : list value)
    (forecasts : list (value * value))
    (pl : option (list (value * str)))
    : M (list (value * value) * option (list (value * str))) :=
  match locs with
  | [] => mret (forecasts, pl)
  | loc :: locs' =>
      gid ← lift (getitem loc (lit "globalIdLocal"));
      let parsed := <[lit "global_id" := gid]> flags in
      data ← gather_data parsed;
      resumo ← lift (format_today data);
      forecasts' ← lift (pydict_set forecasts gid resumo);
      pl' ← (if truthy (flag_get flags (lit "incluir_grafico")) then
               lift (name ← getitem loc (lit "local");
                     html ← flag_item data (lit "forecast") ≫= generate_plot;
                     plot_list_append pl (name, html))
             else mret pl);
      all_cities_loop flags locs' forecasts' pl'
  end.

Definition empty_message (text : str) : response :=
  {| user_message := text;
     resposta :=
       lit "Desculpa, não recebi nenhuma mensagem. Podes tentar novamente?";
     grafico_html := None; map_html := None; plot_list := None |}.

Definition all_cities (text : str) (flags : gmap str value) : M response :=
  locs ← fetch_json (lit "/distrits-islands.json")
          ≫= λ r, lift (getitem r (lit "data"));
  let pl := if truthy (flag_get flags (lit "incluir_grafico"))
            then Some [] else None in
  rows ← lift (py_iter locs);
  '(forecasts, pl) ← all_cities_loop flags rows [] pl;
  html ← generate_map_all locs forecasts;
  mret {| user_message := text;
          resposta := lit "Mapa e gráficos de todas as cidades:";
          grafico_html := None; map_html := Some html; plot_list := pl |}.

Definition unresolved (text : str) : response :=
  {| user_message := text;
     resposta :=
       lit "Desculpa, não consegui processar o teu pedido. Podes reformular indicando cidade e o que pretendes?";
     grafico_html := None; map_html := None; plot_list := None |}.

(** [next((l for l in locs if l["local"].lower()
    == flags["cidade"].lower()), None)] *)
Fixpoint find_location (flags : gmap str value) (locs : list value)
    : result value :=
  match locs with
  | [] => Ok VNone
  | l :: locs' =>
      name ← getitem l (lit "local") ≫= lower_method;
      wanted ← flag_item flags (lit "cidade") ≫= lower_method;
      if bool_decide (name = wanted) then Ok l
      else find_location flags locs'
  end.

(** Fetch the directory again and look the city up in it
    ("resolve global_idLocal"). *)
Definition resolve_location (flags : gmap str value) : M value :=
  locs ← fetch_json (lit "/distrits-islands.json")
          ≫= λ r, lift (getitem r (lit "data"));
  lift (py_iter locs ≫= find_location flags).

Definition not_found (text : str) (flags : gmap str value) : M response :=
  cidade ← lift (flag_item flags (lit "cidade"));
  mret {| user_message := text;
          resposta := lit "Não encontrei '" ++ py_str cidade
                      ++ lit "'. Podes confirmar o nome?";
          grafico_html := None; map_html := None; plot_list := None |}.

(** The rest of the handler once the location [obj] is known. *)
Definition resolved (text : str) (flags : gmap str value) (obj : value)
    : M response :=
  gid ← lift (getitem obj (lit "globalIdLocal"));
  let flags := <[lit "global_id" := gid]> flags in
  data ← gather_data flags;
  hoje ← lift (format_today data);
  (* calling LLM *)
  prompt ← lift (cidade ← flag_item flags (lit "cidade");
                 build_prompt cidade hoje);
  resposta ← call_mistral prompt;
  graf_html ← (if truthy (flag_get flags (lit "incluir_grafico")) then
                 lift (html ← flag_item data (lit "forecast")
                               ≫= generate_plot;
                       Ok (Some html))
               else mret None);
  (* popup *)
  popup_text ← lift (emoji ← getitem hoje (lit "emoji");
                     tipo ← getitem hoje (lit "tipo_tempo");
                     tmin ← getitem hoje (lit "temperatura_min");
                     tmax ← getitem hoje (lit "temperatura_max");
                     Ok (py_str emoji ++ lit " " ++ py_str tipo ++ lit ", "
                         ++ py_str tmin ++ lit "°C–" ++ py_str tmax
                         ++ lit "°C"));
  map_html ← (if truthy (flag_get flags (lit "mostrar_mapa")) then
                lat ← lift (getitem obj (lit "latitude"));
                lon ← lift (getitem obj (lit "longitude"));
                html ← generate_map lat lon popup_text;
                mret (Some html)
              else mret None);
  mret {| user_message := text; resposta := resposta;
          grafico_html := graf_html; map_html := map_html;
          plot_list := None |}.

(** [chat_htmx], on the submitted form. *)
Definition chat_htmx (form : gmap str str) : M response :=
  let text := strip (default [] (form !! lit "mensagem")) in
  if bool_decide (text = []) then mret (empty_message text)
  else
    flags ← parse_user_input text;
    (* all cities request *)
    if truthy (flag_get flags (lit "todas_localidades"))
    then all_cities text flags
    else if negb (truthy (flag_get flags (lit "cidade")))
            || negb (truthy (flag_get flags (lit "intencao_previsao")))
    then mret (unresolved text)
    else
      (* resolve global_idLocal *)
      obj ← resolve_location flags;
      if negb (truthy obj) then not_found text flags
      else resolved text flags obj.
End app.

(** The dictionary [format_day] builds from its eight values. *)
Definition day_summary (date tmin tmax wind desc pdesc prob emoji : value)
    : value :=
  VDict [
    (lit "data", date);
    (lit "temperatura_min", tmin);
    (lit "temperatura_max", tmax);
    (lit "vento", wind);
    (lit "tipo_tempo", desc);
    (lit "precipitacao", pdesc);
    (lit "prob_precipitacao", prob);
    (lit "emoji", emoji)
  ].

(** ** Reference builtins

    A concrete [builtins] for running the program on examples.  It agrees
    with CPython on the values the examples use: text in the Latin-1
    range without quotes or backslashes, integers, and plain decimal
    numerals of a few digits, a float being kept as the numeral it was
    read from. *)
Module reference.

Definition lower_char (c : N) : N :=
  if ((65 <=? c) && (c <=? 90)
      || (192 <=? c) && (c <=? 222) && negb (c =? 215))%N
  then (c + 32)%N else c.

Definition lower (s : str) : str := lower_char <$> s.

Fixpoint digits_of_uint (u : Decimal.uint) : str :=
  match u with
  | Decimal.Nil => []
  | Decimal.D0 u' => 48%N :: digits_of_uint u'
  | Decimal.D1 u' => 49%N :: digits_of_uint u'
  | Decimal.D2 u' => 50%N :: digits_of_uint u'
  | Decimal.D3 u' => 51%N :: digits_of_uint u'
  | Decimal.D4 u' => 52%N :: digits_of_uint u'
  | Decimal.D5 u' => 53%N :: digits_of_uint u'
  | Decimal.D6 u' => 54%N :: digits_of_uint u'
  | Decimal.D7 u' => 55%N :: digits_of_uint u'
  | Decimal.D8 u' => 56%N :: digits_of_uint u'
  | Decimal.D9 u' => 57%N :: digits_of_uint u'
  end.

Definition decimal (z : Z) : str :=
  (if (z <? 0)%Z then lit "-" else [])
  ++ digits_of_uint (N.to_uint (Z.abs_N z)).

(** [k] when [d] is the [k]-th power of ten. *)
Fixpoint decimals (fuel : nat) (d : positive) : option nat :=
  match fuel with
  | O => None
  | S fuel' =>
      if (d =? 1)%positive then Some 0%nat
      else if (Z.pos d mod 10 =? 0)%Z
      then S <$> decimals fuel' (Z.to_pos (Z.pos d / 10))
      else None
  end.

Fixpoint drop_zeros (s : str) : str :=
  match s with
  | 48%N :: s' => drop_zeros s'
  | _ => s
  end.

(** A float that was read from a decimal numeral is printed as that
    numeral, without trailing zeros. *)
Definition float_repr (q : Q) : str :=
  match decimals 20 (Qden q) with
  | Some k =>
      let n := Z.abs_N (Qnum q) in
      let d := N.pos (Qden q) in
      let frac := digits_of_uint (N.to_uint (n mod d)) in
      let padded := replicate (k - length frac) 48%N ++ frac in
      let trimmed := rev (drop_zeros (rev padded)) in
      (if (Qnum q <? 0)%Z then lit "-" else [])
      ++ digits_of_uint (N.to_uint (n / d)) ++ lit "."
      ++ (if bool_decide (trimmed = []) then lit "0" else trimmed)
  | None => decimal (Qnum q) ++ lit "/" ++ decimal (Z.pos (Qden q))
  end.

Definition repr (v : value) : str :=
  match v with
  | VNone => lit "None"
  | VBool true => lit "True"
  | VBool false => lit "False"
  | VInt z => decimal z
  | VFloat q => float_repr q
  | VStr s => lit "'" ++ s ++ lit "'"
  | VList _ => lit "[...]"
  | VDict _ => lit "{...}"
  end.

(** Digits before and after the point, read as a rational. *)
Fixpoint read_digits (s : str) (acc : Z) (scale : positive) (frac : bool)
    : option Q :=
  match s with
  | [] => Some (acc # scale)
  | c :: s' =>
      if (c =? 46)%N then
        if frac then None else read_digits s' acc scale true
      else if ((48 <=? c) && (c <=? 57))%N then
        read_digits s' (acc * 10 + Z.of_N (c - 48))%Z
          (if frac then scale * 10 else scale)%positive frac
      else None
  end.

Definition float (v : value) : result Q :=
  match v with
  | VBool b => Ok (inject_Z (if b then 1 else 0))
  | VInt z => Ok (inject_Z z)
  | VFloat q => Ok q
  | VStr (45%N :: c :: s) =>
      match read_digits (c :: s) 0 1 false with
      | Some q => Ok (- q)%Q
      | None => Err ValueError
      end
  | VStr (c :: s) =>
      match read_digits (c :: s) 0 1 false with
      | Some q => Ok q
      | None => Err ValueError
      end
  | VStr [] => Err ValueError
  | _ => Err TypeError
  end.

Definition py : builtins := {|
  py_lower := lower;
  py_repr := repr;
  py_float := float;
  plot_html := λ dates _ _,
    lit "<div>" ++ decimal (Z.of_nat (length dates)) ++ lit " days</div>";
  uuid4_hex := λ n, decimal (Z.of_nat n);
|}.

(** A row of the district directory. *)
Definition district (name : string) (gid : Z) (lat lon : string) : value :=
  VDict [(lit "local", VStr (lit name));
         (lit "globalIdLocal", VInt gid);
         (lit "latitude", VStr (lit lat));
         (lit "longitude", VStr (lit lon))].

Definition directory : value :=
  VDict [(lit "owner", VStr (lit "IPMA"));
         (lit "country", VStr (lit "PT"));
         (lit "data", VList [
            district "Aveiro" 1010500 "40.6413" "-8.6535";
            district "Lisboa" 1110600 "38.7660" "-9.1286";
            district "Porto" 1131200 "41.1580" "-8.6294"])].

(** A network that serves the directory and nothing else. *)
Definition net : network := λ _ rq,
  match rq with
  | Get url =>
      if bool_decide (url = BASE_URL ++ lit "/distrits-islands.json")
      then Reply 200 (Json directory)
      else Reply 404 NotJson
  | Post _ _ => NoReply
  end.

Definition start : world := {| sent := []; drawn := 0 |}.

(** The world after the one directory request of [extract_city]. *)
Definition after_directory : world :=
  {| sent := [Get (BASE_URL ++ lit "/distrits-islands.json")]; drawn := 0 |}.

Definition names : list str := [lit "Aveiro"; lit "Lisboa"; lit "Porto"].

(** A day of forecast whose codes the tables below do not list, and
    which carries both probability fields. *)
Definition day : value :=
  VDict [(lit "precitaProb", VStr (lit "80.0"));
         (lit "precipitaProb", VStr (lit "15.0"));
         (lit "tMin", VStr (lit "12.1"));
         (lit "tMax", VStr (lit "20.3"));
         (lit "predWindDir", VStr (lit "NW"));
         (lit "idWeatherType", VInt 99);
         (lit "classPrecInt", VInt 7);
         (lit "forecastDate", VStr (lit "2024-05-01"))].

Definition weather_types : value :=
  VList [VDict [(lit "descWeatherTypePT", VStr (lit "Céu limpo"));
                (lit "idWeatherType", VInt 1)];
         VDict [(lit "descWeatherTypePT", VStr (lit "Céu pouco nublado"));
                (lit "idWeatherType", VInt 2)]].

Definition precipitation : value :=
  VList [VDict [(lit "descClassPrecIntPT", VStr (lit "Fraco"));
                (lit "classPrecInt", VInt 1)];
         VDict [(lit "descClassPrecIntPT", VStr (lit "Moderado"));
                (lit "classPrecInt", VInt 2)]].

(** The summary of [day]. *)
Definition today : value :=
  day_summary (VStr (lit "2024-05-01")) (VStr (lit "12.1"))
    (VStr (lit "20.3")) (VStr (lit "NW")) (VStr (lit "Desconhecido"))
    (VStr (lit "Sem dados")) (VStr (lit "80.0")) (VStr []).

(** Summaries for Lisboa only. *)
Definition forecasts : list (value * value) := [(VInt 1110600, today)].

Definition rows : list value :=
  [district "Aveiro" 1010500 "40.6413" "-8.6535";
   district "Lisboa" 1110600 "38.7660" "-9.1286";
   district "Porto" 1131200 "41.1580" "-8.6294"].

End reference.

(** ** Vocabulary for the properties of [difflib] *)

(** How often [c] occurs in [b]. *)
Fixpoint occurrences (c : N) (b : str) : nat :=
  match b with
  | [] => 0
  | y :: b' => (if bool_decide (y = c) then 1 else 0) + occurrences c b'
  end.

(** One copy of [x] less in the supply [f]. *)
Definition take_one (x : N) (f : N → nat) : N → nat :=
  λ c, if bool_decide (c = x) then pred (f c) else f c.

(** The number of elements of [a] that find a partner in a supply [f] of
    elements, each copy being used once: what [quick_ratio] counts. *)
Fixpoint greedy (a : str) (f : N → nat) : nat :=
  match a with
  | [] => 0
  | x :: a' =>
      if (0 <? f x)%nat then S (greedy a' (take_one x f)) else greedy a' f
  end.

(** [l[lo:hi]] *)
Definition slice (lo hi : nat) (l : str) : str := take (hi - lo) (drop lo l).

(** [(i, j, k)] is a block of equal elements inside the windows
    [a[alo:ahi]] and [b[blo:bhi]]. *)
Definition okblock (a b : str) (alo ahi blo bhi : nat) (t : difflib.block)
    : Prop :=
  let '(i, j, k) := t in
  (alo ≤ i ∧ i + k ≤ ahi ∧ blo ≤ j ∧ j + k ≤ bhi
   ∧ ∀ d, d < k → difflib.same a b (i + d) (j + d) = true)%nat.

(** The supply [quick_ratio] reads through [avail] and [fullbcount]. *)
Definition supply (fbc avail : gmap N Z) : N → nat := λ c,
  Z.to_nat (match avail !! c with
            | Some n => n
            | None => default 0%Z (fbc !! c)
            end).


(** Every position [b2j] lists for an element holds that element. *)
Definition b2j_sound (b : str) (b2j : gmap N (list nat)) : Prop :=
  ∀ x js j, b2j !! x = Some js → j ∈ js → b !! j = Some x.

(** What a row [j2len] of [find_longest_match] records when the rows
    before [e] have been scanned: [k] equal elements end at [(e-1, j)]. *)
Definition row_inv (a b : str) (alo blo bhi e : nat) (m : gmap nat nat)
    : Prop :=
  ∀ j k, m !! j = Some k →
    (alo + k ≤ e ∧ blo + k ≤ j + 1 ∧ j < bhi
     ∧ ∀ d, d < k → difflib.same a b (e - k + d) (j + 1 - k + d) = true)%nat.

(** The partners the windows of a work item could offer at most. *)
Definition region (a b : str) (q : nat * nat * nat * nat) : nat :=
  let '(alo, ahi, blo, bhi) := q in
  greedy (slice alo ahi a) (λ c, occurrences c (slice blo bhi b)).

Definition window_ok (q : nat * nat * nat * nat) : Prop :=
  let '(alo, ahi, blo, bhi) := q in (alo ≤ ahi ∧ blo ≤ bhi)%nat.

(** The rounds a work list can still cost. *)
Definition work (q : nat * nat * nat * nat) : nat :=
  let '(alo, ahi, _, _) := q in (2 * (ahi - alo) + 1)%nat.

Definition sizes (l : list difflib.block) : nat :=
  sum_list ((λ t : difflib.block, t.2) <$> l).

(** ** Vocabulary for the properties of the application *)

Definition directory_url : str := BASE_URL ++ lit "/distrits-islands.json".

(** [rows] are directory entries whose [local] fields are the strings
    [names], in the same order. *)
Definition directory_names (rows : list value) (names : list str) : Prop :=
  Forall2 (λ row name, getitem row (lit "local") = Ok (VStr name)) rows names.

(** What [extract_city] returns on a directory with the names [names]:
    first the exact containment pass, then the close match. *)
Definition lookup_city (py : builtins) (text : str) (names : list str)
    : value :=
  let lo := py_lower py text in
  match list_find (λ n, contains (py_lower py n) lo = true) names with
  | Some (_, n) => VStr n
  | None =>
      match difflib.get_close_matches lo (py_lower py <$> names) (6 # 10) with
      | matched :: _ =>
          match list_find (λ n, py_lower py n = matched) names with
          | Some (_, n) => VStr n
          | None => VNone
          end
      | [] => VNone
      end
  end.

(** The keywords of the four keyword tests. *)
Definition all_cities_keywords : list str :=
  [lit "todas as cidades"; lit "todas localidades"; lit "all cities"].

(** An entry of the weather-type table: a code and a description. *)
Definition weather_entry (w : value) : Prop :=
  ∃ id desc, getitem w (lit "idWeatherType") = Ok id
             ∧ getitem w (lit "descWeatherTypePT") = Ok (VStr desc).

(** An entry of the precipitation table: a class and a description. *)
Definition precipitation_entry (p : value) : Prop :=
  ∃ c desc, getitem p (lit "classPrecInt") = Ok c
            ∧ getitem p (lit "descClassPrecIntPT") = Ok desc.

(** A directory entry [generate_map_all] can place on the map: an id
    that can key a dictionary, a name, and coordinates [float] accepts. *)
Definition location_entry (py : builtins) (loc : value) : Prop :=
  ∃ gid name lat lon,
    getitem loc (lit "globalIdLocal") = Ok gid ∧ hashable gid = true
    ∧ getitem loc (lit "local") = Ok (VStr name)
    ∧ getitem loc (lit "latitude") ≫= py_float py = Ok lat
    ∧ getitem loc (lit "longitude") ≫= py_float py = Ok lon.

(** Every value of the dictionary is a summary made by [format_day]. *)
Definition summaries (py : builtins) (forecasts : list (value * value))
    : Prop :=
  ∀ gid f, (gid, f) ∈ forecasts →
    ∃ day types precs, format_day py day types precs = Ok f.

(** ** Vocabulary for the request traces *)

Definition is_get (rq : request) : Prop :=
  match rq with
  | Get _ => True
  | Post _ _ => False
  end.

(** Every run of [m] appends to the requests sent a list that satisfies
    [P], whether it returns or raises. *)
Definition sends {A} (P : list request → Prop) (m : M A) : Prop :=
  ∀ w r w', m w = (r, w') → ∃ l, sent w' = sent w ++ l ∧ P l.

(** GET requests only. *)
Definition gets_only (l : list request) : Prop := Forall is_get l.

(** GET requests, then at most one POST. *)
Definition gets_then_post (l : list request) : Prop :=
  ∃ gets, gets_only gets ∧ (l = gets ∨ ∃ url body, l = gets ++ [Post url body]).

Definition forecast_url (py : builtins) (gid : value) : str :=
  BASE_URL ++ lit "/forecast/meteorology/cities/daily/" ++ py_str py gid
  ++ lit ".json".

Definition weather_types_url : str := BASE_URL ++ lit "/weather-type-classe.json".

Definition precipitation_url : str := BASE_URL ++ lit "/precipitation-classe.json".

(** The reply to a request is not a JSON value under a status below
    400: there is no reply, or an error status, or a body that is of
    another content type, empty or unparsable. *)
Definition failing (r : reply) : Prop :=
  match r with
  | NoReply => True
  | Reply status body =>
      (400 ≤ status)%N ∨ match body with Json _ => False | _ => True end
  end.

(** Neither the first nor the last character is white space. *)
Definition trimmed (s : str) : Prop :=
  (∀ c r, s = c :: r → isspace c = false)
  ∧ (∀ c r, s = r ++ [c] → isspace c = false).

(** The request [call_mistral] sends for a prompt. *)
Definition mistral_request (prompt : str) : request :=
  Post (lit "http://localhost:11434/api/generate")
    (VDict [(lit "model", VStr (lit "mistral"));
            (lit "prompt", VStr prompt);
            (lit "stream", VBool false)]).

(** What the handler does with the flags of a non-empty message. *)
Definition dispatch (py : builtins) (net : network) (text : str)
    (flags : gmap str value) : M response :=
  if truthy (flag_get flags (lit "todas_localidades"))
  then all_cities py net text flags
  else if negb (truthy (flag_get flags (lit "cidade")))
          || negb (truthy (flag_get flags (lit "intencao_previsao")))
  then mret (unresolved text)
  else
    obj ← resolve_location py net flags;
    if negb (truthy obj) then not_found py text flags
    else resolved py net text flags obj.

(** The keyword tests of [PREPROCESSORS] on a message. *)
Definition wants_chart (py : builtins) (text : str) : bool :=
  contains (lit "gráfico") (py_lower py text)
  || contains (lit "grafico") (py_lower py text).

Definition wants_forecast (py : builtins) (text : str) : bool :=
  existsb (λ kw, contains kw (py_lower py text)) [lit "tempo"; lit "previsão"].

Definition wants_map (py : builtins) (text : str) : bool :=
  contains (lit "mapa") (py_lower py text).

Definition wants_all (py : builtins) (text : str) : bool :=
  existsb (λ kw, contains kw (py_lower py text))
    [lit "todas as cidades"; lit "todas localidades"; lit "all cities"].

(** The requests of one round of the all-cities loop. *)
Definition city_requests (py : builtins) (loc : value) : list request :=
  match getitem loc (lit "globalIdLocal") with
  | Ok gid => [Get directory_url; Get (forecast_url py gid);
               Get weather_types_url; Get precipitation_url]
  | Err _ => []
  end.

(** ** A service for the examples *)
Module scenario.

(** The four endpoints of the weather service, [fc] being the forecast
    of every location, and a language model that sends [answer] back
    for every prompt. *)
Definition service (fc answer : value) : network := λ _ rq,
  match rq with
  | Get url =>
      if bool_decide (url = directory_url)
      then Reply 200 (Json reference.directory)
      else if bool_decide (url = weather_types_url)
      then Reply 200 (Json (VDict [(lit "data", reference.weather_types)]))
      else if bool_decide (url = precipitation_url)
      then Reply 200 (Json (VDict [(lit "data", reference.precipitation)]))
      else if is_prefix (BASE_URL ++ lit "/forecast/meteorology/cities/daily/")
                url
      then Reply 200 (Json (VDict [(lit "data", fc)]))
      else Reply 404 NotJson
  | Post _ _ => Reply 200 (Json (VDict [(lit "response", answer)]))
  end.

(** A day whose weather code the table lists, and whose precipitation
    class comes as text. *)
Definition day : value :=
  VDict [(lit "precipitaProb", VStr (lit "15.0"));
         (lit "tMin", VStr (lit "12.1"));
         (lit "tMax", VStr (lit "20.3"));
         (lit "predWindDir", VStr (lit "NW"));
         (lit "idWeatherType", VInt 2);
         (lit "classPrecInt", VStr (lit "2"));
         (lit "forecastDate", VStr (lit "2024-05-01"))].

Definition days : value := VList [day; reference.day].

Definition answer : value :=
  VStr (lit "  Hoje o céu está pouco nublado em Lisboa. " ++ nl).

Definition net : network := service days answer.

(** The same service when it has no forecast to give. *)
Definition no_days : network := service (VList []) answer.

(** No server answers. *)
Definition offline : network := λ _ _, NoReply.

Definition lisboa : value :=
  reference.district "Lisboa" 1110600 "38.7660" "-9.1286".

(** The form of a message. *)
Definition form (msg : string) : gmap str str := {[ lit "mensagem" := lit msg ]}.

(** The flags of "gráfico e mapa do tempo em Lisboa". *)
Definition flags : gmap str value :=
  <[lit "mostrar_mapa" := VBool true]>
    (<[lit "incluir_grafico" := VBool true]>
       {[ lit "cidade" := VStr (lit "Lisboa") ]}).

(** A weather table that lists code 2 twice, and then an entry without
    a code. *)
Definition types : value :=
  VList [VDict [(lit "descWeatherTypePT", VStr (lit "Céu limpo"));
                (lit "idWeatherType", VInt 1)];
         VDict [(lit "descWeatherTypePT", VStr (lit "Céu pouco nublado"));
                (lit "idWeatherType", VFloat 2)];
         VDict [(lit "descWeatherTypePT", VStr (lit "Neve"));
                (lit "idWeatherType", VInt 2)];
         VDict []].

End scenario.

(** * Properties *)

(** ** Strings *)

Lemma is_prefix_spec (p s : str) :
  is_prefix p s = true ↔ ∃ post, s = p ++ post.
Proof.
  revert s; induction p as [|x p IH]; intros s; simpl.
  - split; [intros _; by exists s | done].
  - destruct s as [|y s]; simpl.
    + split; [done | by intros [post ?]].
    + rewrite andb_true_iff, N.eqb_eq, IH. split.
      * intros [-> [post ->]]. by exists post.
      * intros [post [= -> ->]]. split; [done | by exists post].
Qed.

Lemma contains_spec (needle hay : str) :
  contains needle hay = true ↔ substring needle hay.
Proof.
  unfold substring. induction hay as [|y hay IH].
  - simpl. rewrite orb_false_r, is_prefix_spec. split.
    + intros [post ->]. by exists [], post.
    + intros (pre & post & H). destruct pre; simpl in H.
      * by exists post.
      * done.
  - cbn [contains]. rewrite orb_true_iff, is_prefix_spec, IH. split.
    + intros [[post ->] | (pre & post & ->)].
      * by exists [], post.
      * by exists (y :: pre), post.
    + intros (pre & post & H). destruct pre as [|z pre]; simpl in H.
      * left. by exists post.
      * right. injection H as -> ->. by exists pre, post.
Qed.

Lemma contains_false (needle hay : str) :
  contains needle hay = false ↔ ¬ substring needle hay.
Proof.
  rewrite <- contains_spec. by destruct (contains needle hay).
Qed.

Lemma lstrip_spaces (s : str) : forallb isspace s = true → lstrip s = [].
Proof.
  induction s as [|c s IH]; simpl; [done|].
  rewrite andb_true_iff. intros [-> ?]. auto.
Qed.

Lemma strip_spaces (s : str) : forallb isspace s = true → strip s = [].
Proof. intros H. unfold strip. by rewrite (lstrip_spaces s H). Qed.

(** ** [difflib]: the quick ratios bound the ratio *)

Lemma occurrences_app (c : N) (b1 b2 : str) :
  occurrences c (b1 ++ b2) = (occurrences c b1 + occurrences c b2)%nat.
Proof. induction b1 as [|y b1 IH]; simpl; [done | rewrite IH; lia]. Qed.

Lemma occurrences_split (x : N) (b : str) :
  (0 < occurrences x b)%nat → ∃ b1 b2, b = b1 ++ x :: b2.
Proof.
  induction b as [|y b IH]; simpl; [lia|].
  case_bool_decide as Hy.
  - subst y. intros _. by exists [], b.
  - intros H. destruct IH as (b1 & b2 & ->); [lia|]. by exists (y :: b1), b2.
Qed.

Lemma greedy_mono (a : str) (f g : N → nat) :
  (∀ c, f c ≤ g c)%nat → (greedy a f ≤ greedy a g)%nat.
Proof.
  revert f g; induction a as [|x a IH]; intros f g Hfg; simpl; [done|].
  pose proof (Hfg x) as Hx.
  destruct (Nat.ltb_spec 0 (f x)), (Nat.ltb_spec 0 (g x)); try lia.
  - apply le_n_S, IH. intros c. unfold take_one. specialize (Hfg c).
    case_bool_decide; lia.
  - apply Nat.le_le_succ_r, IH. intros c. unfold take_one.
    specialize (Hfg c). case_bool_decide; subst; lia.
  - by apply IH.
Qed.

Lemma greedy_ext (a : str) (f g : N → nat) :
  (∀ c, f c = g c) → greedy a f = greedy a g.
Proof.
  intros H. apply Nat.le_antisymm; apply greedy_mono; intros c; rewrite H; lia.
Qed.

(** One more copy in the supply buys at most one more partner. *)
Lemma greedy_extra (a : str) (x : N) (f g : N → nat) :
  (∀ c, g c ≤ f c + (if bool_decide (c = x) then 1 else 0))%nat →
  (greedy a g ≤ S (greedy a f))%nat.
Proof.
  revert f g; induction a as [|y a IH]; intros f g Hfg; simpl; [lia|].
  pose proof (Hfg y) as Hy.
  destruct (Nat.ltb_spec 0 (f y)), (Nat.ltb_spec 0 (g y)).
  - apply le_n_S, IH. intros c. unfold take_one. specialize (Hfg c).
    repeat case_bool_decide; subst; lia.
  - apply Nat.le_le_succ_r, IH. intros c. unfold take_one.
    specialize (Hfg c). repeat case_bool_decide; subst; lia.
  - apply le_n_S, greedy_mono. intros c. unfold take_one.
    specialize (Hfg c). repeat case_bool_decide; subst; lia.
  - by apply IH.
Qed.

(** Two supplies serve two strings at least as well when pooled. *)
Lemma greedy_app (a1 a2 : str) (f1 f2 f : N → nat) :
  (∀ c, f1 c + f2 c ≤ f c)%nat →
  (greedy a1 f1 + greedy a2 f2 ≤ greedy (a1 ++ a2) f)%nat.
Proof.
  revert f1 f2 f; induction a1 as [|x a1 IH]; intros f1 f2 f Hf; simpl.
  - apply greedy_mono. intros c. specialize (Hf c). lia.
  - pose proof (Hf x) as Hx.
    destruct (Nat.ltb_spec 0 (f1 x)), (Nat.ltb_spec 0 (f x)); try lia.
    + simpl. apply le_n_S, IH. intros c. unfold take_one.
      specialize (Hf c). case_bool_decide; subst; lia.
    + assert (greedy a2 f2 ≤ S (greedy a2 (take_one x f2)))%nat as H2.
      { apply (greedy_extra a2 x). intros c. unfold take_one.
        case_bool_decide; lia. }
      assert (greedy a1 f1 + greedy a2 (take_one x f2)
              ≤ greedy (a1 ++ a2) (take_one x f))%nat as H3.
      { apply IH. intros c. unfold take_one. specialize (Hf c).
        case_bool_decide; subst; lia. }
      lia.
    + by apply IH.
Qed.

Lemma greedy_self (m : str) : greedy m (λ c, occurrences c m) = length m.
Proof.
  induction m as [|x m IH]; simpl; [done|].
  rewrite bool_decide_eq_true_2 by done. simpl. f_equal.
  rewrite <- IH. apply greedy_ext. intros c. unfold take_one.
  case_bool_decide as Hc.
  - subst c. by rewrite bool_decide_eq_true_2.
  - rewrite bool_decide_eq_false_2; [done | congruence].
Qed.

Lemma greedy_le_l (a : str) (f : N → nat) : (greedy a f ≤ length a)%nat.
Proof.
  revert f; induction a as [|x a IH]; intros f; simpl; [done|].
  destruct (0 <? f x)%nat; [apply le_n_S|apply Nat.le_le_succ_r]; apply IH.
Qed.

Lemma greedy_le_r (a b : str) (f : N → nat) :
  (∀ c, f c ≤ occurrences c b)%nat → (greedy a f ≤ length b)%nat.
Proof.
  revert f b; induction a as [|x a IH]; intros f b Hf; simpl; [lia|].
  destruct (Nat.ltb_spec 0 (f x)) as [Hx|Hx]; [|by apply IH].
  destruct (occurrences_split x b) as (b1 & b2 & ->).
  { specialize (Hf x). lia. }
  rewrite length_app. simpl.
  assert (greedy a (take_one x f) ≤ length (b1 ++ b2))%nat as H.
  { apply IH. intros c. specialize (Hf c). revert Hf.
    rewrite !occurrences_app. simpl. unfold take_one.
    repeat case_bool_decide; subst; try done; lia. }
  rewrite length_app in H. lia.
Qed.

(** [fullbcount] counts occurrences. *)
Lemma fullbcount_spec (b : str) (c : N) :
  default 0%Z (difflib.fullbcount b !! c) = Z.of_nat (occurrences c b).
Proof.
  unfold difflib.fullbcount.
  enough (∀ m : gmap N Z,
    default 0%Z (foldl (λ (m : gmap N Z) elt,
                          <[elt := (default 0 (m !! elt) + 1)%Z]> m) m b !! c)
    = (default 0 (m !! c) + Z.of_nat (occurrences c b))%Z) as H.
  { rewrite H, lookup_empty. simpl. lia. }
  induction b as [|y b IH]; intros m; simpl; [lia|].
  rewrite IH. case_bool_decide as Hy.
  - subst y. rewrite lookup_insert_eq. simpl. lia.
  - rewrite lookup_insert_ne by done. lia.
Qed.

Lemma quick_matches_greedy (fbc : gmap N Z) (a : str) (avail : gmap N Z)
    (m : nat) :
  difflib.quick_matches fbc a avail m = (m + greedy a (supply fbc avail))%nat.
Proof.
  revert avail m; induction a as [|x a IH]; intros avail m; simpl; [lia|].
  rewrite IH. set (numb := match avail !! x with
                           | Some n => n
                           | None => default 0%Z (fbc !! x)
                           end).
  assert (supply fbc avail x = Z.to_nat numb) as Hx by done.
  rewrite Hx.
  assert (∀ c, supply fbc (<[x := (numb - 1)%Z]> avail) c
               = take_one x (supply fbc avail) c) as Hext.
  { intros c. unfold take_one, supply. case_bool_decide as Hc.
    - subst c. rewrite lookup_insert_eq. fold numb. lia.
    - by rewrite lookup_insert_ne. }
  destruct (Z.ltb_spec 0 numb), (Nat.ltb_spec 0 (Z.to_nat numb)); try lia.
  - rewrite (greedy_ext _ _ _ Hext). lia.
  - f_equal. apply greedy_ext. intros c. rewrite Hext. unfold take_one.
    case_bool_decide; subst; lia.
Qed.

Lemma quick_matches_spec (a b : str) :
  difflib.quick_matches (difflib.fullbcount b) a ∅ 0
  = greedy a (λ c, occurrences c b).
Proof.
  rewrite quick_matches_greedy. simpl. apply greedy_ext. intros c.
  unfold supply. rewrite lookup_empty, fullbcount_spec. lia.
Qed.

Lemma index_b_sound (b : str) : b2j_sound b (difflib.index_b b).
Proof.
  unfold difflib.index_b.
  enough (∀ (l : list (nat * N)) (m : gmap N (list nat)),
    (∀ i x, (i, x) ∈ l → b !! i = Some x) → b2j_sound b m →
    b2j_sound b (foldl (λ (b2j : gmap N (list nat)) '(i, elt),
                   <[elt := default [] (b2j !! elt) ++ [i]]> b2j) m l)) as H.
  { apply H.
    - intros i x (i' & y & [= -> ->] & Hy)%elem_of_lookup_imap_1. done.
    - intros x js j. by rewrite lookup_empty. }
  induction l as [|[i elt] l IH]; intros m Hl Hm; simpl; [done|].
  apply IH.
  - intros i' x Hx. apply Hl. by right.
  - intros x js j. destruct (decide (elt = x)) as [->|Hne].
    + rewrite lookup_insert_eq. intros [= <-] [Hj|Hj]%elem_of_app.
      * destruct (m !! x) as [js'|] eqn:Hm'; simpl in Hj.
        -- by apply (Hm x js').
        -- by apply elem_of_nil in Hj.
      * apply list_elem_of_singleton in Hj as ->. apply Hl. by left.
    + rewrite lookup_insert_ne by done. apply Hm.
Qed.

Lemma chain_b_sound (b : str) : b2j_sound b (difflib.chain_b b).
Proof.
  unfold difflib.chain_b. destruct (200 <=? length b)%nat.
  - intros x js j [Hx _]%map_lookup_filter_Some. by apply index_b_sound.
  - apply index_b_sound.
Qed.

Section find_longest_match.
Variables a b : str.
Variable b2j : gmap N (list nat).
Hypothesis Hb2j : b2j_sound b b2j.
Variables alo ahi blo bhi : nat.

Local Abbreviation ok := (okblock a b alo ahi blo bhi).
Local Abbreviation row := (row_inv a b alo blo bhi).

Lemma scan_row_ok (i : nat) (j2len : gmap nat nat) (js : list nat)
    (best : difflib.block) (newj2len : gmap nat nat) :
  (alo ≤ i)%nat → (i < ahi)%nat →
  (∀ j, j ∈ js → difflib.same a b i j = true) →
  row i j2len → ok best → row (S i) newj2len →
  ok (difflib.scan_row blo bhi i j2len js best newj2len).1
  ∧ row (S i) (difflib.scan_row blo bhi i j2len js best newj2len).2.
Proof.
  intros Hi Hi' Hjs Hprev. revert best newj2len.
  induction js as [|j js IH]; intros best new Hbest Hnew; simpl; [done|].
  assert (∀ j', j' ∈ js → difflib.same a b i j' = true) as Hjs'.
  { intros j' Hj'. apply Hjs. by right. }
  destruct (Nat.ltb_spec j blo) as [Hlo|Hlo]; [by apply IH|].
  destruct (Nat.leb_spec bhi j) as [Hhi|Hhi]; [done|].
  set (p := match j with O => 0 | S j' => default 0 (j2len !! j') end).
  assert ((alo + p ≤ i ∧ blo + p ≤ j
           ∧ ∀ d, d < p → difflib.same a b (i - p + d) (j - p + d) = true)%nat)
    as (Hp1 & Hp2 & Hp3).
  { subst p. destruct j as [|j']; [repeat split; [lia..|intros; lia]|].
    destruct (j2len !! j') as [k|] eqn:Hk; simpl;
      [|repeat split; [lia..|intros; lia]].
    destruct (Hprev j' k Hk) as (? & ? & ? & Hd).
    repeat split; [lia..|]. intros d Hdk. specialize (Hd d Hdk).
    by replace (S j' - k + d)%nat with (j' + 1 - k + d)%nat by lia. }
  assert (∀ d, d < S p → difflib.same a b (S i - S p + d) (j + 1 - S p + d)
                         = true)%nat as Hsame.
  { intros d Hd. destruct (decide (d = p)) as [->|Hne].
    - replace (S i - S p + p)%nat with i by lia.
      replace (j + 1 - S p + p)%nat with j by lia. apply Hjs. by left.
    - replace (S i - S p + d)%nat with (i - p + d)%nat by lia.
      replace (j + 1 - S p + d)%nat with (j - p + d)%nat by lia.
      apply Hp3. lia. }
  apply IH; [done| |].
  - destruct best as [[bi bj] bk]. simpl.
    destruct (Nat.ltb_spec bk (S p)); [|done].
    unfold okblock. repeat split; [lia..|].
    intros d Hd. specialize (Hsame d Hd).
    by replace (i + 1 - S p + d)%nat with (S i - S p + d)%nat by lia.
  - intros j' k. destruct (decide (j = j')) as [<-|Hne].
    + rewrite lookup_insert_eq. intros [= <-]. repeat split; [lia..|done].
    + rewrite lookup_insert_ne by done. apply Hnew.
Qed.

Lemma scan_ok (n e : nat) (best : difflib.block) (j2len : gmap nat nat) :
  (alo ≤ e)%nat → (e + n ≤ ahi)%nat → row e j2len → ok best →
  ok (difflib.scan a b2j blo bhi (seq e n) best j2len).
Proof.
  revert e best j2len; induction n as [|n IH]; intros e best j2len He Hn
    Hrow Hbest; simpl; [done|].
  set (js := match a !! e with
             | Some x => default [] (b2j !! x)
             | None => []
             end).
  destruct (difflib.scan_row blo bhi e j2len js best ∅)
    as [best' new] eqn:Hscan.
  assert (∀ j, j ∈ js → difflib.same a b e j = true) as Hjs.
  { intros j Hj. subst js. unfold difflib.same.
    destruct (a !! e) as [x|]; [|by apply elem_of_nil in Hj].
    destruct (b2j !! x) as [js|] eqn:Hx; simpl in Hj;
      [|by apply elem_of_nil in Hj].
    rewrite (Hb2j x js j Hx Hj). apply N.eqb_refl. }
  assert (row (S e) ∅) as Hempty.
  { intros j k. by rewrite lookup_empty. }
  destruct (scan_row_ok e j2len js best ∅) as [H1 H2];
    [lia|lia|done..|].
  rewrite Hscan in H1, H2. apply IH; [lia..|done|done].
Qed.

Lemma extend_left_ok (besti bestj bestsize : nat) :
  ok (besti, bestj, bestsize) →
  ok (difflib.extend_left a b alo blo besti bestj bestsize).
Proof.
  revert bestj bestsize; induction besti as [|i IH]; intros bestj bestsize
    Hok; simpl; [done|].
  destruct bestj as [|j]; [done|].
  destruct (_ && _ && _) eqn:Hc; [|done].
  apply andb_prop in Hc as [[Hi Hj]%andb_prop Hs].
  apply Nat.ltb_lt in Hi, Hj. apply IH.
  destruct Hok as (? & ? & ? & ? & Hd). repeat split; [lia..|].
  intros [|d] Hlt.
  - by rewrite !Nat.add_0_r.
  - replace (i + S d)%nat with (S i + d)%nat by lia.
    replace (j + S d)%nat with (S j + d)%nat by lia. apply Hd. lia.
Qed.

Lemma extend_right_ok (rounds besti bestj bestsize : nat) :
  ok (besti, bestj, bestsize) →
  ok (besti, bestj,
      difflib.extend_right a b rounds ahi bhi besti bestj bestsize).
Proof.
  revert bestsize; induction rounds as [|n IH]; intros bestsize Hok; simpl;
    [done|].
  destruct (_ && _ && _) eqn:Hc; [|done].
  apply andb_prop in Hc as [[Hi Hj]%andb_prop Hs].
  apply Nat.ltb_lt in Hi, Hj. apply IH.
  destruct Hok as (? & ? & ? & ? & Hd). repeat split; [lia..|].
  intros d Hlt. destruct (decide (d = bestsize)) as [->|Hne]; [done|].
  apply Hd. lia.
Qed.

Lemma find_longest_match_ok :
  (alo ≤ ahi)%nat → (blo ≤ bhi)%nat →
  ok (difflib.find_longest_match a b b2j alo ahi blo bhi).
Proof.
  intros Ha Hb. unfold difflib.find_longest_match.
  pose proof (scan_ok (ahi - alo) alo (alo, blo, 0%nat) ∅) as H.
  destruct (difflib.scan _ _ _ _ _ _ _) as [[i j] k].
  pose proof (extend_left_ok i j k) as H'.
  destruct (difflib.extend_left _ _ _ _ _ _ _) as [[i' j'] k'].
  apply extend_right_ok, H', H; [lia..| |].
  - intros ? ?. by rewrite lookup_empty.
  - repeat split; [lia..|]. intros; lia.
Qed.
End find_longest_match.

Lemma slice_split (lo mid hi : nat) (l : str) :
  (lo ≤ mid)%nat → (mid ≤ hi)%nat →
  slice lo hi l = slice lo mid l ++ slice mid hi l.
Proof.
  intros H1 H2. unfold slice.
  replace (hi - lo)%nat with ((mid - lo) + (hi - mid))%nat by lia.
  rewrite <- take_take_drop, drop_drop. do 3 f_equal. lia.
Qed.

Lemma slice_all (l : str) : slice 0 (length l) l = l.
Proof. unfold slice. by rewrite Nat.sub_0_r, drop_0, firstn_all. Qed.

Lemma okblock_slices (a b : str) (alo ahi blo bhi i j k : nat) :
  okblock a b alo ahi blo bhi (i, j, k) →
  slice i (i + k) a = slice j (j + k) b ∧ length (slice i (i + k) a) = k.
Proof.
  intros (_ & _ & _ & _ & Hd). split.
  - apply list_eq. intros d. unfold slice.
    replace (i + k - i)%nat with k by lia.
    replace (j + k - j)%nat with k by lia.
    rewrite !lookup_take, !lookup_drop. case_decide as Hdk; [|done].
    specialize (Hd d Hdk). unfold difflib.same in Hd.
    destruct (a !! (i + d)%nat), (b !! (j + d)%nat); try done.
    by apply N.eqb_eq in Hd as ->.
  - unfold slice. replace (i + k - i)%nat with k by lia.
    rewrite length_take, length_drop. destruct k as [|k]; [done|].
    specialize (Hd k (Nat.lt_succ_diag_r k)). unfold difflib.same in Hd.
    destruct (a !! (i + k)%nat) eqn:Ha; [|done].
    apply lookup_lt_Some in Ha. lia.
Qed.

(** A block and the two windows beside it fit in the window they were
    cut from. *)
Lemma region_split (a b : str) (alo ahi blo bhi i j k : nat) :
  okblock a b alo ahi blo bhi (i, j, k) →
  (region a b (alo, i, blo, j) + k + region a b (i + k, ahi, j + k, bhi)
   ≤ region a b (alo, ahi, blo, bhi))%nat.
Proof.
  intros Hok. pose proof Hok as (Hi & Hik & Hj & Hjk & _).
  destruct (okblock_slices _ _ _ _ _ _ _ _ _ Hok) as [Heq Hlen].
  unfold region.
  rewrite (slice_split alo i ahi a), (slice_split i (i + k) ahi a) by lia.
  set (f := λ c, occurrences c (slice blo bhi b)).
  set (f1 := λ c, occurrences c (slice blo j b)).
  set (f2 := λ c, occurrences c (slice j (j + k) b)).
  set (f3 := λ c, occurrences c (slice (j + k) bhi b)).
  assert (∀ c, f c = f1 c + (f2 c + f3 c))%nat as Hf.
  { intros c. subst f f1 f2 f3. simpl.
    rewrite (slice_split blo j bhi b), (slice_split j (j + k) bhi b) by lia.
    by rewrite !occurrences_app. }
  pose proof (greedy_app (slice alo i a)
                (slice i (i + k) a ++ slice (i + k) ahi a) f1
                (λ c, f2 c + f3 c)%nat f) as H1.
  pose proof (greedy_app (slice i (i + k) a) (slice (i + k) ahi a) f2 f3
                (λ c, f2 c + f3 c)%nat) as H2.
  assert (greedy (slice i (i + k) a) f2 = k) as H3.
  { subst f2. rewrite <- Heq, greedy_self. done. }
  assert (∀ c, f1 c + (f2 c + f3 c) ≤ f c)%nat as Hle1.
  { intros c. rewrite Hf. lia. }
  assert (∀ c, f2 c + f3 c ≤ f2 c + f3 c)%nat as Hle2 by (intros; lia).
  specialize (H1 Hle1). specialize (H2 Hle2). lia.
Qed.

Lemma sum_list_app (l1 l2 : list nat) :
  sum_list (l1 ++ l2) = (sum_list l1 + sum_list l2)%nat.
Proof. induction l1 as [|n l1 IH]; simpl; [done | rewrite IH; lia]. Qed.

Lemma sum_list_fmap_cons {A} (f : A → nat) (x : A) (l : list A) :
  sum_list (f <$> x :: l) = (f x + sum_list (f <$> l))%nat.
Proof. done. Qed.

Lemma sizes_app (l1 l2 : list difflib.block) :
  sizes (l1 ++ l2) = (sizes l1 + sizes l2)%nat.
Proof. unfold sizes. by rewrite fmap_app, sum_list_app. Qed.

Section split_blocks.
Variables a b : str.
Variable b2j : gmap N (list nat).
Hypothesis Hb2j : b2j_sound b b2j.

(** The blocks found never hold more elements than the windows on the
    work list could pair up. *)
Lemma split_blocks_bound (steps : nat) (queue : list (nat * nat * nat * nat))
    (acc : list difflib.block) :
  Forall window_ok queue →
  (sizes (difflib.split_blocks a b b2j steps queue acc)
   ≤ sizes acc + sum_list (region a b <$> queue))%nat.
Proof.
  revert queue acc; induction steps as [|steps IH]; intros queue acc Hq;
    simpl; [lia|].
  destruct queue as [|[[[alo ahi] blo] bhi] queue]; [simpl; lia|].
  apply Forall_cons in Hq as [[Ha Hb] Hq].
  pose proof (find_longest_match_ok a b b2j Hb2j alo ahi blo bhi Ha Hb)
    as Hok.
  destruct (difflib.find_longest_match a b b2j alo ahi blo bhi)
    as [[i j] k].
  pose proof (region_split _ _ _ _ _ _ _ _ _ Hok) as Hsplit.
  destruct Hok as (Hi & Hik & Hj & Hjk & _).
  destruct (Nat.eqb_spec k 0) as [->|Hk].
  { etrans; [by apply IH|]. rewrite sum_list_fmap_cons. lia. }
  set (q1 := if (alo <? i)%nat && (blo <? j)%nat
             then (alo, i, blo, j) :: queue else queue).
  set (q2 := if (i + k <? ahi)%nat && (j + k <? bhi)%nat
             then (i + k, ahi, j + k, bhi)%nat :: q1 else q1).
  assert (Forall window_ok q1
          ∧ sum_list (region a b <$> q1)
            ≤ region a b (alo, i, blo, j) + sum_list (region a b <$> queue))%nat
    as [Hq1 Hs1].
  { subst q1. destruct ((alo <? i)%nat && (blo <? j)%nat);
      rewrite ?sum_list_fmap_cons.
    - split; [|lia]. apply Forall_cons. split; [|done]. simpl. lia.
    - split; [done|lia]. }
  assert (Forall window_ok q2
          ∧ sum_list (region a b <$> q2)
            ≤ region a b (i + k, ahi, j + k, bhi)%nat
              + sum_list (region a b <$> q1))%nat
    as [Hq2 Hs2].
  { subst q2. destruct ((i + k <? ahi)%nat && (j + k <? bhi)%nat);
      rewrite ?sum_list_fmap_cons.
    - split; [|lia]. apply Forall_cons. split; [|done]. simpl. lia.
    - split; [done|lia]. }
  etrans; [by apply IH|]. rewrite sizes_app, sum_list_fmap_cons.
  change (sizes [(i, j, k)]) with (k + 0)%nat. lia.
Qed.

(** From [work] rounds on, more rounds change nothing: the loop has
    ended by then. *)
Lemma split_blocks_steps (n m : nat) (queue : list (nat * nat * nat * nat))
    (acc : list difflib.block) :
  Forall window_ok queue →
  (sum_list (work <$> queue) ≤ n)%nat → (sum_list (work <$> queue) ≤ m)%nat →
  difflib.split_blocks a b b2j n queue acc
  = difflib.split_blocks a b b2j m queue acc.
Proof.
  revert m queue acc; induction n as [|n IH]; intros m queue acc Hq Hn Hm.
  { destruct queue as [|[[[alo ahi] blo] bhi] queue]; [by destruct m|].
    rewrite sum_list_fmap_cons in Hn. unfold work at 1 in Hn. lia. }
  destruct queue as [|[[[alo ahi] blo] bhi] queue]; [by destruct m|].
  rewrite sum_list_fmap_cons in Hn, Hm.
  unfold work at 1 in Hn. unfold work at 1 in Hm.
  destruct m as [|m]; [lia|].
  apply Forall_cons in Hq as [[Ha Hb] Hq]. cbn [difflib.split_blocks].
  pose proof (find_longest_match_ok a b b2j Hb2j alo ahi blo bhi Ha Hb)
    as Hok.
  destruct (difflib.find_longest_match a b b2j alo ahi blo bhi)
    as [[i j] k].
  destruct Hok as (Hi & Hik & Hj & Hjk & _).
  destruct (Nat.eqb_spec k 0) as [->|Hk]; [apply IH; [done|lia..]|].
  set (q1 := if (alo <? i)%nat && (blo <? j)%nat
             then (alo, i, blo, j) :: queue else queue).
  set (q2 := if (i + k <? ahi)%nat && (j + k <? bhi)%nat
             then (i + k, ahi, j + k, bhi)%nat :: q1 else q1).
  assert (Forall window_ok q1
          ∧ sum_list (work <$> q1)
            ≤ 2 * (i - alo) + 1 + sum_list (work <$> queue))%nat
    as [Hq1 Hs1].
  { subst q1. destruct ((alo <? i)%nat && (blo <? j)%nat);
      rewrite ?sum_list_fmap_cons; unfold work.
    - split; [|lia]. apply Forall_cons. split; [|done]. simpl. lia.
    - split; [done|lia]. }
  assert (Forall window_ok q2
          ∧ sum_list (work <$> q2)
            ≤ 2 * (ahi - (i + k)) + 1 + sum_list (work <$> q1))%nat
    as [Hq2 Hs2].
  { subst q2. destruct ((i + k <? ahi)%nat && (j + k <? bhi)%nat);
      rewrite ?sum_list_fmap_cons; unfold work.
    - split; [|lia]. apply Forall_cons. split; [|done]. simpl. lia.
    - split; [done|lia]. }
  apply IH; [done|lia..].
Qed.
End split_blocks.

(** The work list loop ends within the rounds [matching_blocks] allows:
    any larger number of rounds yields the same blocks. *)
Lemma matching_blocks_total (a b : str) (extra : nat) :
  difflib.split_blocks a b (difflib.chain_b b) (2 * length a + 1 + extra)
    [(0, length a, 0, length b)%nat] []
  = difflib.matching_blocks a b.
Proof.
  unfold difflib.matching_blocks.
  apply split_blocks_steps; [apply chain_b_sound| |simpl; lia..].
  apply Forall_cons. split; [simpl; lia | done].
Qed.

Lemma sizes_insert_block (t : difflib.block) (l : list difflib.block) :
  sizes (difflib.insert_block t l) = (t.2 + sizes l)%nat.
Proof.
  induction l as [|u l IH]; simpl; [done|].
  destruct (difflib.block_leb t u); [done|].
  change (sizes (u :: difflib.insert_block t l))
    with (u.2 + sizes (difflib.insert_block t l))%nat.
  change (sizes (u :: l)) with (u.2 + sizes l)%nat. lia.
Qed.

Lemma sizes_sort_blocks (l : list difflib.block) :
  sizes (difflib.sort_blocks l) = sizes l.
Proof.
  induction l as [|t l IH]; [done|].
  change (difflib.sort_blocks (t :: l))
    with (difflib.insert_block t (difflib.sort_blocks l)).
  rewrite sizes_insert_block, IH. done.
Qed.

Lemma sizes_collapse (i1 j1 k1 : nat) (blocks acc : list difflib.block) :
  sizes (difflib.collapse i1 j1 k1 blocks acc)
  = (sizes acc + k1 + sizes blocks)%nat.
Proof.
  assert (sizes (if (k1 =? 0)%nat then acc else acc ++ [(i1, j1, k1)])
          = (sizes acc + k1)%nat) as Hflush.
  { destruct (Nat.eqb_spec k1 0) as [->|_]; [lia|].
    rewrite sizes_app. change (sizes [(i1, j1, k1)]) with (k1 + 0)%nat. lia. }
  revert i1 j1 k1 acc Hflush.
  induction blocks as [|[[i2 j2] k2] blocks IH]; intros i1 j1 k1 acc Hflush;
    cbn [difflib.collapse].
  { rewrite Hflush. change (sizes []) with 0%nat. lia. }
  change (sizes ((i2, j2, k2) :: blocks)) with (k2 + sizes blocks)%nat.
  destruct (_ && _).
  - rewrite IH; [lia|].
    destruct (Nat.eqb_spec (k1 + k2) 0) as [->|_]; [lia|].
    rewrite sizes_app.
    change (sizes [(i1, j1, (k1 + k2)%nat)]) with (k1 + k2 + 0)%nat. lia.
  - rewrite IH; [lia|].
    destruct (Nat.eqb_spec k2 0) as [->|_]; [lia|].
    rewrite sizes_app. change (sizes [(i2, j2, k2)]) with (k2 + 0)%nat. lia.
Qed.

(** Sorting and merging keep the number of matched elements. *)
Lemma matches_sizes (a b : str) :
  difflib.matches a b = sizes (difflib.matching_blocks a b).
Proof.
  unfold difflib.matches, difflib.get_matching_blocks.
  change (sum_list ((λ t : difflib.block, t.2) <$> ?l)) with (sizes l).
  rewrite sizes_app, sizes_collapse, sizes_sort_blocks.
  change (sizes [(length a, length b, 0%nat)]) with 0%nat.
  change (sizes []) with 0%nat. lia.
Qed.

Lemma matches_le_quick (a b : str) :
  (difflib.matches a b
   ≤ difflib.quick_matches (difflib.fullbcount b) a ∅ 0)%nat.
Proof.
  rewrite quick_matches_spec, matches_sizes. unfold difflib.matching_blocks.
  etrans; [apply split_blocks_bound; [apply chain_b_sound|]|].
  - apply Forall_cons. split; [simpl; lia | done].
  - rewrite sum_list_fmap_cons. change (sizes []) with 0%nat.
    assert (region a b (0, length a, 0, length b)%nat
            = greedy a (λ c, occurrences c b)) as ->.
    { unfold region. rewrite slice_all. apply greedy_ext. intros c.
      by rewrite slice_all. }
    simpl. lia.
Qed.

Lemma quick_le_real_quick (a b : str) :
  (difflib.quick_matches (difflib.fullbcount b) a ∅ 0
   ≤ length a `min` length b)%nat.
Proof.
  rewrite quick_matches_spec. apply Nat.min_glb.
  - apply greedy_le_l.
  - by apply greedy_le_r.
Qed.

Lemma calculate_ratio_mono (m m' len : nat) :
  (m ≤ m')%nat →
  (difflib.calculate_ratio m len <= difflib.calculate_ratio m' len)%Q.
Proof.
  intros H. unfold difflib.calculate_ratio.
  destruct (Nat.eqb_spec len 0); [apply Qle_refl|].
  unfold Qdiv. apply Qmult_le_compat_r.
  - apply Qmult_le_l; [done|]. rewrite <- Zle_Qle. lia.
  - apply Qinv_le_0_compat. replace 0%Q with (inject_Z 0) by done.
    rewrite <- Zle_Qle. lia.
Qed.

(** [quick_ratio] and [real_quick_ratio] are upper bounds on [ratio]. *)
Lemma ratio_le_quick_ratio (a b : str) :
  (difflib.ratio a b <= difflib.quick_ratio a b)%Q.
Proof. apply calculate_ratio_mono, matches_le_quick. Qed.

Lemma quick_ratio_le_real (a b : str) :
  (difflib.quick_ratio a b <= difflib.real_quick_ratio a b)%Q.
Proof. apply calculate_ratio_mono, quick_le_real_quick. Qed.

(** The first greatest element is one of the list and no element scores
    higher. *)
Lemma max_scored_spec (l : list (Q * str)) :
  match difflib.max_scored l with
  | None => l = []
  | Some m => m ∈ l ∧ ∀ q, q ∈ l → (q.1 <= m.1)%Q
  end.
Proof.
  destruct l as [|p l]; simpl; [done|].
  enough (∀ p0 : Q * str,
    let m := foldl (λ m q, if difflib.scored_ltb m q then q else m) p0 l in
    m ∈ p0 :: l ∧ (p0.1 <= m.1)%Q ∧ ∀ q, q ∈ l → (q.1 <= m.1)%Q) as H.
  { destruct (H p) as (H1 & H2 & H3). split; [done|].
    intros q [->|Hq]%elem_of_cons; auto. }
  induction l as [|q l IH]; intros p0; simpl.
  { split; [by left|]. split; [apply Qle_refl|]. by intros q ?%elem_of_nil. }
  assert ((p0.1 <= (if difflib.scored_ltb p0 q then q else p0).1)%Q
          ∧ (q.1 <= (if difflib.scored_ltb p0 q then q else p0).1)%Q)
    as [Hp Hq].
  { unfold difflib.scored_ltb.
    destruct (Qcompare_spec p0.1 q.1) as [He|Hl|Hl].
    - destruct (str_ltb p0.2 q.2).
      + split; [rewrite He|]; apply Qle_refl.
      + split; [|rewrite He]; apply Qle_refl.
    - split; [by apply Qlt_le_weak | apply Qle_refl].
    - split; [apply Qle_refl | by apply Qlt_le_weak]. }
  destruct (IH (if difflib.scored_ltb p0 q then q else p0))
    as (H1 & H2 & H3).
  split; [|split].
  - apply elem_of_cons in H1 as [H1|H1]; [|by do 2 right].
    rewrite H1. destruct (difflib.scored_ltb p0 q); [right|]; by left.
  - by eapply Qle_trans.
  - intros q' [->|Hq']%elem_of_cons; [by eapply Qle_trans | auto].
Qed.

(** With the two quick tests being upper bounds, a candidate is kept
    exactly when its [ratio] reaches the cutoff. *)
Lemma close_enough (word x : str) (cutoff : Q) :
  Qle_bool cutoff (difflib.real_quick_ratio x word)
  && Qle_bool cutoff (difflib.quick_ratio x word)
  && Qle_bool cutoff (difflib.ratio x word)
  = Qle_bool cutoff (difflib.ratio x word).
Proof.
  destruct (Qle_bool cutoff (difflib.ratio x word)) eqn:H;
    [|by rewrite andb_false_r].
  apply Qle_bool_iff in H.
  assert (cutoff <= difflib.quick_ratio x word)%Q as H1.
  { eapply Qle_trans; [exact H | apply ratio_le_quick_ratio]. }
  assert (cutoff <= difflib.real_quick_ratio x word)%Q as H2.
  { eapply Qle_trans; [exact H1 | apply quick_ratio_le_real]. }
  apply Qle_bool_iff in H1, H2. by rewrite H1, H2.
Qed.

Lemma get_close_matches_spec (word : str) (possibilities : list str)
    (cutoff : Q) :
  match difflib.get_close_matches word possibilities cutoff with
  | [] => ∀ x, x ∈ possibilities → (difflib.ratio x word < cutoff)%Q
  | m :: rest =>
      rest = [] ∧ m ∈ possibilities ∧ (cutoff <= difflib.ratio m word)%Q
      ∧ ∀ x, x ∈ possibilities →
             (difflib.ratio x word <= difflib.ratio m word)%Q
  end.
Proof.
  unfold difflib.get_close_matches.
  set (keep := λ x : str,
         if Qle_bool cutoff (difflib.real_quick_ratio x word)
            && Qle_bool cutoff (difflib.quick_ratio x word)
            && Qle_bool cutoff (difflib.ratio x word)
         then Some (difflib.ratio x word, x) else None).
  assert (∀ p, p ∈ omap keep possibilities ↔
               ∃ x, x ∈ possibilities ∧ p = (difflib.ratio x word, x)
                    ∧ (cutoff <= difflib.ratio x word)%Q) as Hres.
  { intros p. rewrite list_elem_of_omap. unfold keep. split.
    - intros (x & Hx & Hk). exists x. rewrite close_enough in Hk.
      destruct (Qle_bool _ _) eqn:Hc; [|done].
      apply Qle_bool_iff in Hc. by injection Hk as <-.
    - intros (x & Hx & -> & Hc). exists x. split; [done|].
      rewrite close_enough. apply Qle_bool_iff in Hc. by rewrite Hc. }
  pose proof (max_scored_spec (omap keep possibilities)) as Hmax.
  destruct (difflib.max_scored (omap keep possibilities)) as [[r m]|].
  - destruct Hmax as [Hin Hbest]. apply Hres in Hin as (x & Hx & [= -> ->] & Hc).
    repeat split; [done..|]. intros y Hy.
    destruct (Qlt_le_dec (difflib.ratio y word) cutoff) as [Hlt|Hge].
    + apply Qlt_le_weak. by eapply Qlt_le_trans.
    + apply (Hbest (difflib.ratio y word, y)). apply Hres. by exists y.
  - intros x Hx. apply Qnot_le_lt. intros Hc.
    assert ((difflib.ratio x word, x) ∈ omap keep possibilities) as Hin.
    { apply Hres. by exists x. }
    rewrite Hmax in Hin. by apply elem_of_nil in Hin.
Qed.

(** ** The monad *)

Lemma M_bind_ok {A B} (m : M A) (f : A → M B) w a w' :
  m w = (Ok a, w') → (m ≫= f) w = f a w'.
Proof. intros H. unfold mbind, M_bind. by rewrite H. Qed.

Lemma M_bind_err {A B} (m : M A) (f : A → M B) w e w' :
  m w = (Err e, w') → (m ≫= f) w = (Err e, w').
Proof. intros H. unfold mbind, M_bind. by rewrite H. Qed.

Lemma M_bind_inv {A B} (m : M A) (f : A → M B) w b w' :
  (m ≫= f) w = (Ok b, w') → ∃ a w1, m w = (Ok a, w1) ∧ f a w1 = (Ok b, w').
Proof.
  unfold mbind, M_bind. destruct (m w) as [[a|e] w1]; [|done].
  intros H. by exists a, w1.
Qed.

Lemma result_bind_inv {A B} (m : result A) (f : A → result B) b :
  m ≫= f = Ok b → ∃ a, m = Ok a ∧ f a = Ok b.
Proof. destruct m as [a|e]; [|done]. intros H. by exists a. Qed.

(** Keys of the dictionaries are literals: telling two apart is a
    computation. *)
Ltac key_ne :=
  let H := fresh in intros H; vm_compute in H; discriminate H.

Ltac flag_lookup :=
  unfold flag_get;
  repeat (rewrite lookup_insert_eq || rewrite lookup_insert_ne by key_ne).

Section properties.
Variable py : builtins.
Variable net : network.

(** *** The intent extractor *)

(** [parse_user_input] is [extract_city] followed by the four keyword
    tests, which cannot fail. *)
Lemma parse_user_input_eq (text : str) (w : world) :
  parse_user_input py net text w =
  match extract_city py net text w with
  | (Ok city, w') =>
      (Ok (<[lit "todas_localidades" :=
               VBool (existsb (λ kw, contains kw (py_lower py text))
                        [lit "todas as cidades"; lit "todas localidades";
                         lit "all cities"])]>
           (<[lit "mostrar_mapa" :=
                VBool (contains (lit "mapa") (py_lower py text))]>
            (<[lit "intencao_previsao" :=
                 VBool (existsb (λ kw, contains kw (py_lower py text))
                          [lit "tempo"; lit "previsão"])]>
             (<[lit "incluir_grafico" :=
                  VBool (contains (lit "gráfico") (py_lower py text)
                         || contains (lit "grafico") (py_lower py text))]>
              (<[lit "cidade" := city]> ∅))))), w')
  | (Err e, w') => (Err e, w')
  end.
Proof.
  unfold parse_user_input, PREPROCESSORS. cbn [run_preprocessors].
  unfold mbind at 1, M_bind at 1.
  by destruct (extract_city py net text w) as [[city|e] w'].
Qed.

(** *** Location lookup *)

Lemma first_contained_names (lo : str) (rows : list value)
    (names : list str) :
  directory_names rows names →
  first_contained py lo rows
  = Ok (match list_find (λ n, contains (py_lower py n) lo = true) names with
        | Some (_, n) => Some (VStr n)
        | None => None
        end).
Proof.
  induction 1 as [|row n rows names Hrow _ IH]; [done|].
  cbn [first_contained list_find]. rewrite Hrow. simpl.
  destruct (contains (py_lower py n) lo) eqn:Hc.
  - by rewrite decide_True.
  - rewrite decide_False by congruence. rewrite IH.
    by destruct (list_find _ names) as [[i m]|].
Qed.

Lemma first_equal_names (matched : str) (rows : list value)
    (names : list str) :
  directory_names rows names →
  first_equal py matched rows
  = Ok (match list_find (λ n, py_lower py n = matched) names with
        | Some (_, n) => Some (VStr n)
        | None => None
        end).
Proof.
  induction 1 as [|row n rows names Hrow _ IH]; [done|].
  cbn [first_equal list_find]. rewrite Hrow. simpl.
  case_bool_decide as Hc.
  - by rewrite decide_True.
  - rewrite decide_False by done. rewrite IH.
    by destruct (list_find _ names) as [[i m]|].
Qed.

Lemma names_mapM (rows : list value) (names : list str) :
  directory_names rows names →
  mapM (λ loc, getitem loc (lit "local")) rows = Ok (VStr <$> names).
Proof.
  induction 1 as [|row n rows names Hrow _ IH]; [done|].
  cbn [mapM]. rewrite Hrow. simpl. by rewrite IH.
Qed.

Lemma lowered_mapM (names : list str) :
  mapM (lower_method py) (VStr <$> names) = Ok (py_lower py <$> names).
Proof.
  induction names as [|n names IH]; [done|].
  cbn [mapM fmap list_fmap]. simpl. by rewrite IH.
Qed.

Lemma extract_city_eq (text : str) (w w' : world) (data : value)
    (rows : list value) (names : list str) :
  fetch_json net (lit "/distrits-islands.json") w = (Ok data, w') →
  getitem data (lit "data") = Ok (VList rows) →
  directory_names rows names →
  extract_city py net text w = (Ok (lookup_city py text names), w').
Proof.
  intros Hfetch Hdata Hrows. unfold extract_city, lookup_city.
  rewrite (M_bind_ok _ _ _ _ _ Hfetch). unfold lift. f_equal.
  rewrite Hdata. simpl. rewrite (first_contained_names _ _ _ Hrows). simpl.
  destruct (list_find _ names) as [[i n]|]; [done|]. simpl.
  rewrite (names_mapM _ _ Hrows). simpl. rewrite lowered_mapM. simpl.
  destruct (difflib.get_close_matches _ _ _) as [|matched rest]; [done|].
  simpl. rewrite (first_equal_names _ _ _ Hrows). simpl.
  by destruct (list_find _ names) as [[i n]|].
Qed.

(** The three outcomes of [lookup_city]. *)
Lemma lookup_city_spec (text : str) (names : list str) :
  let lo := py_lower py text in
  let r := lookup_city py text names in
  (∀ i n, names !! i = Some n → substring (py_lower py n) lo →
          (∀ j m, (j < i)%nat → names !! j = Some m →
                  ¬ substring (py_lower py m) lo) →
          r = VStr n)
  ∧ ((∀ n, n ∈ names → ¬ substring (py_lower py n) lo) →
     (r = VNone ∨ ∃ c, r = VStr c)
     ∧ (∀ c, r = VStr c →
          c ∈ names
          ∧ (6 # 10 <= difflib.ratio (py_lower py c) lo)%Q
          ∧ ∀ n, n ∈ names →
                 (difflib.ratio (py_lower py n) lo
                  <= difflib.ratio (py_lower py c) lo)%Q)
     ∧ (r = VNone ↔
        ∀ n, n ∈ names → (difflib.ratio (py_lower py n) lo < 6 # 10)%Q)).
Proof.
  intros lo r. subst r. unfold lookup_city. fold lo. split.
  - intros i n Hi Hsub Hfirst.
    assert (list_find (λ n, contains (py_lower py n) lo = true) names
            = Some (i, n)) as ->; [|done].
    apply list_find_Some. split; [done|]. split; [by apply contains_spec|].
    intros j m Hj Hlt Hc. apply contains_spec in Hc. by eapply Hfirst.
  - intros Hnone.
    assert (list_find (λ n, contains (py_lower py n) lo = true) names
            = None) as ->.
    { apply list_find_None, Forall_forall. intros n Hn Hc.
      apply contains_spec in Hc. by eapply Hnone. }
    pose proof (get_close_matches_spec lo (py_lower py <$> names) (6 # 10))
      as Hgcm.
    destruct (difflib.get_close_matches _ _ _) as [|matched rest].
    + split; [by left|]. split; [done|]. split; [|done].
      intros _ n Hn. apply Hgcm. by apply list_elem_of_fmap_2.
    + destruct Hgcm as (_ & Hin & Hcut & Hbest).
      apply list_elem_of_fmap in Hin as (c0 & Hc0 & Hin).
      destruct (list_find (λ n, py_lower py n = matched) names)
        as [[i c]|] eqn:Hfind.
      * apply list_find_Some in Hfind as (Hi & Hc & _).
        split; [right; by exists c|]. split.
        -- intros c' [= <-]. rewrite Hc. split; [by eapply list_elem_of_lookup_2|].
           split; [done|]. intros n Hn. apply Hbest.
           by apply list_elem_of_fmap_2.
        -- split; [done|]. intros Hall. exfalso.
           apply (Qlt_not_le _ _ (Hall c0 Hin)). by rewrite <- Hc0.
      * apply list_find_None in Hfind. rewrite Forall_forall in Hfind.
        by destruct (Hfind c0 Hin).
Qed.


Lemma first_contained_inv (lo : str) (rows : list value) (v : value) :
  first_contained py lo rows = Ok (Some v) →
  ∃ i loc s, rows !! i = Some loc
    ∧ getitem loc (lit "local") = Ok (VStr s) ∧ v = VStr s
    ∧ ∀ j l, (j < i)%nat → rows !! j = Some l →
             ∃ s', getitem l (lit "local") = Ok (VStr s').
Proof.
  induction rows as [|row rows IH]; [done|]. cbn [first_contained].
  intros (name & Hname & H)%result_bind_inv.
  apply result_bind_inv in H as (l & Hl & H).
  destruct name as [| | | |s| |]; try done. injection Hl as <-.
  destruct (contains (py_lower py s) lo).
  - injection H as <-. exists 0%nat, row, s. repeat split; [done..|].
    intros; lia.
  - destruct (IH H) as (i & loc & s0 & Hi & Hloc & -> & Hpre).
    exists (S i), loc, s0. repeat split; [done..|].
    intros [|j] l' Hj Hl'; simpl in Hl'.
    + injection Hl' as <-. by exists s.
    + apply (Hpre j); [lia|done].
Qed.

Lemma first_contained_none (lo : str) (rows : list value) :
  first_contained py lo rows = Ok None →
  ∃ names, directory_names rows names.
Proof.
  induction rows as [|row rows IH]; [intros _; exists []; constructor|].
  cbn [first_contained]. intros (name & Hname & H)%result_bind_inv.
  apply result_bind_inv in H as (l & Hl & H).
  destruct name as [| | | |s| |]; try done. injection Hl as <-.
  destruct (contains _ lo); [done|].
  destruct (IH H) as [names Hnames]. exists (s :: names).
  by apply Forall2_cons.
Qed.

(** Whatever the directory holds, a city [extract_city] returns is the
    [local] field of one of its entries, and every entry before that
    one has a string for a name. *)
Lemma extract_city_inv (text : str) (w w' : world) (v : value) :
  extract_city py net text w = (Ok v, w') →
  ∃ data rows,
    fetch_json net (lit "/distrits-islands.json") w = (Ok data, w')
    ∧ getitem data (lit "data") ≫= py_iter = Ok rows
    ∧ (v = VNone
       ∨ ∃ i loc s, rows !! i = Some loc
           ∧ getitem loc (lit "local") = Ok (VStr s) ∧ v = VStr s
           ∧ ∀ j l, (j < i)%nat → rows !! j = Some l →
                    ∃ s', getitem l (lit "local") = Ok (VStr s')).
Proof.
  unfold extract_city. intros (data & w1 & Hfetch & H)%M_bind_inv.
  unfold lift in H. injection H as H <-. exists data.
  apply result_bind_inv in H as (rows & Hrows & H). exists rows.
  split; [done|]. split; [done|].
  apply result_bind_inv in H as (hit & Hhit & H).
  destruct hit as [v0|].
  { injection H as <-. right. by apply first_contained_inv in Hhit. }
  rewrite Hrows in H.
  destruct (first_contained_none _ _ Hhit) as [names Hnames].
  simpl in H. rewrite (names_mapM _ _ Hnames) in H. simpl in H.
  rewrite lowered_mapM in H. simpl in H.
  destruct (difflib.get_close_matches _ _ _) as [|matched rest];
    [injection H as <-; by left|].
  simpl in H. rewrite (first_equal_names _ _ _ Hnames) in H. simpl in H.
  destruct (list_find _ names) as [[i n]|] eqn:Hfind;
    [|injection H as <-; by left].
  injection H as <-. right.
  apply list_find_Some in Hfind as (Hi & _ & _).
  destruct (Forall2_lookup_r _ _ _ _ _ Hnames Hi) as (loc & Hloc & Hlocal).
  exists i, loc, n. repeat split; [done..|].
  intros j l _ Hl.
  destruct (Forall2_lookup_l _ _ _ _ _ Hnames Hl) as (s' & _ & Hs').
  by exists s'.
Qed.

(** C2.  Location lookup on a directory that was fetched and lists
    entries named [names]: [extract_city] returns the first entry, in
    listing order, whose lowercased name occurs in the lowercased
    text; when no name occurs, it returns the entry whose lowercased
    name has the highest [difflib] ratio to the whole lowercased text,
    provided that ratio is at least 0.6, and [None] exactly when every
    ratio is below 0.6. *)
Theorem extract_city_lookup (text : str) (w w' : world) (data : value)
    (rows : list value) (names : list str) :
  fetch_json net (lit "/distrits-islands.json") w = (Ok data, w') →
  getitem data (lit "data") = Ok (VList rows) →
  directory_names rows names →
  let lo := py_lower py text in
  ∃ r, extract_city py net text w = (Ok r, w')
    ∧ (∀ i n, names !! i = Some n → substring (py_lower py n) lo →
              (∀ j m, (j < i)%nat → names !! j = Some m →
                      ¬ substring (py_lower py m) lo) →
              r = VStr n)
    ∧ ((∀ n, n ∈ names → ¬ substring (py_lower py n) lo) →
       (r = VNone ∨ ∃ c, r = VStr c)
       ∧ (∀ c, r = VStr c →
            c ∈ names
            ∧ (6 # 10 <= difflib.ratio (py_lower py c) lo)%Q
            ∧ ∀ n, n ∈ names →
                   (difflib.ratio (py_lower py n) lo
                    <= difflib.ratio (py_lower py c) lo)%Q)
       ∧ (r = VNone ↔
          ∀ n, n ∈ names →
               (difflib.ratio (py_lower py n) lo < 6 # 10)%Q)).
Proof.
  intros Hfetch Hdata Hrows lo. exists (lookup_city py text names).
  split; [by eapply extract_city_eq|]. apply lookup_city_spec.
Qed.

(** C8.  [extract_city] returns [None] or a string equal to the [local]
    field of an entry of the directory it fetched. *)
Theorem extract_city_canonical (text : str) (w w' : world) (v : value) :
  extract_city py net text w = (Ok v, w') →
  v = VNone
  ∨ ∃ data rows loc s,
      fetch_json net (lit "/distrits-islands.json") w = (Ok data, w')
      ∧ getitem data (lit "data") ≫= py_iter = Ok rows
      ∧ loc ∈ rows
      ∧ getitem loc (lit "local") = Ok (VStr s)
      ∧ v = VStr s.
Proof.
  intros (data & rows & Hfetch & Hrows & [->|H])%extract_city_inv;
    [by left|].
  destruct H as (i & loc & s & Hi & Hloc & -> & _). right.
  exists data, rows, loc, s. repeat split; try done.
  by eapply list_elem_of_lookup_2.
Qed.

(** C1.  The flags the intent extractor sets: the chart flag is true
    iff the lowercased text contains "gráfico" or "grafico", the
    forecast flag iff it contains "tempo" or "previsão", the map flag
    iff it contains "mapa", the all-locations flag iff it contains one
    of "todas as cidades", "todas localidades", "all cities"; with none
    of these keywords in the text all four are false. *)
Theorem intent_flags (text : str) (w w' : world) (flags : gmap str value) :
  parse_user_input py net text w = (Ok flags, w') →
  let lo := py_lower py text in
  ∃ chart forecast map all : bool,
    flags !! lit "incluir_grafico" = Some (VBool chart)
    ∧ flags !! lit "intencao_previsao" = Some (VBool forecast)
    ∧ flags !! lit "mostrar_mapa" = Some (VBool map)
    ∧ flags !! lit "todas_localidades" = Some (VBool all)
    ∧ (chart = true ↔
       substring (lit "gráfico") lo ∨ substring (lit "grafico") lo)
    ∧ (forecast = true ↔
       substring (lit "tempo") lo ∨ substring (lit "previsão") lo)
    ∧ (map = true ↔ substring (lit "mapa") lo)
    ∧ (all = true ↔
       substring (lit "todas as cidades") lo
       ∨ substring (lit "todas localidades") lo
       ∨ substring (lit "all cities") lo)
    ∧ ((∀ kw, kw ∈ [lit "gráfico"; lit "grafico"; lit "tempo";
                     lit "previsão"; lit "mapa"; lit "todas as cidades";
                     lit "todas localidades"; lit "all cities"] →
              ¬ substring kw lo) →
       chart = false ∧ forecast = false ∧ map = false ∧ all = false).
Proof.
  intros H lo. rewrite parse_user_input_eq in H.
  destruct (extract_city py net text w) as [[city|e] w1]; [|done].
  injection H as <- <-. fold lo.
  eexists _, _, _, _.
  split; [by flag_lookup|]. split; [by flag_lookup|].
  split; [by flag_lookup|]. split; [by flag_lookup|].
  cbn [existsb].
  rewrite !orb_false_r, !orb_true_iff, !contains_spec.
  split; [done|]. split; [done|]. split; [done|]. split; [tauto|].
  intros Hnone.
  assert (∀ kw, kw ∈ [lit "gráfico"; lit "grafico"; lit "tempo";
                       lit "previsão"; lit "mapa"; lit "todas as cidades";
                       lit "todas localidades"; lit "all cities"] →
                contains kw lo = false) as Hc.
  { intros kw Hkw. apply contains_false. by apply Hnone. }
  rewrite !Hc; [done|set_solver..].
Qed.

(** C5.  An empty or whitespace-only message gets the fixed apology,
    with no chart, no map and no plot list, and the world is left as it
    was: no request is sent. *)
Theorem empty_message_no_fetch (form : gmap str str) (w : world) :
  forallb isspace (default [] (form !! lit "mensagem")) = true →
  chat_htmx py net form w
  = (Ok {| user_message := [];
           resposta :=
             lit "Desculpa, não recebi nenhuma mensagem. Podes tentar novamente?";
           grafico_html := None; map_html := None; plot_list := None |},
     w).
Proof.
  intros H. unfold chat_htmx. rewrite (strip_spaces _ H).
  by rewrite bool_decide_eq_true_2.
Qed.

(** *** The handler's own lookup *)


Lemma fetch_json_sent (path : str) (w w' : world) (r : result value) :
  fetch_json net path w = (r, w') →
  w' = {| sent := sent w ++ [Get (BASE_URL ++ path)]; drawn := drawn w |}.
Proof.
  unfold fetch_json, send. intros H.
  destruct (net _ _) as [|status [| | |j]]; [|destruct (_ <=? _)%N..];
    by injection H.
Qed.



(** C4, as the code has it.  A non-empty message without an
    all-cities keyword, whose lowercased text contains no directory
    name and is below 0.6 similarity to every one of them: the city
    flag is [None] and the handler answers with the fixed request to
    rephrase, which names no city, after the one directory request of
    [extract_city]. *)
Theorem unknown_city_unresolved (form : gmap str str) (w w' : world)
    (text : str) (data : value) (rows : list value) (names : list str) :
  strip (default [] (form !! lit "mensagem")) = text →
  text ≠ [] →
  fetch_json net (lit "/distrits-islands.json") w = (Ok data, w') →
  getitem data (lit "data") = Ok (VList rows) →
  directory_names rows names →
  (∀ n, n ∈ names →
        ¬ substring (py_lower py n) (py_lower py text)
        ∧ (difflib.ratio (py_lower py n) (py_lower py text) < 6 # 10)%Q) →
  (∀ kw, kw ∈ all_cities_keywords → ¬ substring kw (py_lower py text)) →
  extract_city py net text w = (Ok VNone, w')
  ∧ chat_htmx py net form w
    = (Ok {| user_message := text;
             resposta :=
               lit "Desculpa, não consegui processar o teu pedido. Podes reformular indicando cidade e o que pretendes?";
             grafico_html := None; map_html := None; plot_list := None |},
       w')
  ∧ sent w' = sent w ++ [Get directory_url].
Proof.
  intros Htext Hne Hfetch Hdata Hrows Hfar Hkw.
  pose proof (extract_city_eq text w w' data rows names Hfetch Hdata Hrows)
    as Hcity.
  destruct (lookup_city_spec text names) as [_ Hfuzzy].
  destruct Hfuzzy as (_ & _ & Hnone); [intros n Hn; by apply Hfar|].
  assert (lookup_city py text names = VNone) as Hnone'.
  { apply Hnone. intros n Hn. by apply Hfar. }
  rewrite Hnone' in Hcity. split; [done|]. split.
  - unfold chat_htmx. rewrite Htext, bool_decide_eq_false_2 by done.
    unfold mbind at 1, M_bind at 1.
    rewrite parse_user_input_eq, Hcity.
    assert (existsb (λ kw, contains kw (py_lower py text))
              [lit "todas as cidades"; lit "todas localidades";
               lit "all cities"] = false) as Hall.
    { cbn [existsb]. rewrite !orb_false_r.
      rewrite !(proj2 (contains_false _ _)); [done|apply Hkw..];
        unfold all_cities_keywords; set_solver. }
    rewrite Hall.
    assert (∀ m : gmap str value,
              truthy (flag_get (<[lit "todas_localidades" := VBool false]> m)
                        (lit "todas_localidades")) = false) as ->
      by (intros; by flag_lookup).
    match goal with
    | |- context [truthy (flag_get ?m (lit "cidade"))] =>
        assert (flag_get m (lit "cidade") = VNone) as ->
          by (by flag_lookup)
    end.
    change (negb (truthy VNone)) with true. cbn [orb]. reflexivity.
  - rewrite (fetch_json_sent _ _ _ _ Hfetch). unfold directory_url.
    reflexivity.
Qed.


(** *** The forecast normalizer *)

Lemma day_summary_fields (date tmin tmax wind desc pdesc prob emoji : value) :
  let d := day_summary date tmin tmax wind desc pdesc prob emoji in
  getitem d (lit "data") = Ok date
  ∧ getitem d (lit "temperatura_min") = Ok tmin
  ∧ getitem d (lit "temperatura_max") = Ok tmax
  ∧ getitem d (lit "vento") = Ok wind
  ∧ getitem d (lit "tipo_tempo") = Ok desc
  ∧ getitem d (lit "precipitacao") = Ok pdesc
  ∧ getitem d (lit "prob_precipitacao") = Ok prob
  ∧ getitem d (lit "emoji") = Ok emoji
  ∧ truthy d = true.
Proof. vm_compute. by repeat split. Qed.

(** A summary [format_day] returns is built from the day's own fields,
    the two descriptions and the probability with its two fallbacks. *)
Lemma format_day_inv (day types precs summary : value) :
  format_day py day types precs = Ok summary →
  ∃ d date tmin tmax wind desc pdesc emoji,
    day = VDict d
    ∧ py_iter types ≫= find_weather day = Ok desc
    ∧ match default VNone (assoc (lit "classPrecInt") d) with
      | VNone => Ok (VStr (lit "Sem dados"))
      | _ => py_iter precs
             ≫= find_precipitation py
                  (default VNone (assoc (lit "classPrecInt") d))
      end = Ok pdesc
    ∧ summary = day_summary date tmin tmax wind desc pdesc
                  (default (default (VStr (lit "0"))
                              (assoc (lit "precipitaProb") d))
                     (assoc (lit "precitaProb") d))
                  emoji.
Proof.
  unfold format_day. intros (desc & Hdesc & H)%result_bind_inv.
  apply result_bind_inv in H as (cpi & Hcpi & H).
  destruct day as [| | | | | |d]; try done. injection Hcpi as <-.
  apply result_bind_inv in H as (pdesc & Hpdesc & H).
  apply result_bind_inv in H as (date & _ & H).
  apply result_bind_inv in H as (tmin & _ & H).
  apply result_bind_inv in H as (tmax & _ & H).
  apply result_bind_inv in H as (wind & _ & H).
  apply result_bind_inv in H as (fallback & [= <-] & H).
  apply result_bind_inv in H as (prob & [= <-] & H).
  apply result_bind_inv in H as (emoji & _ & [= <-]).
  exists d, date, tmin, tmax, wind, desc, pdesc, emoji.
  split; [done|]. split; [exact Hdesc|]. split; [exact Hpdesc|].
  reflexivity.
Qed.

Lemma find_weather_total (day : value) (did : value) (ts : list value) :
  getitem day (lit "idWeatherType") = Ok did →
  Forall weather_entry ts →
  ∃ desc, find_weather day ts = Ok (VStr desc)
    ∧ ((∀ w id, w ∈ ts → getitem w (lit "idWeatherType") = Ok id →
                py_eq id did = false) →
       desc = lit "Desconhecido").
Proof.
  intros Hday. induction 1 as [|w ts (id & desc & Hid & Hdesc) _ IH];
    cbn [find_weather].
  { by exists (lit "Desconhecido"). }
  rewrite Hid, Hday. simpl. destruct (py_eq id did) eqn:Heq.
  - exists desc. split; [done|]. intros Hno.
    rewrite (Hno w id) in Heq; [done|by left|done].
  - destruct IH as (desc' & Hfind & Hno). exists desc'. split; [done|].
    intros Hno'. apply Hno. intros w' id' Hw'. apply Hno'. by right.
Qed.

Lemma find_precipitation_total (cpi : value) (ps : list value) :
  Forall precipitation_entry ps →
  ∃ pdesc, find_precipitation py cpi ps = Ok pdesc
    ∧ ((∀ p c, p ∈ ps → getitem p (lit "classPrecInt") = Ok c →
               py_str py c ≠ py_str py cpi) →
       pdesc = VStr (lit "Sem dados")).
Proof.
  induction 1 as [|p ps (c & desc & Hc & Hdesc) _ IH];
    cbn [find_precipitation].
  { by exists (VStr (lit "Sem dados")). }
  rewrite Hc. simpl. case_bool_decide as Heq.
  - exists desc. split; [done|]. intros Hno.
    destruct (Hno p c); [by left|done..].
  - destruct IH as (pdesc & Hfind & Hno). exists pdesc. split; [done|].
    intros Hno'. apply Hno. intros p' c' Hp'. apply Hno'. by right.
Qed.

(** C3, as the code has it.  On a day record that carries its date,
    temperatures, wind and weather-type code, and on well-formed
    tables, [format_day] does not fail; a weather-type code that no
    table entry equals gives the description "Desconhecido"; a
    precipitation class that is absent (or null), or that no table
    entry matches, gives the description "Sem dados". *)
Theorem format_day_placeholders (day types precs did : value)
    (d : list (str * value)) (ts ps : list value) :
  day = VDict d →
  (∀ k, k ∈ [lit "forecastDate"; lit "tMin"; lit "tMax"; lit "predWindDir"] →
        is_Some (assoc k d)) →
  assoc (lit "idWeatherType") d = Some did →
  types = VList ts → Forall weather_entry ts →
  precs = VList ps → Forall precipitation_entry ps →
  ∃ summary,
    format_day py day types precs = Ok summary
    ∧ ((∀ w id, w ∈ ts → getitem w (lit "idWeatherType") = Ok id →
                py_eq id did = false) →
       getitem summary (lit "tipo_tempo") = Ok (VStr (lit "Desconhecido")))
    ∧ (let cpi := default VNone (assoc (lit "classPrecInt") d) in
       cpi = VNone
       ∨ (∀ p c, p ∈ ps → getitem p (lit "classPrecInt") = Ok c →
                 py_str py c ≠ py_str py cpi) →
       getitem summary (lit "precipitacao") = Ok (VStr (lit "Sem dados"))).
Proof.
  intros -> Hkeys Hdid -> Hts -> Hps.
  assert (getitem (VDict d) (lit "idWeatherType") = Ok did) as Hday.
  { simpl. by rewrite Hdid. }
  destruct (find_weather_total _ _ _ Hday Hts) as (desc & Hdesc & Hno).
  set (cpi := default VNone (assoc (lit "classPrecInt") d)).
  destruct (find_precipitation_total cpi ps Hps) as (pdesc0 & Hpdesc & Hnop).
  set (pdesc := match cpi with
                | VNone => VStr (lit "Sem dados")
                | _ => pdesc0
                end).
  assert (∃ date tmin tmax wind,
    getitem (VDict d) (lit "forecastDate") = Ok date
    ∧ getitem (VDict d) (lit "tMin") = Ok tmin
    ∧ getitem (VDict d) (lit "tMax") = Ok tmax
    ∧ getitem (VDict d) (lit "predWindDir") = Ok wind)
    as (date & tmin & tmax & wind & H1 & H2 & H3 & H4).
  { destruct (Hkeys (lit "forecastDate")) as [date H1]; [set_solver|].
    destruct (Hkeys (lit "tMin")) as [tmin H2]; [set_solver|].
    destruct (Hkeys (lit "tMax")) as [tmax H3]; [set_solver|].
    destruct (Hkeys (lit "predWindDir")) as [wind H4]; [set_solver|].
    exists date, tmin, tmax, wind. simpl. by rewrite H1, H2, H3, H4. }
  destruct (emoji_of (VStr desc)) as [emoji|e] eqn:Hemoji; [|done].
  set (prob := default (default (VStr (lit "0"))
                          (assoc (lit "precipitaProb") d))
                 (assoc (lit "precitaProb") d)).
  assert (format_day py (VDict d) (VList ts) (VList ps)
          = Ok (day_summary date tmin tmax wind (VStr desc) pdesc prob emoji))
    as Hfmt.
  { unfold format_day. cbn [py_iter mbind result_bind].
    rewrite Hdesc. cbn [dict_get mbind result_bind]. fold cpi.
    assert (match cpi with
            | VNone => Ok (VStr (lit "Sem dados"))
            | _ => find_precipitation py cpi ps
            end = Ok pdesc) as ->.
    { subst pdesc. by destruct cpi. }
    rewrite H1, H2, H3, H4. cbn [mbind result_bind].
    rewrite Hemoji. done. }
  eexists. split; [exact Hfmt|].
  destruct (day_summary_fields date tmin tmax wind (VStr desc) pdesc prob
              emoji) as (_ & _ & _ & _ & Htipo & Hprec & _).
  split.
  - intros Hnone. rewrite Htipo. by rewrite (Hno Hnone).
  - intros cpi0 Hcpi. subst cpi0. rewrite Hprec. f_equal. subst pdesc.
    destruct Hcpi as [->|Hcpi]; [done|]. rewrite (Hnop Hcpi).
    by destruct cpi.
Qed.

(** C10.  The precipitation probability of the summary is the day's
    "precitaProb" field when the day has one, otherwise its
    "precipitaProb" field, otherwise the string "0". *)
Theorem format_day_probability (day types precs summary : value) :
  format_day py day types precs = Ok summary →
  ∃ d, day = VDict d
    ∧ getitem summary (lit "prob_precipitacao")
      = Ok (match assoc (lit "precitaProb") d with
            | Some v => v
            | None =>
                match assoc (lit "precipitaProb") d with
                | Some v => v
                | None => VStr (lit "0")
                end
            end).
Proof.
  intros (d & date & tmin & tmax & wind & desc & pdesc & emoji & -> & _ & _
          & ->)%format_day_inv.
  exists d. split; [done|].
  destruct (day_summary_fields date tmin tmax wind desc pdesc
              (default (default (VStr (lit "0"))
                          (assoc (lit "precipitaProb") d))
                 (assoc (lit "precitaProb") d)) emoji)
    as (_ & _ & _ & _ & _ & _ & -> & _).
  by destruct (assoc (lit "precitaProb") d),
              (assoc (lit "precipitaProb") d).
Qed.

(** *** The multi-location map *)

Lemma pydict_find_Some (k v : value) (d : list (value * value)) :
  pydict_find k d = Some v → ∃ k', (k', v) ∈ d.
Proof.
  induction d as [|[k' v'] d IH]; simpl; [done|].
  destruct (py_eq k' k).
  - intros [= ->]. exists k'. by left.
  - intros [k'' H]%IH. exists k''. by right.
Qed.

Lemma popup_of_total (forecasts : list (value * value)) (loc gid : value)
    (name : str) :
  summaries py forecasts →
  getitem loc (lit "local") = Ok (VStr name) →
  ∃ popup,
    popup_of py loc (default (VDict []) (pydict_find gid forecasts))
    = Ok popup
    ∧ (pydict_find gid forecasts = None → popup = VStr name).
Proof.
  intros Hsum Hname. unfold popup_of. rewrite Hname. simpl.
  destruct (pydict_find gid forecasts) as [f|] eqn:Hfind; simpl.
  - apply pydict_find_Some in Hfind as [k Hin].
    destruct (Hsum k f Hin) as (day & types & precs & Hfmt).
    apply format_day_inv in Hfmt
      as (d & date & tmin & tmax & wind & desc & pdesc & emoji & _ & _ & _
          & ->).
    destruct (day_summary_fields date tmin tmax wind desc pdesc
                (default (default (VStr (lit "0"))
                            (assoc (lit "precipitaProb") d))
                   (assoc (lit "precitaProb") d)) emoji)
      as (_ & H1 & H2 & _ & H3 & _ & _ & H4 & Ht).
    rewrite Ht, H4, H3, H1, H2. simpl. eexists. split; [done|done].
  - by exists (VStr name).
Qed.

Lemma add_markers_total (forecasts : list (value * value))
    (locs : list value) (html : str) :
  Forall (location_entry py) locs → summaries py forecasts →
  ∃ markers,
    add_markers py forecasts locs html = Ok (html ++ concat markers)
    ∧ length markers = length locs
    ∧ ∀ i loc, locs !! i = Some loc →
        ∃ lat lon popup,
          markers !! i = Some (marker_js py lat lon popup)
          ∧ getitem loc (lit "latitude") ≫= py_float py = Ok lat
          ∧ getitem loc (lit "longitude") ≫= py_float py = Ok lon
          ∧ ∀ gid, getitem loc (lit "globalIdLocal") = Ok gid →
                   pydict_find gid forecasts = None →
                   getitem loc (lit "local") = Ok popup.
Proof.
  intros Hlocs Hsum. revert html.
  induction Hlocs as [|loc locs (gid & name & lat & lon & Hgid & Hhash
                                   & Hname & Hlat & Hlon) _ IH];
    intros html.
  { exists []. simpl. rewrite app_nil_r. by repeat split. }
  destruct (popup_of_total forecasts loc gid name Hsum Hname)
    as (popup & Hpopup & Hbare).
  destruct (IH (html ++ marker_js py lat lon popup))
    as (markers & Hrest & Hlen & Hnth).
  exists (marker_js py lat lon popup :: markers).
  split; [|split].
  - cbn [add_markers]. rewrite Hgid. cbn [mbind result_bind].
    rewrite Hlat. cbn [mbind result_bind]. rewrite Hlon.
    cbn [mbind result_bind]. unfold pydict_get. rewrite Hhash.
    cbn [mbind result_bind]. rewrite Hpopup. cbn [mbind result_bind].
    rewrite Hrest. cbn [concat]. by rewrite app_assoc.
  - simpl. by rewrite Hlen.
  - intros [|i] loc' Hi; simpl in Hi.
    + injection Hi as <-. exists lat, lon, popup.
      repeat split; [done..|]. intros gid' Hgid' Hnone.
      rewrite Hgid in Hgid'. injection Hgid' as <-.
      by rewrite (Hbare Hnone).
    + by apply Hnth.
Qed.

(** C6.  For a list of directory entries and a dictionary, possibly
    partial, from ids to summaries, the multi-location map fragment
    is its fixed head, one marker line per entry of the list, in
    order, and its fixed tail, all three written out here: a marker
    line is the [L.marker] call at the entry's coordinates with the
    popup bound to it; the marker of an entry whose id is not in the
    dictionary has the entry's name alone as popup. *)
Theorem map_all_markers (locs : list value)
    (forecasts : list (value * value)) (w : world) :
  Forall (location_entry py) locs → summaries py forecasts →
  ∃ markers,
    generate_map_all py (VList locs) forecasts w
    = (Ok ((nl ++
            lit "<div id=" ++ dq ++ (lit "map-" ++ uuid4_hex py (drawn w))
              ++ dq ++ lit " style=" ++ dq ++ lit "height:500px;" ++ dq
              ++ lit "></div>" ++ nl ++
            lit "<script>" ++ nl ++
            lit "  (function() {" ++ nl ++
            lit "    var map = L.map('"
              ++ (lit "map-" ++ uuid4_hex py (drawn w))
              ++ lit "').setView([39.5, -8.0], 7);" ++ nl ++
            (lit "    L.tileLayer('https://{s}.tile.openstreetmap.org/{z}/{x}/{y}.png', {"
             ++ nl ++
             lit "      attribution: '© OpenStreetMap contributors'" ++ nl ++
             lit "    }).addTo(map);" ++ nl))
           ++ concat markers ++ lit "  })();</script>"),
       {| sent := sent w; drawn := S (drawn w) |})
    ∧ length markers = length locs
    ∧ ∀ i loc, locs !! i = Some loc →
        ∃ lat lon popup,
          markers !! i
          = Some (lit "    L.marker([" ++ py_repr py (VFloat lat) ++ lit ", "
                  ++ py_repr py (VFloat lon)
                  ++ lit "]).addTo(map).bindPopup("
                  ++ py_repr py popup ++ lit ");" ++ nl)
          ∧ getitem loc (lit "latitude") ≫= py_float py = Ok lat
          ∧ getitem loc (lit "longitude") ≫= py_float py = Ok lon
          ∧ ∀ gid, getitem loc (lit "globalIdLocal") = Ok gid →
                   pydict_find gid forecasts = None →
                   getitem loc (lit "local") = Ok popup.
Proof.
  intros Hlocs Hsum.
  destruct (add_markers_total forecasts locs
              (map_all_head (lit "map-" ++ uuid4_hex py (drawn w)))
              Hlocs Hsum) as (markers & Hadd & Hlen & Hnth).
  exists markers. split; [|split; [exact Hlen|exact Hnth]].
  unfold generate_map_all, fresh_map_id, mbind, M_bind, lift.
  cbn [py_iter result_bind]. rewrite Hadd. cbn [result_bind].
  rewrite <- app_assoc. reflexivity.
Qed.

(** *** The data aggregator *)

(** C7.  [gather_data] fails as soon as one of its four providers
    fails, with that provider's exception and no result mapping; a
    provider fails when its request gets no reply or an error status;
    when the four providers succeed the result holds the four
    datasets. *)
Theorem gather_data_fail_fast (parsed : gmap str value) (w : world) :
  (∀ e w1,
     provider_locations net parsed w = (Err e, w1) →
     gather_data py net parsed w = (Err e, w1))
  ∧ (∀ d1 w1 e w2,
       provider_locations net parsed w = (Ok d1, w1) →
       provider_forecast py net parsed w1 = (Err e, w2) →
       gather_data py net parsed w = (Err e, w2))
  ∧ (∀ d1 w1 d2 w2 e w3,
       provider_locations net parsed w = (Ok d1, w1) →
       provider_forecast py net parsed w1 = (Ok d2, w2) →
       provider_weather_types net parsed w2 = (Err e, w3) →
       gather_data py net parsed w = (Err e, w3))
  ∧ (∀ d1 w1 d2 w2 d3 w3 e w4,
       provider_locations net parsed w = (Ok d1, w1) →
       provider_forecast py net parsed w1 = (Ok d2, w2) →
       provider_weather_types net parsed w2 = (Ok d3, w3) →
       provider_precipitation net parsed w3 = (Err e, w4) →
       gather_data py net parsed w = (Err e, w4))
  ∧ (∀ d1 w1 d2 w2 d3 w3 d4 w4,
       provider_locations net parsed w = (Ok d1, w1) →
       provider_forecast py net parsed w1 = (Ok d2, w2) →
       provider_weather_types net parsed w2 = (Ok d3, w3) →
       provider_precipitation net parsed w3 = (Ok d4, w4) →
       ∃ out, gather_data py net parsed w = (Ok out, w4)
         ∧ out !! lit "locations" = Some d1
         ∧ out !! lit "forecast" = Some d2
         ∧ out !! lit "weather_types" = Some d3
         ∧ out !! lit "precipitation" = Some d4)
  ∧ (∀ path w0,
       net (sent w0) (Get (BASE_URL ++ path)) = NoReply
       ∨ (∃ status body,
            net (sent w0) (Get (BASE_URL ++ path)) = Reply status body
            ∧ (400 ≤ status)%N) →
       ∃ e w1, fetch_json net path w0 = (Err e, w1)).
Proof.
  unfold gather_data, DATA_PROVIDERS. cbn [run_providers].
  repeat split.
  - intros e w1 H1. by rewrite (M_bind_err _ _ _ _ _ H1).
  - intros d1 w1 e w2 H1 H2.
    rewrite (M_bind_ok _ _ _ _ _ H1). by rewrite (M_bind_err _ _ _ _ _ H2).
  - intros d1 w1 d2 w2 e w3 H1 H2 H3.
    rewrite (M_bind_ok _ _ _ _ _ H1), (M_bind_ok _ _ _ _ _ H2).
    by rewrite (M_bind_err _ _ _ _ _ H3).
  - intros d1 w1 d2 w2 d3 w3 e w4 H1 H2 H3 H4.
    rewrite (M_bind_ok _ _ _ _ _ H1), (M_bind_ok _ _ _ _ _ H2).
    rewrite (M_bind_ok _ _ _ _ _ H3). by rewrite (M_bind_err _ _ _ _ _ H4).
  - intros d1 w1 d2 w2 d3 w3 d4 w4 H1 H2 H3 H4.
    rewrite (M_bind_ok _ _ _ _ _ H1), (M_bind_ok _ _ _ _ _ H2).
    rewrite (M_bind_ok _ _ _ _ _ H3), (M_bind_ok _ _ _ _ _ H4).
    eexists. split; [reflexivity|]. by flag_lookup.
  - intros path w0 H. unfold fetch_json, send.
    destruct H as [->|(status & body & -> & Hst)]; [by eexists _, _|].
    apply N.leb_le in Hst. rewrite Hst. by eexists _, _.
Qed.
End properties.


(** ** The properties on examples *)

(** The examples of [difflib]'s own documentation. *)
Example matching_blocks_abxcd :
  difflib.get_matching_blocks (lit "abxcd") (lit "abcd")
  = [(0, 0, 2); (3, 2, 2); (5, 4, 0)]%nat.
Proof. by vm_compute. Qed.

Example ratios_abcd :
  difflib.ratio (lit "abcd") (lit "bcde") = 6 # 8
  ∧ difflib.quick_ratio (lit "abcd") (lit "bcde") = 6 # 8
  ∧ difflib.real_quick_ratio (lit "abcd") (lit "bcde") = 8 # 8.
Proof. by vm_compute. Qed.

Example close_matches_appel :
  difflib.get_close_matches (lit "appel")
    [lit "ape"; lit "apple"; lit "peach"; lit "puppy"] (6 # 10)
  = [lit "apple"].
Proof. by vm_compute. Qed.

(** A misspelt name alone is matched; inside a sentence it is not, the
    whole sentence being compared with each name. *)
Example extract_city_fuzzy :
  (extract_city reference.py reference.net (lit "Lisbo") reference.start).1
  = Ok (VStr (lit "Lisboa"))
  ∧ (extract_city reference.py reference.net (lit "Qual o tempo em Lisbo?")
       reference.start).1
    = Ok VNone.
Proof. by vm_compute. Qed.

Lemma reference_directory :
  fetch_json reference.net (lit "/distrits-islands.json") reference.start
  = (Ok reference.directory, reference.after_directory)
  ∧ getitem reference.directory (lit "data") = Ok (VList reference.rows)
  ∧ directory_names reference.rows reference.names.
Proof.
  split; [by vm_compute|]. split; [by vm_compute|].
  repeat constructor.
Qed.

(** Scenario A: "Qual é o tempo no Porto?" resolves to "Porto". *)
Lemma extract_city_lookup_witness :
  extract_city reference.py reference.net (lit "Qual é o tempo no Porto?")
    reference.start
  = (Ok (VStr (lit "Porto")), reference.after_directory).
Proof.
  destruct reference_directory as (Hfetch & Hdata & Hnames).
  destruct (extract_city_lookup reference.py reference.net
              (lit "Qual é o tempo no Porto?") _ _ _ _ _ Hfetch Hdata Hnames)
    as (r & -> & Hfirst & _).
  do 2 f_equal. apply (Hfirst 2%nat (lit "Porto")).
  - done.
  - apply contains_spec. by vm_compute.
  - intros j m Hj Hm. apply contains_false.
    destruct j as [|[|j]]; [| |lia]; injection Hm as <-; by vm_compute.
Defined.

(** Scenario B: the chart, map and forecast flags of one message. *)
Lemma intent_flags_witness :
  ∃ flags w',
    parse_user_input reference.py reference.net
      (lit "mostra-me o gráfico e o mapa do tempo em Lisboa") reference.start
    = (Ok flags, w')
    ∧ flags !! lit "incluir_grafico" = Some (VBool true)
    ∧ flags !! lit "intencao_previsao" = Some (VBool true)
    ∧ flags !! lit "mostrar_mapa" = Some (VBool true)
    ∧ flags !! lit "todas_localidades" = Some (VBool false).
Proof.
  pose proof (parse_user_input_eq reference.py reference.net
                (lit "mostra-me o gráfico e o mapa do tempo em Lisboa")
                reference.start) as Hparse.
  assert (extract_city reference.py reference.net
            (lit "mostra-me o gráfico e o mapa do tempo em Lisboa")
            reference.start
          = (Ok (VStr (lit "Lisboa")), reference.after_directory)) as Hcity
    by (vm_compute; reflexivity).
  rewrite Hcity in Hparse. eexists _, _. split; [exact Hparse|].
  destruct (intent_flags reference.py reference.net _ _ _ _ Hparse)
    as (chart & forecast & map & all & -> & -> & -> & -> & Hc & Hf & Hm & Ha
        & _).
  assert (chart = true) as ->.
  { apply Hc. left. apply contains_spec. by vm_compute. }
  assert (forecast = true) as ->.
  { apply Hf. left. apply contains_spec. by vm_compute. }
  assert (map = true) as ->.
  { apply Hm. apply contains_spec. by vm_compute. }
  assert (all = false) as ->; [|done].
  destruct all; [|done]. exfalso.
  destruct (proj1 Ha eq_refl) as [H|[H|H]];
    apply contains_spec in H; by vm_compute in H.
Defined.

(** C4 fails as stated: for "previsão para Xyzzyville", which contains
    no directory name and is below 0.6 similarity to each of them, the
    handler's answer does not mention "Xyzzyville". *)
Lemma unknown_city_counterexample :
  ∃ r w',
    chat_htmx reference.py reference.net
      {[ lit "mensagem" := lit "previsão para Xyzzyville" ]} reference.start
    = (Ok r, w')
    ∧ forallb (λ n, negb (contains (reference.lower n)
                            (reference.lower (lit "previsão para Xyzzyville")))
                    && negb (Qle_bool (6 # 10)
                               (difflib.ratio (reference.lower n)
                                  (reference.lower
                                     (lit "previsão para Xyzzyville")))))
        reference.names = true
    ∧ contains (lit "Xyzzyville") (resposta r) = false
    ∧ contains (lit "xyzzyville") (reference.lower (resposta r)) = false.
Proof.
  eexists _, _. split; [vm_compute; reflexivity|]. by vm_compute.
Qed.

Lemma unknown_city_unresolved_witness :
  extract_city reference.py reference.net (lit "previsão para Xyzzyville")
    reference.start
  = (Ok VNone, reference.after_directory)
  ∧ chat_htmx reference.py reference.net
      {[ lit "mensagem" := lit "  previsão para Xyzzyville " ]}
      reference.start
    = (Ok {| user_message := lit "previsão para Xyzzyville";
             resposta :=
               lit "Desculpa, não consegui processar o teu pedido. Podes reformular indicando cidade e o que pretendes?";
             grafico_html := None; map_html := None; plot_list := None |},
       reference.after_directory)
  ∧ sent reference.after_directory
    = sent reference.start ++ [Get directory_url].
Proof.
  destruct reference_directory as (Hfetch & Hdata & Hnames).
  assert (strip (default [] (({[ lit "mensagem" :=
                                  lit "  previsão para Xyzzyville " ]}
                              : gmap str str) !! lit "mensagem"))
          = lit "previsão para Xyzzyville") as Htext
    by (vm_compute; reflexivity).
  apply (unknown_city_unresolved reference.py reference.net
           {[ lit "mensagem" := lit "  previsão para Xyzzyville " ]}
           reference.start reference.after_directory
           (lit "previsão para Xyzzyville") reference.directory
           reference.rows reference.names Htext).
  - vm_compute. discriminate.
  - exact Hfetch.
  - exact Hdata.
  - exact Hnames.
  - intros n Hn. unfold reference.names in Hn.
    repeat (apply elem_of_cons in Hn as [->|Hn]);
      [..|by apply elem_of_nil in Hn];
      (split; [apply contains_false|]; vm_compute; reflexivity).
  - intros kw Hkw. unfold all_cities_keywords in Hkw.
    repeat (apply elem_of_cons in Hkw as [->|Hkw]);
      [..|by apply elem_of_nil in Hkw];
      apply contains_false; vm_compute; reflexivity.
Defined.

Lemma empty_message_no_fetch_witness :
  chat_htmx reference.py reference.net
    {[ lit "mensagem" := [32; 9; 160; 10]%N ]} reference.start
  = (Ok {| user_message := [];
           resposta :=
             lit "Desculpa, não recebi nenhuma mensagem. Podes tentar novamente?";
           grafico_html := None; map_html := None; plot_list := None |},
     reference.start).
Proof.
  apply (empty_message_no_fetch reference.py reference.net). by vm_compute.
Defined.

(** C3 fails as stated: on a day whose codes the tables do not list,
    the descriptions are "Desconhecido" and "Sem dados", not the
    literals "Unknown" and "No data". *)
Lemma format_day_placeholders_counterexample :
  ∃ summary,
    format_day reference.py reference.day reference.weather_types
      reference.precipitation = Ok summary
    ∧ getitem summary (lit "tipo_tempo") = Ok (VStr (lit "Desconhecido"))
    ∧ getitem summary (lit "tipo_tempo") ≠ Ok (VStr (lit "Unknown"))
    ∧ getitem summary (lit "precipitacao") = Ok (VStr (lit "Sem dados"))
    ∧ getitem summary (lit "precipitacao") ≠ Ok (VStr (lit "No data")).
Proof.
  exists reference.today. vm_compute. by repeat split.
Qed.

Lemma format_day_placeholders_witness :
  ∃ summary,
    format_day reference.py reference.day reference.weather_types
      reference.precipitation = Ok summary
    ∧ getitem summary (lit "tipo_tempo") = Ok (VStr (lit "Desconhecido"))
    ∧ getitem summary (lit "precipitacao") = Ok (VStr (lit "Sem dados")).
Proof.
  edestruct (format_day_placeholders reference.py reference.day
               reference.weather_types reference.precipitation (VInt 99))
    as (summary & Hfmt & Htipo & Hprec).
  - reflexivity.
  - intros k Hk.
    repeat (apply elem_of_cons in Hk as [->|Hk]);
      [..|by apply elem_of_nil in Hk]; vm_compute; by eexists.
  - vm_compute. reflexivity.
  - reflexivity.
  - repeat constructor; eexists _, _; split; vm_compute; reflexivity.
  - reflexivity.
  - repeat constructor; eexists _, _; split; vm_compute; reflexivity.
  - exists summary. split; [exact Hfmt|]. split.
    + apply Htipo. intros w id Hw Hid.
      repeat (apply elem_of_cons in Hw as [->|Hw]);
        [..|by apply elem_of_nil in Hw];
        vm_compute in Hid; injection Hid as <-; vm_compute; reflexivity.
    + apply Hprec. right. intros p c Hp Hc.
      repeat (apply elem_of_cons in Hp as [->|Hp]);
        [..|by apply elem_of_nil in Hp];
        vm_compute in Hc; injection Hc as <-; vm_compute; discriminate.
Defined.

Lemma format_day_probability_witness :
  getitem reference.today (lit "prob_precipitacao") = Ok (VStr (lit "80.0")).
Proof.
  assert (format_day reference.py reference.day reference.weather_types
            reference.precipitation = Ok reference.today) as Hfmt
    by (vm_compute; reflexivity).
  destruct (format_day_probability reference.py _ _ _ _ Hfmt)
    as (d & Hd & ->).
  unfold reference.day in Hd. injection Hd as <-. vm_compute. reflexivity.
Defined.

Lemma map_all_markers_witness :
  ∃ markers,
    generate_map_all reference.py (VList reference.rows) reference.forecasts
      reference.start
    = (Ok ((nl ++
            lit "<div id=" ++ dq ++ (lit "map-" ++ uuid4_hex reference.py 0)
              ++ dq ++ lit " style=" ++ dq ++ lit "height:500px;" ++ dq
              ++ lit "></div>" ++ nl ++
            lit "<script>" ++ nl ++
            lit "  (function() {" ++ nl ++
            lit "    var map = L.map('"
              ++ (lit "map-" ++ uuid4_hex reference.py 0)
              ++ lit "').setView([39.5, -8.0], 7);" ++ nl ++
            (lit "    L.tileLayer('https://{s}.tile.openstreetmap.org/{z}/{x}/{y}.png', {"
             ++ nl ++
             lit "      attribution: '© OpenStreetMap contributors'" ++ nl ++
             lit "    }).addTo(map);" ++ nl))
           ++ concat markers ++ lit "  })();</script>"),
       {| sent := []; drawn := 1 |})
    ∧ length markers = 3%nat
    ∧ markers !! 0%nat
      = Some (lit "    L.marker([40.6413, -8.6535]).addTo(map).bindPopup('Aveiro');"
              ++ nl).
Proof.
  edestruct (map_all_markers reference.py reference.rows reference.forecasts
               reference.start) as (markers & Hmap & Hlen & Hnth).
  - repeat constructor; eexists _, _, _, _;
      repeat split; vm_compute; reflexivity.
  - intros gid f Hin. apply list_elem_of_singleton in Hin.
    injection Hin as -> ->.
    exists reference.day, reference.weather_types, reference.precipitation.
    vm_compute. reflexivity.
  - exists markers. split; [exact Hmap|]. split; [exact Hlen|].
    destruct (Hnth 0%nat _ eq_refl) as (lat & lon & popup & -> & Hlat & Hlon
                                         & Hpopup).
    vm_compute in Hlat. injection Hlat as <-.
    vm_compute in Hlon. injection Hlon as <-.
    specialize (Hpopup (VInt 1010500) eq_refl eq_refl).
    vm_compute in Hpopup. injection Hpopup as <-.
    vm_compute. reflexivity.
Defined.

Lemma extract_city_canonical_witness :
  VStr (lit "Porto") = VNone
  ∨ ∃ data rows loc s,
      fetch_json reference.net (lit "/distrits-islands.json") reference.start
      = (Ok data, reference.after_directory)
      ∧ getitem data (lit "data") ≫= py_iter = Ok rows
      ∧ loc ∈ rows
      ∧ getitem loc (lit "local") = Ok (VStr s)
      ∧ VStr (lit "Porto") = VStr s.
Proof.
  apply (extract_city_canonical reference.py reference.net
           (lit "Qual é o tempo no Porto?") reference.start).
  vm_compute. reflexivity.
Defined.


(** * Further properties *)

(** ** Requests *)

Lemma sends_bind {A B} (P Q R : list request → Prop) (m : M A) (f : A → M B) :
  sends P m → (∀ a, sends Q (f a)) →
  (∀ l, P l → R l) → (∀ l1 l2, P l1 → Q l2 → R (l1 ++ l2)) →
  sends R (m ≫= f).
Proof.
  intros Hm Hf Hstop Hgo w r w' H. unfold mbind, M_bind in H.
  destruct (m w) as [[a|e] w1] eqn:Hmw.
  - destruct (Hm _ _ _ Hmw) as (l1 & Hl1 & HP).
    destruct (Hf a _ _ _ H) as (l2 & Hl2 & HQ).
    exists (l1 ++ l2). split; [by rewrite Hl2, Hl1, app_assoc|by apply Hgo].
  - injection H as <- <-. destruct (Hm _ _ _ Hmw) as (l1 & Hl1 & HP).
    exists l1. split; [done|by apply Hstop].
Qed.

Lemma sends_weaken {A} (P Q : list request → Prop) (m : M A) :
  (∀ l, P l → Q l) → sends P m → sends Q m.
Proof.
  intros HPQ Hm w r w' H. destruct (Hm _ _ _ H) as (l & Hl & HP).
  exists l. split; [done|by apply HPQ].
Qed.

Lemma sends_ret {A} (a : A) : sends (λ l, l = []) (mret a : M A).
Proof.
  intros w r w' [= <- <-]. exists []. by rewrite app_nil_r.
Qed.

Lemma sends_lift {A} (r : result A) : sends (λ l, l = []) (lift r).
Proof.
  intros w r' w' [= <- <-]. exists []. by rewrite app_nil_r.
Qed.

Lemma gets_only_nil : gets_only [].
Proof. constructor. Qed.

Lemma gets_only_app (l1 l2 : list request) :
  gets_only l1 → gets_only l2 → gets_only (l1 ++ l2).
Proof. apply Forall_app_2. Qed.

Lemma gets_bind {A B} (m : M A) (f : A → M B) :
  sends gets_only m → (∀ a, sends gets_only (f a)) →
  sends gets_only (m ≫= f).
Proof.
  intros Hm Hf. apply (sends_bind gets_only gets_only); [done..| |];
    auto using gets_only_app.
Qed.

Lemma gets_lift {A} (r : result A) : sends gets_only (lift r).
Proof.
  eapply sends_weaken; [|apply sends_lift]. intros l ->. apply gets_only_nil.
Qed.

Lemma gets_ret {A} (a : A) : sends gets_only (mret a : M A).
Proof.
  eapply sends_weaken; [|apply sends_ret]. intros l ->. apply gets_only_nil.
Qed.

Section more_properties.
Variable py : builtins.
Variable net : network.

Lemma send_sent (rq : request) (w w' : world) (r : result value) :
  send net rq w = (r, w') →
  w' = {| sent := sent w ++ [rq]; drawn := drawn w |}.
Proof.
  unfold send. intros H.
  destruct (net _ _) as [|status [| | |j]]; [|destruct (_ <=? _)%N..];
    by injection H.
Qed.

Lemma gets_fetch_json (path : str) : sends gets_only (fetch_json net path).
Proof.
  intros w r w' H. apply send_sent in H as ->. eexists. split; [done|].
  by repeat constructor.
Qed.

Lemma extract_city_sent (text : str) (w w' : world) (r : result value) :
  extract_city py net text w = (r, w') →
  w' = {| sent := sent w ++ [Get directory_url]; drawn := drawn w |}.
Proof.
  unfold extract_city, mbind, M_bind, lift. intros H.
  destruct (fetch_json net (lit "/distrits-islands.json") w) as [[data|e] w1]
    eqn:Hfetch;
    apply fetch_json_sent in Hfetch as ->; by injection H as _ <-.
Qed.

Lemma parse_user_input_sent (text : str) (w w' : world)
    (r : result (gmap str value)) :
  parse_user_input py net text w = (r, w') →
  w' = {| sent := sent w ++ [Get directory_url]; drawn := drawn w |}.
Proof.
  rewrite parse_user_input_eq.
  destruct (extract_city py net text w) as [[city|e] w1] eqn:Hcity;
    apply extract_city_sent in Hcity as ->; by intros [= _ <-].
Qed.

(** X2.  Whatever the text and whatever the outcome, [parse_user_input]
    sends exactly one request, the GET of the district directory, and
    draws no identifier. *)
Theorem parse_user_input_one_request (text : str) (w w' : world)
    (r : result (gmap str value)) :
  parse_user_input py net text w = (r, w') →
  sent w' = sent w ++ [Get directory_url] ∧ drawn w' = drawn w.
Proof. by intros ->%parse_user_input_sent. Qed.

Lemma provider_sent (path : str) (w w' : world) (r : result value) :
  (fetch_json net path ≫= λ r, lift (getitem r (lit "data"))) w = (r, w') →
  w' = {| sent := sent w ++ [Get (BASE_URL ++ path)]; drawn := drawn w |}.
Proof.
  unfold mbind, M_bind, lift. intros H.
  destruct (fetch_json net path w) as [[data|e] w1] eqn:Hfetch;
    apply fetch_json_sent in Hfetch as ->; by injection H as _ <-.
Qed.

Lemma gather_data_sent (parsed out : gmap str value) (w w' : world) :
  gather_data py net parsed w = (Ok out, w') →
  ∃ gid, parsed !! lit "global_id" = Some gid
    ∧ w' = {| sent := sent w ++ [Get directory_url; Get (forecast_url py gid);
                                 Get weather_types_url; Get precipitation_url];
              drawn := drawn w |}.
Proof.
  unfold gather_data, DATA_PROVIDERS. cbn [run_providers].
  intros (d1 & w1 & H1 & H)%M_bind_inv.
  apply M_bind_inv in H as (d2 & w2 & H2 & H).
  apply M_bind_inv in H as (d3 & w3 & H3 & H).
  apply M_bind_inv in H as (d4 & w4 & H4 & [= _ <-]).
  apply provider_sent in H1 as ->. apply provider_sent in H3 as ->.
  apply provider_sent in H4 as ->.
  unfold provider_forecast in H2.
  apply M_bind_inv in H2 as (gid & w1' & Hgid & H2).
  unfold lift, flag_item in Hgid.
  destruct (parsed !! lit "global_id") as [g|] eqn:Hg; [|done].
  injection Hgid as -> <-. apply provider_sent in H2 as ->.
  exists gid. split; [done|]. cbn [sent drawn]. f_equal.
  rewrite <- !app_assoc. unfold directory_url, forecast_url,
    weather_types_url, precipitation_url. reflexivity.
Qed.

(** X3.  A successful [gather_data] has sent exactly four GET requests, in
    this order: the directory, the daily forecast of the location id it
    was given, the weather types and the precipitation classes. *)
Theorem gather_data_requests (parsed out : gmap str value) (w w' : world) :
  gather_data py net parsed w = (Ok out, w') →
  ∃ gid, parsed !! lit "global_id" = Some gid
    ∧ sent w' = sent w ++ [Get directory_url; Get (forecast_url py gid);
                           Get weather_types_url; Get precipitation_url]
    ∧ drawn w' = drawn w.
Proof.
  intros (gid & Hgid & ->)%gather_data_sent. by exists gid.
Qed.
End more_properties.

Section handler_properties.
Variable py : builtins.
Variable net : network.

Lemma gets_then_post_of_gets (l : list request) :
  gets_only l → gets_then_post l.
Proof. intros H. exists l. split; [done|by left]. Qed.

Lemma gets_then_bind {A B} (m : M A) (f : A → M B) :
  sends gets_only m → (∀ a, sends gets_then_post (f a)) →
  sends gets_then_post (m ≫= f).
Proof.
  intros Hm Hf. apply (sends_bind gets_only gets_then_post); [done..| |].
  - apply gets_then_post_of_gets.
  - intros l1 l2 H1 (gets & Hgets & [->|(url & body & ->)]).
    + exists (l1 ++ gets). split; [by apply gets_only_app|by left].
    + exists (l1 ++ gets). split; [by apply gets_only_app|]. right.
      exists url, body. by rewrite app_assoc.
Qed.

Lemma silent_bind {A B} (m : M A) (f : A → M B) :
  sends (λ l, l = []) m → (∀ a, sends (λ l, l = []) (f a)) →
  sends (λ l, l = []) (m ≫= f).
Proof.
  intros Hm Hf.
  apply (sends_bind (λ l, l = []) (λ l, l = [])); [done..| |]; [done|].
  by intros l1 l2 -> ->.
Qed.

Lemma silent_fresh_map_id : sends (λ l, l = []) (fresh_map_id py).
Proof.
  intros w r w' [= <- <-]. exists []. by rewrite app_nil_r.
Qed.

Lemma silent_generate_map (lat lon : value) (popup : str) :
  sends (λ l, l = []) (generate_map py lat lon popup).
Proof.
  apply silent_bind; [apply silent_fresh_map_id|]. intros. apply sends_ret.
Qed.

Lemma silent_generate_map_all (locs : value) (fc : list (value * value)) :
  sends (λ l, l = []) (generate_map_all py locs fc).
Proof.
  apply silent_bind; [apply silent_fresh_map_id|]. intros. apply sends_lift.
Qed.

Lemma gets_of_silent {A} (m : M A) :
  sends (λ l, l = []) m → sends gets_only m.
Proof. apply sends_weaken. intros l ->. apply gets_only_nil. Qed.

Lemma gets_provider (path : str) :
  sends gets_only
    (fetch_json net path ≫= λ r, lift (getitem r (lit "data"))).
Proof. apply gets_bind; [apply gets_fetch_json|]. intros. apply gets_lift. Qed.

Lemma gets_gather_data (parsed : gmap str value) :
  sends gets_only (gather_data py net parsed).
Proof.
  unfold gather_data, DATA_PROVIDERS. cbn [run_providers].
  apply gets_bind; [apply gets_provider|]. intros d1.
  apply gets_bind.
  { unfold provider_forecast. apply gets_bind; [apply gets_lift|].
    intros gid. apply gets_provider. }
  intros d2. apply gets_bind; [apply gets_provider|]. intros d3.
  apply gets_bind; [apply gets_provider|]. intros d4. apply gets_ret.
Qed.

Lemma gets_all_cities_loop (flags : gmap str value) (locs : list value)
    (fc : list (value * value)) (pl : option (list (value * str))) :
  sends gets_only (all_cities_loop py net flags locs fc pl).
Proof.
  revert fc pl. induction locs as [|loc locs IH]; intros fc pl;
    cbn [all_cities_loop]; [apply gets_ret|].
  apply gets_bind; [apply gets_lift|]. intros gid.
  apply gets_bind; [apply gets_gather_data|]. intros data.
  apply gets_bind; [apply gets_lift|]. intros resumo.
  apply gets_bind; [apply gets_lift|]. intros fc'.
  apply gets_bind; [|intros; apply IH].
  destruct (truthy _); [apply gets_lift|apply gets_ret].
Qed.

Lemma gets_all_cities (text : str) (flags : gmap str value) :
  sends gets_only (all_cities py net text flags).
Proof.
  unfold all_cities. apply gets_bind; [apply gets_provider|]. intros locs.
  apply gets_bind; [apply gets_lift|]. intros rows.
  apply gets_bind; [apply gets_all_cities_loop|]. intros [fc pl].
  apply gets_bind; [apply gets_of_silent, silent_generate_map_all|].
  intros. apply gets_ret.
Qed.

Lemma gets_resolve_location (flags : gmap str value) :
  sends gets_only (resolve_location py net flags).
Proof.
  unfold resolve_location. apply gets_bind; [apply gets_provider|].
  intros. apply gets_lift.
Qed.

Lemma call_mistral_sent (prompt : str) (w w' : world) (r : result str) :
  call_mistral net prompt w = (r, w') →
  w' = {| sent := sent w
            ++ [Post (lit "http://localhost:11434/api/generate")
                  (VDict [(lit "model", VStr (lit "mistral"));
                          (lit "prompt", VStr prompt);
                          (lit "stream", VBool false)])];
          drawn := drawn w |}.
Proof.
  unfold call_mistral, mbind, M_bind, lift. intros H.
  destruct (send net _ w) as [[j|e] w1] eqn:Hsend;
    apply send_sent in Hsend as ->; by injection H as _ <-.
Qed.

Lemma post_resolved (text : str) (flags : gmap str value) (obj : value) :
  sends gets_then_post (resolved py net text flags obj).
Proof.
  unfold resolved. apply gets_then_bind; [apply gets_lift|]. intros gid.
  apply gets_then_bind; [apply gets_gather_data|]. intros data.
  apply gets_then_bind; [apply gets_lift|]. intros hoje.
  apply gets_then_bind; [apply gets_lift|]. intros prompt.
  apply (sends_bind (λ l, ∃ url body, l = [Post url body]) (λ l, l = [])).
  - intros w r w' H. apply call_mistral_sent in H as ->.
    eexists. split; [done|]. by eexists _, _.
  - intros resposta. apply silent_bind.
    { destruct (truthy _); [apply sends_lift|apply sends_ret]. }
    intros graf. apply silent_bind; [apply sends_lift|]. intros popup.
    apply silent_bind; [|intros; apply sends_ret].
    destruct (truthy _); [|apply sends_ret].
    apply silent_bind; [apply sends_lift|]. intros lat.
    apply silent_bind; [apply sends_lift|]. intros lon.
    apply silent_bind; [apply silent_generate_map|]. intros. apply sends_ret.
  - intros l (url & body & ->). exists []. split; [apply gets_only_nil|].
    right. by exists url, body.
  - intros l1 l2 (url & body & ->) ->. exists [].
    split; [apply gets_only_nil|]. right. exists url, body.
    by rewrite app_nil_r.
Qed.

Lemma post_dispatch (text : str) (flags : gmap str value) :
  sends gets_then_post (dispatch py net text flags).
Proof.
  unfold dispatch. destruct (truthy _).
  { eapply sends_weaken; [apply gets_then_post_of_gets|apply gets_all_cities]. }
  destruct (_ || _).
  { eapply sends_weaken; [|apply sends_ret]. intros l ->.
    apply gets_then_post_of_gets, gets_only_nil. }
  apply gets_then_bind; [apply gets_resolve_location|]. intros obj.
  destruct (negb _); [|apply post_resolved].
  unfold not_found. eapply sends_weaken; [apply gets_then_post_of_gets|].
  apply gets_bind; [apply gets_lift|]. intros. apply gets_ret.
Qed.

(** The handler, by the two cases of its first test. *)
Lemma chat_htmx_eq (form : gmap str str) :
  chat_htmx py net form
  = let text := strip (default [] (form !! lit "mensagem")) in
    if bool_decide (text = []) then mret (empty_message text)
    else parse_user_input py net text ≫= dispatch py net text.
Proof. reflexivity. Qed.

Lemma post_chat_htmx (form : gmap str str) :
  sends gets_then_post (chat_htmx py net form).
Proof.
  rewrite chat_htmx_eq. cbv zeta. case_bool_decide as Hblank.
  { eapply sends_weaken; [|apply sends_ret]. intros l ->.
    apply gets_then_post_of_gets, gets_only_nil. }
  apply gets_then_bind; [|intros; apply post_dispatch].
  intros w r w' Hp. apply parse_user_input_sent in Hp as ->.
  eexists. split; [done|]. by repeat constructor.
Qed.

(** X4.  Whatever the message and the replies, the requests of one run of
    the handler are GET requests followed by at most one POST: the
    language model is asked at most once, and nothing is fetched after
    it was asked. *)
Theorem language_model_asked_last (form : gmap str str) (w w' : world)
    (r : result response) :
  chat_htmx py net form w = (r, w') →
  ∃ gets, Forall is_get gets
    ∧ (sent w' = sent w ++ gets
       ∨ ∃ url body, sent w' = sent w ++ gets ++ [Post url body]).
Proof.
  intros H. destruct (post_chat_htmx form _ _ _ H)
    as (l & Hl & gets & Hgets & Hshape).
  exists gets. split; [done|]. rewrite Hl.
  destruct Hshape as [->|(url & body & ->)]; [by left|right].
  by exists url, body.
Qed.

(** X5.  The all-cities branch never asks the language model: whatever
    happens, it only sends GET requests. *)
Theorem all_cities_only_gets (text : str) (flags : gmap str value)
    (w w' : world) (r : result response) :
  all_cities py net text flags w = (r, w') →
  ∃ gets, Forall is_get gets ∧ sent w' = sent w ++ gets.
Proof.
  intros H. destruct (gets_all_cities text flags _ _ _ H) as (l & Hl & Hgets).
  by exists l.
Qed.
End handler_properties.


(** ** Stripping *)

Lemma lstrip_head (s : str) (c : N) (r : str) :
  lstrip s = c :: r → isspace c = false.
Proof.
  induction s as [|x s IH]; simpl; [done|].
  destruct (isspace x) eqn:Hx; [done|]. by intros [= <- _].
Qed.

Lemma lstrip_split (s : str) :
  ∃ sp, s = sp ++ lstrip s ∧ forallb isspace sp = true.
Proof.
  induction s as [|x s (sp & Hs & Hsp)]; simpl; [by exists []|].
  destruct (isspace x) eqn:Hx.
  - exists (x :: sp). simpl. rewrite Hx, Hsp. split; [by f_equal|done].
  - by exists [].
Qed.

Lemma forallb_rev {A} (f : A → bool) (l : list A) :
  forallb f (rev l) = forallb f l.
Proof.
  induction l as [|x l IH]; simpl; [done|].
  rewrite forallb_app, IH. simpl. rewrite andb_true_r. apply andb_comm.
Qed.

Lemma strip_nil_inv (s : str) : strip s = [] → forallb isspace s = true.
Proof.
  unfold strip. intros H.
  assert (lstrip (rev (lstrip s)) = []) as H1.
  { by rewrite <- (rev_involutive (lstrip _)), H. }
  destruct (lstrip_split (rev (lstrip s))) as (sp & Hsp & Hall).
  rewrite H1, app_nil_r in Hsp. rewrite <- Hsp, forallb_rev in Hall.
  destruct (lstrip_split s) as (sp' & Hs & Hall').
  destruct (lstrip s) as [|c r] eqn:Hl.
  - rewrite app_nil_r in Hs. by rewrite Hs.
  - apply lstrip_head in Hl. simpl in Hall. by rewrite Hl in Hall.
Qed.

Lemma strip_trimmed (s : str) : trimmed (strip s).
Proof.
  unfold strip. split.
  - intros c r H.
    destruct (lstrip_split (rev (lstrip s))) as (sp & Hsp & _).
    apply (f_equal (@rev N)) in Hsp.
    rewrite rev_involutive, rev_app_distr, H in Hsp.
    by apply lstrip_head in Hsp.
  - intros c r H. apply (f_equal (@rev N)) in H.
    rewrite rev_involutive, rev_app_distr in H. simpl in H.
    by apply lstrip_head in H.
Qed.


(** ** The handler's branches *)

Lemma lift_inv {A} (r : result A) (a : A) (w w' : world) :
  lift r w = (Ok a, w') → r = Ok a ∧ w' = w.
Proof. by intros [= -> ->]. Qed.

Section branches.
Variable py : builtins.
Variable net : network.

(** The flags of a message whose city lookup returned. *)
Lemma parse_user_input_ok (text : str) (w w1 : world) (city : value) :
  extract_city py net text w = (Ok city, w1) →
  ∃ flags, parse_user_input py net text w = (Ok flags, w1)
    ∧ flags !! lit "cidade" = Some city
    ∧ flags !! lit "incluir_grafico" = Some (VBool (wants_chart py text))
    ∧ flags !! lit "intencao_previsao" = Some (VBool (wants_forecast py text))
    ∧ flags !! lit "mostrar_mapa" = Some (VBool (wants_map py text))
    ∧ flags !! lit "todas_localidades" = Some (VBool (wants_all py text))
    ∧ flags !! lit "global_id" = None.
Proof.
  intros Hcity. rewrite parse_user_input_eq, Hcity. eexists.
  split; [reflexivity|]. unfold wants_chart, wants_forecast, wants_map,
    wants_all.
  repeat split;
    repeat (rewrite lookup_insert_eq || rewrite lookup_insert_ne by key_ne);
    done.
Qed.

Lemma parse_user_input_inv (text : str) (w w1 : world)
    (flags : gmap str value) :
  parse_user_input py net text w = (Ok flags, w1) →
  ∃ city, extract_city py net text w = (Ok city, w1)
    ∧ flags !! lit "cidade" = Some city
    ∧ flags !! lit "incluir_grafico" = Some (VBool (wants_chart py text))
    ∧ flags !! lit "intencao_previsao" = Some (VBool (wants_forecast py text))
    ∧ flags !! lit "mostrar_mapa" = Some (VBool (wants_map py text))
    ∧ flags !! lit "todas_localidades" = Some (VBool (wants_all py text))
    ∧ flags !! lit "global_id" = None.
Proof.
  intros H. destruct (extract_city py net text w) as [[city|e] w2] eqn:Hcity.
  - destruct (parse_user_input_ok _ _ _ _ Hcity) as (flags' & Hp & Hrest).
    rewrite Hp in H. injection H as <- <-. by exists city.
  - by rewrite parse_user_input_eq, Hcity in H.
Qed.

Lemma chat_htmx_nonblank (form : gmap str str) (msg : str) :
  form !! lit "mensagem" = Some msg →
  forallb isspace msg = false →
  chat_htmx py net form
  = parse_user_input py net (strip msg) ≫= dispatch py net (strip msg).
Proof.
  intros Hmsg Hblank. rewrite chat_htmx_eq, Hmsg. cbn [default]. cbv zeta.
  rewrite bool_decide_eq_false_2; [done|].
  intros Hnil%strip_nil_inv. change (forallb isspace msg = true) in Hnil.
  by rewrite Hnil in Hblank.
Qed.

(** X6.  A message that is not blank makes the handler fetch: whatever
    happens next, the first request of the run is the GET of the
    district directory. *)
Theorem nonblank_message_fetches (form : gmap str str) (msg : str)
    (w w' : world) (r : result response) :
  form !! lit "mensagem" = Some msg →
  forallb isspace msg = false →
  chat_htmx py net form w = (r, w') →
  ∃ rest, sent w' = sent w ++ Get directory_url :: rest.
Proof.
  intros Hmsg Hblank. rewrite (chat_htmx_nonblank _ _ Hmsg Hblank).
  unfold mbind, M_bind.
  destruct (parse_user_input py net (strip msg) w) as [[flags|e] w1] eqn:Hp;
    apply parse_user_input_sent in Hp as ->.
  - intros H. destruct (post_dispatch py net _ _ _ _ _ H) as (l & -> & _).
    exists l. cbn [sent]. by rewrite <- app_assoc.
  - intros [= _ <-]. by exists [].
Qed.

Lemma extract_city_failing (text : str) (w : world) :
  failing (net (sent w) (Get directory_url)) →
  ∃ e, extract_city py net text w
       = (Err e, {| sent := sent w ++ [Get directory_url];
                    drawn := drawn w |}).
Proof.
  unfold extract_city, fetch_json, send, failing, directory_url.
  unfold mbind at 1, M_bind at 1.
  destruct (net _ _) as [|status body]; [by eexists|].
  destruct (N.leb_spec 400 status) as [Hst|Hst]; [by eexists|].
  intros [?|Hbody]; [lia|].
  destruct body as [| | |j]; [by eexists|by eexists|by eexists|done].
Qed.

(** X7.  When the directory request of a non-blank message gets no reply,
    an error status or a body that is not JSON (of another content
    type, empty or unparsable), the handler raises after that one
    request: it has no answer of its own for a failed fetch. *)
Theorem directory_failure_raises (form : gmap str str) (msg : str)
    (w : world) :
  form !! lit "mensagem" = Some msg →
  forallb isspace msg = false →
  failing (net (sent w) (Get directory_url)) →
  ∃ e, chat_htmx py net form w
       = (Err e, {| sent := sent w ++ [Get directory_url];
                    drawn := drawn w |}).
Proof.
  intros Hmsg Hblank [e He]%(extract_city_failing (strip msg)).
  rewrite (chat_htmx_nonblank _ _ Hmsg Hblank).
  exists e. apply M_bind_err. rewrite parse_user_input_eq.
  by rewrite He.
Qed.

(** X8.  A message with neither a forecast keyword nor an all-cities
    keyword gets the fixed request to rephrase even when its city was
    recognised, and nothing is fetched beyond the directory. *)
Theorem no_forecast_keyword_unresolved (form : gmap str str) (msg : str)
    (w w1 : world) (city : value) :
  form !! lit "mensagem" = Some msg →
  forallb isspace msg = false →
  extract_city py net (strip msg) w = (Ok city, w1) →
  wants_forecast py (strip msg) = false →
  wants_all py (strip msg) = false →
  chat_htmx py net form w = (Ok (unresolved (strip msg)), w1)
  ∧ sent w1 = sent w ++ [Get directory_url].
Proof.
  intros Hmsg Hblank Hcity Hintent Hall.
  rewrite (chat_htmx_nonblank _ _ Hmsg Hblank).
  destruct (parse_user_input_ok _ _ _ _ Hcity)
    as (flags & Hp & _ & _ & Hf & _ & Ha & _).
  rewrite (M_bind_ok _ _ _ _ _ Hp). unfold dispatch, flag_get.
  rewrite Ha, Hf, Hall, Hintent. cbn [default truthy negb].
  rewrite orb_true_r. split; [done|].
  by apply extract_city_sent in Hcity as ->.
Qed.

(** X9.  An all-cities keyword decides the branch alone: with it the
    handler runs the all-cities branch on the flags of the message,
    whether or not a city or a forecast keyword was recognised. *)
Theorem all_cities_keyword_wins (form : gmap str str) (msg : str)
    (w w1 : world) (city : value) :
  form !! lit "mensagem" = Some msg →
  forallb isspace msg = false →
  extract_city py net (strip msg) w = (Ok city, w1) →
  wants_all py (strip msg) = true →
  ∃ flags, parse_user_input py net (strip msg) w = (Ok flags, w1)
    ∧ chat_htmx py net form w = all_cities py net (strip msg) flags w1.
Proof.
  intros Hmsg Hblank Hcity Hall.
  rewrite (chat_htmx_nonblank _ _ Hmsg Hblank).
  destruct (parse_user_input_ok _ _ _ _ Hcity)
    as (flags & Hp & _ & _ & _ & _ & Ha & _).
  exists flags. split; [done|].
  rewrite (M_bind_ok _ _ _ _ _ Hp). unfold dispatch, flag_get.
  by rewrite Ha, Hall.
Qed.
End branches.


(** ** The forecast branch *)

Section forecast_branch.
Variable py : builtins.
Variable net : network.

Lemma call_mistral_inv (prompt answer : str) (w w' : world) :
  call_mistral net prompt w = (Ok answer, w') →
  ∃ status j text,
    net (sent w) (mistral_request prompt) = Reply status (Json j)
    ∧ (status < 400)%N
    ∧ getitem j (lit "response") = Ok (VStr text)
    ∧ answer = strip text
    ∧ w' = {| sent := sent w ++ [mistral_request prompt];
              drawn := drawn w |}.
Proof.
  unfold call_mistral. intros (j & w1 & Hsend & H)%M_bind_inv.
  apply lift_inv in H as [H ->].
  apply result_bind_inv in H as (text & Htext & H).
  destruct text as [| | | |s| |]; try done. injection H as <-.
  pose proof (send_sent _ _ _ _ _ Hsend) as ->.
  unfold send in Hsend. fold (mistral_request prompt) in Hsend.
  destruct (net _ _) as [|status body]; [done|].
  destruct (N.leb_spec 400 status) as [Hst|Hst]; [done|].
  destruct body as [| | |j']; [done| |done|].
  - injection Hsend as <-. done.
  - injection Hsend as ->. by exists status, j, s.
Qed.

Lemma resolved_inv (text : str) (flags : gmap str value) (obj : value)
    (w w' : world) (r : response) :
  resolved py net text flags obj w = (Ok r, w') →
  ∃ gid data hoje cidade prompt w1,
    getitem obj (lit "globalIdLocal") = Ok gid
    ∧ gather_data py net (<[lit "global_id" := gid]> flags) w = (Ok data, w1)
    ∧ format_today py data = Ok hoje
    ∧ flags !! lit "cidade" = Some cidade
    ∧ build_prompt py cidade hoje = Ok prompt
    ∧ call_mistral net prompt w1
      = (Ok (resposta r), {| sent := sent w1 ++ [mistral_request prompt];
                             drawn := drawn w1 |})
    ∧ user_message r = text ∧ plot_list r = None
    ∧ (if truthy (flag_get flags (lit "incluir_grafico"))
       then ∃ html, flag_item data (lit "forecast") ≫= generate_plot py
                    = Ok html
                    ∧ grafico_html r = Some html
       else grafico_html r = None)
    ∧ (if truthy (flag_get flags (lit "mostrar_mapa"))
       then is_Some (map_html r)
            ∧ w' = {| sent := sent w1 ++ [mistral_request prompt];
                      drawn := S (drawn w1) |}
       else map_html r = None
            ∧ w' = {| sent := sent w1 ++ [mistral_request prompt];
                      drawn := drawn w1 |}).
Proof.
  unfold resolved. intros (gid & w0 & Hgid & H)%M_bind_inv.
  apply lift_inv in Hgid as [Hgid ->]. cbv zeta in H.
  apply M_bind_inv in H as (data & w1 & Hdata & H).
  apply M_bind_inv in H as (hoje & w1' & Hhoje & H).
  apply lift_inv in Hhoje as [Hhoje ->].
  apply M_bind_inv in H as (prompt & w1' & Hprompt & H).
  apply lift_inv in Hprompt as [Hprompt ->].
  apply result_bind_inv in Hprompt as (cidade & Hcidade & Hprompt).
  unfold flag_item in Hcidade.
  rewrite lookup_insert_ne in Hcidade by key_ne.
  destruct (flags !! lit "cidade") as [c|] eqn:Hc; [|done].
  injection Hcidade as ->.
  apply M_bind_inv in H as (answer & w2 & Hcall & H).
  pose proof (call_mistral_inv _ _ _ _ Hcall) as (_ & _ & _ & _ & _ & _ & _ & ->).
  apply M_bind_inv in H as (graf & w3 & Hgraf & H).
  apply M_bind_inv in H as (popup & w4 & Hpopup & H).
  apply lift_inv in Hpopup as [_ ->].
  apply M_bind_inv in H as (mp & w5 & Hmap & [= <- <-]).
  exists gid, data, hoje, cidade, prompt, w1. cbn [user_message resposta
    grafico_html map_html plot_list].
  do 8 (split; [done|]).
  unfold flag_get in *.
  rewrite lookup_insert_ne in Hgraf by key_ne.
  rewrite lookup_insert_ne in Hmap by key_ne.
  assert (w3 = {| sent := sent w1 ++ [mistral_request prompt];
                  drawn := drawn w1 |}
          ∧ if truthy (default VNone (flags !! lit "incluir_grafico"))
            then ∃ html, flag_item data (lit "forecast") ≫= generate_plot py
                         = Ok html ∧ graf = Some html
            else graf = None) as [-> Hg].
  { destruct (truthy _).
    - apply lift_inv in Hgraf as [Hgraf ->]. split; [done|].
      apply result_bind_inv in Hgraf as (html & Hhtml & [= <-]).
      by exists html.
    - by injection Hgraf as <- <-. }
  split; [exact Hg|]. destruct (truthy (default VNone (flags !! lit "mostrar_mapa"))).
  - apply M_bind_inv in Hmap as (lat & w6 & Hlat & Hmap).
    apply lift_inv in Hlat as [_ ->].
    apply M_bind_inv in Hmap as (lon & w6 & Hlon & Hmap).
    apply lift_inv in Hlon as [_ ->].
    apply M_bind_inv in Hmap as (html & w6 & Hhtml & [= <- <-]).
    split; [done|]. unfold generate_map in Hhtml.
    apply M_bind_inv in Hhtml as (id & w7 & Hid & [= _ <-]).
    by injection Hid as _ <-.
  - by injection Hmap as <- <-.
Qed.

(** X10.  When the forecast branch answers, the answer is the model's
    text with the white space at its ends removed: the string under
    "response" in the reply to the POST that ends the run, stripped.
    The message is echoed; the chart fragment is present exactly when
    the message asked for a chart and the map fragment exactly when it
    asked for a map; there is never a list of per-city charts. *)
Theorem resolved_fragments (text : str) (flags : gmap str value)
    (obj : value) (w w' : world) (r : response) :
  resolved py net text flags obj w = (Ok r, w') →
  user_message r = text
  ∧ (∃ prompt asked status j answer,
       sent w' = asked ++ [mistral_request prompt]
       ∧ net asked (mistral_request prompt) = Reply status (Json j)
       ∧ (status < 400)%N
       ∧ getitem j (lit "response") = Ok (VStr answer)
       ∧ resposta r = strip answer)
  ∧ trimmed (resposta r)
  ∧ (is_Some (grafico_html r)
     ↔ truthy (flag_get flags (lit "incluir_grafico")) = true)
  ∧ (is_Some (map_html r)
     ↔ truthy (flag_get flags (lit "mostrar_mapa")) = true)
  ∧ plot_list r = None.
Proof.
  intros (gid & data & hoje & cidade & prompt & w1 & _ & _ & _ & _ & _
          & Hcall & Hmsg & Hpl & Hgraf & Hmap)%resolved_inv.
  apply call_mistral_inv in Hcall
    as (status & j & answer & Hnet & Hst & Hj & Hanswer & _).
  split; [done|]. split.
  { exists prompt, (sent w1), status, j, answer.
    split; [|done].
    by destruct (truthy (flag_get flags (lit "mostrar_mapa")));
      destruct Hmap as [_ ->]. }
  split; [rewrite Hanswer; apply strip_trimmed|].
  split; [|split; [|done]].
  - destruct (truthy (flag_get flags (lit "incluir_grafico"))).
    + destruct Hgraf as (html & _ & ->). by split.
    + rewrite Hgraf. split; [by intros [? ?]|done].
  - destruct (truthy (flag_get flags (lit "mostrar_mapa"))).
    + destruct Hmap as [? _]. by split.
    + destruct Hmap as [-> _]. split; [by intros [? ?]|done].
Qed.


(** X12.  An empty forecast list stops the forecast branch before the
    model is asked: taking the first day raises [IndexError], after the
    four requests of [gather_data] and no other. *)
Theorem empty_forecast_raises (text : str) (flags data : gmap str value)
    (obj gid : value) (w w1 : world) :
  getitem obj (lit "globalIdLocal") = Ok gid →
  gather_data py net (<[lit "global_id" := gid]> flags) w = (Ok data, w1) →
  data !! lit "forecast" = Some (VList []) →
  resolved py net text flags obj w = (Err IndexError, w1)
  ∧ sent w1 = sent w ++ [Get directory_url; Get (forecast_url py gid);
                         Get weather_types_url; Get precipitation_url].
Proof.
  intros Hgid Hdata Hempty. split.
  - unfold resolved. unfold mbind at 1, M_bind at 1, lift at 1.
    rewrite Hgid. cbv zeta. rewrite (M_bind_ok _ _ _ _ _ Hdata).
    unfold mbind at 1, M_bind at 1, lift at 1, format_today, flag_item.
    by rewrite Hempty.
  - apply gather_data_sent in Hdata as (g & Hg & ->).
    rewrite lookup_insert_eq in Hg. by injection Hg as <-.
Qed.
End forecast_branch.


(** ** The all-cities branch *)

Lemma py_eq_refl (k : value) : hashable k = true → py_eq k k = true.
Proof.
  destruct k as [|b|z|q|s|l|d]; simpl; try done; intros _.
  - by apply Qeq_bool_iff.
  - by apply Qeq_bool_iff.
  - by apply Qeq_bool_iff.
  - by apply bool_decide_eq_true_2.
Qed.

Lemma pydict_find_store (k v : value) (d : list (value * value)) :
  hashable k = true → pydict_find k (pydict_store k v d) = Some v.
Proof.
  intros Hk. induction d as [|[k' v'] d IH]; simpl.
  - by rewrite py_eq_refl.
  - destruct (py_eq k' k) eqn:Heq; simpl; by rewrite Heq.
Qed.

Lemma pydict_find_store_keep (k0 k v : value) (d : list (value * value)) :
  is_Some (pydict_find k0 d) → is_Some (pydict_find k0 (pydict_store k v d)).
Proof.
  induction d as [|[k' v'] d IH]; simpl; [by intros [? ?]|].
  destruct (py_eq k' k); simpl; destruct (py_eq k' k0); auto.
Qed.

Lemma pydict_store_elem (k v k1 v1 : value) (d : list (value * value)) :
  (k1, v1) ∈ pydict_store k v d → (k1, v1) ∈ d ∨ v1 = v.
Proof.
  induction d as [|[k' v'] d IH]; simpl.
  - intros [= _ ->]%list_elem_of_singleton. by right.
  - destruct (py_eq k' k).
    + intros [[= _ ->]|Hin]%elem_of_cons; [by right|]. left. by right.
    + intros [[= -> ->]|Hin]%elem_of_cons; [left; by left|].
      destruct (IH Hin) as [?|?]; [left; by right|by right].
Qed.

Section all_cities_branch.
Variable py : builtins.
Variable net : network.

Lemma format_today_inv (data : gmap str value) (resumo : value) :
  format_today py data = Ok resumo →
  ∃ days day types precs,
    data !! lit "forecast" = Some days ∧ getitem0 days = Ok day
    ∧ data !! lit "weather_types" = Some types
    ∧ data !! lit "precipitation" = Some precs
    ∧ format_day py day types precs = Ok resumo.
Proof.
  unfold format_today, flag_item.
  intros (day & Hday & H)%result_bind_inv.
  apply result_bind_inv in Hday as (days & Hdays & Hday).
  apply result_bind_inv in H as (types & Htypes & H).
  apply result_bind_inv in H as (precs & Hprecs & H).
  destruct (data !! lit "forecast") as [x|]; [|done].
  destruct (data !! lit "weather_types") as [y|]; [|done].
  destruct (data !! lit "precipitation") as [z|]; [|done].
  injection Hdays as ->. injection Htypes as ->. injection Hprecs as ->.
  by exists days, day, types, precs.
Qed.

(** What the loop over the locations has done when it returns. *)
Lemma all_cities_loop_inv (flags : gmap str value) (locs : list value)
    (fc fc' : list (value * value)) (pl pl' : option (list (value * str)))
    (w w' : world) :
  all_cities_loop py net flags locs fc pl w = (Ok (fc', pl'), w') →
  (∀ k, is_Some (pydict_find k fc) → is_Some (pydict_find k fc'))
  ∧ Forall (λ loc, ∃ gid, getitem loc (lit "globalIdLocal") = Ok gid
                          ∧ is_Some (pydict_find gid fc')) locs
  ∧ (summaries py fc → summaries py fc')
  ∧ sent w' = sent w ++ concat (city_requests py <$> locs)
  ∧ drawn w' = drawn w
  ∧ if truthy (flag_get flags (lit "incluir_grafico"))
    then ∃ items, pl' = (λ l, l ++ items) <$> pl
                  ∧ Forall2 (λ loc item, getitem loc (lit "local")
                                         = Ok item.1) locs items
    else pl' = pl.
Proof.
  revert fc pl w. induction locs as [|loc locs IH]; intros fc pl w;
    cbn [all_cities_loop].
  { intros [= <- <- <-]. split; [done|]. split; [done|]. split; [done|].
    split; [by rewrite app_nil_r|]. split; [done|].
    destruct (truthy _); [|done]. exists []. split; [|done].
    destruct pl as [l|]; [|done]. simpl. by rewrite app_nil_r. }
  intros (gid & w0 & Hgid & H)%M_bind_inv.
  apply lift_inv in Hgid as [Hgid ->]. cbv zeta in H.
  apply M_bind_inv in H as (data & w1 & Hdata & H).
  apply M_bind_inv in H as (resumo & w1' & Hres & H).
  apply lift_inv in Hres as [Hres ->].
  apply M_bind_inv in H as (fc1 & w1' & Hfc1 & H).
  apply lift_inv in Hfc1 as [Hfc1 ->].
  unfold pydict_set in Hfc1. destruct (hashable gid) eqn:Hhash; [|done].
  injection Hfc1 as <-.
  apply M_bind_inv in H as (pl1 & w2 & Hpl1 & H).
  apply IH in H as (Hkeep & Hall & Hsum & Hsent & Hdrawn & Hpl).
  apply gather_data_sent in Hdata as (gid' & Hgid' & ->).
  rewrite lookup_insert_eq in Hgid'. injection Hgid' as <-.
  assert (w2 = {| sent := sent w ++ city_requests py loc;
                  drawn := drawn w |}
          ∧ if truthy (flag_get flags (lit "incluir_grafico"))
            then ∃ item, pl1 = (λ l, l ++ [item]) <$> pl
                         ∧ getitem loc (lit "local") = Ok item.1
            else pl1 = pl) as [-> Hpl1'].
  { unfold city_requests. rewrite Hgid. destruct (truthy _).
    - apply lift_inv in Hpl1 as [Hpl1 ->]. split; [done|].
      apply result_bind_inv in Hpl1 as (name & Hname & Hpl1).
      apply result_bind_inv in Hpl1 as (html & _ & Hpl1).
      exists (name, html). split; [|done].
      destruct pl as [l|]; [|done]. by injection Hpl1 as <-.
    - by injection Hpl1 as <- <-. }
  split; [|split; [|split; [|split; [|split]]]].
  - intros k Hk. by apply Hkeep, pydict_find_store_keep.
  - constructor; [|done]. exists gid. split; [done|]. apply Hkeep.
    rewrite pydict_find_store by done. by eexists.
  - intros Hfc. apply Hsum. intros k1 v1 [Hin| ->]%pydict_store_elem.
    + by apply (Hfc k1).
    + apply format_today_inv in Hres
        as (days & day & types & precs & _ & _ & _ & _ & Hfmt).
      by exists day, types, precs.
  - rewrite Hsent. cbn [sent fmap list_fmap concat].
    by rewrite <- app_assoc.
  - by rewrite Hdrawn.
  - destruct (truthy _); [|by rewrite Hpl, Hpl1'].
    destruct Hpl as (items & -> & Hitems).
    destruct Hpl1' as (item & -> & Hitem).
    exists (item :: items). split; [|by constructor].
    destruct pl as [l|]; [|done]. simpl. by rewrite <- app_assoc.
Qed.

(** X13.  When the loop of the all-cities branch returns, the dictionary
    it filled from empty holds, for every location of the list, a
    summary made by [format_day] under that location's id, and holds
    nothing but such summaries: what [generate_map_all] needs to give
    every marker its weather. *)
Theorem all_cities_loop_covers (flags : gmap str value) (locs : list value)
    (fc : list (value * value)) (pl pl' : option (list (value * str)))
    (w w' : world) :
  all_cities_loop py net flags locs [] pl w = (Ok (fc, pl'), w') →
  summaries py fc
  ∧ Forall (λ loc, ∃ gid f day types precs,
              getitem loc (lit "globalIdLocal") = Ok gid
              ∧ pydict_find gid fc = Some f
              ∧ format_day py day types precs = Ok f) locs.
Proof.
  intros (_ & Hall & Hsum & _)%all_cities_loop_inv.
  assert (summaries py fc) as Hfc.
  { apply Hsum. intros k v Hin. by apply elem_of_nil in Hin. }
  split; [done|]. eapply Forall_impl; [exact Hall|].
  intros loc (gid & Hgid & [f Hf]).
  destruct (pydict_find_Some _ _ _ Hf) as [k Hin].
  destruct (Hfc k f Hin) as (day & types & precs & Hfmt).
  by exists gid, f, day, types, precs.
Qed.

Lemma all_cities_inv (text : str) (flags : gmap str value) (w w' : world)
    (r : response) :
  all_cities py net text flags w = (Ok r, w') →
  ∃ data locs rows,
    fetch_json net (lit "/distrits-islands.json") w
    = (Ok data, {| sent := sent w ++ [Get directory_url];
                   drawn := drawn w |})
    ∧ getitem data (lit "data") = Ok locs ∧ py_iter locs = Ok rows
    ∧ user_message r = text
    ∧ resposta r = lit "Mapa e gráficos de todas as cidades:"
    ∧ grafico_html r = None ∧ is_Some (map_html r)
    ∧ (if truthy (flag_get flags (lit "incluir_grafico"))
       then ∃ items, plot_list r = Some items
                     ∧ Forall2 (λ loc item, getitem loc (lit "local")
                                            = Ok item.1) rows items
       else plot_list r = None)
    ∧ sent w' = sent w ++ Get directory_url
                            :: concat (city_requests py <$> rows)
    ∧ drawn w' = S (drawn w).
Proof.
  unfold all_cities. intros (locs & w1 & Hlocs & H)%M_bind_inv.
  apply M_bind_inv in Hlocs as (data & w0 & Hfetch & Hlocs).
  apply lift_inv in Hlocs as [Hlocs ->].
  pose proof (fetch_json_sent _ _ _ _ _ Hfetch) as ->.
  cbv zeta in H. apply M_bind_inv in H as (rows & w1 & Hrows & H).
  apply lift_inv in Hrows as [Hrows ->].
  apply M_bind_inv in H as ([fc pl] & w2 & Hloop & H).
  apply M_bind_inv in H as (html & w3 & Hhtml & [= <- <-]).
  apply all_cities_loop_inv in Hloop as (_ & _ & _ & Hsent & Hdrawn & Hpl).
  unfold generate_map_all in Hhtml.
  apply M_bind_inv in Hhtml as (id & w4 & Hid & Hhtml).
  apply lift_inv in Hhtml as [_ ->]. injection Hid as _ <-.
  exists data, locs, rows. cbn [user_message resposta grafico_html map_html
    plot_list sent drawn] in *.
  split; [exact Hfetch|]. do 5 (split; [done|]). split; [by eexists|].
  split.
  { destruct (truthy _); [|done]. destruct Hpl as (items & -> & Hitems).
    by exists items. }
  split; [|by rewrite Hdrawn].
  rewrite Hsent, <- app_assoc. cbn [app]. unfold directory_url. reflexivity.
Qed.


(** X15.  A successful all-cities answer has fetched the directory once
    for the list of locations and then, for every row in turn, the
    directory again, the row's forecast and the two tables: four
    requests a row.  It draws one identifier, for the map. *)
Theorem all_cities_requests (text : str) (flags : gmap str value)
    (w w' : world) (r : response) :
  all_cities py net text flags w = (Ok r, w') →
  ∃ data locs rows w1,
    fetch_json net (lit "/distrits-islands.json") w = (Ok data, w1)
    ∧ getitem data (lit "data") = Ok locs ∧ py_iter locs = Ok rows
    ∧ sent w' = sent w ++ Get directory_url
                            :: concat (city_requests py <$> rows)
    ∧ length (sent w') = (length (sent w) + 1 + 4 * length rows)%nat
    ∧ drawn w' = S (drawn w).
Proof.
  intros H. pose proof H as Hgets.
  apply all_cities_inv in H as (data & locs & rows & Hfetch & Hlocs & Hrows
          & _ & _ & _ & _ & _ & Hsent & Hdrawn).
  eexists data, locs, rows, _. do 4 (split; [done|]). split; [|done].
  (* every row had an id, or the loop would have raised *)
  unfold all_cities in Hgets.
  apply M_bind_inv in Hgets as (locs' & w1 & Hl & Hgets).
  apply M_bind_inv in Hl as (data' & w0 & Hfetch' & Hl).
  rewrite Hfetch in Hfetch'. injection Hfetch' as <- <-.
  apply lift_inv in Hl as [Hl ->]. rewrite Hlocs in Hl. injection Hl as <-.
  cbv zeta in Hgets. apply M_bind_inv in Hgets as (rows' & w1 & Hr & Hgets).
  apply lift_inv in Hr as [Hr ->]. rewrite Hrows in Hr. injection Hr as <-.
  apply M_bind_inv in Hgets as ([fc pl] & w2 & Hloop & _).
  apply all_cities_loop_inv in Hloop as (_ & Hall & _).
  rewrite Hsent, length_app. cbn [length].
  assert (length (concat (city_requests py <$> rows)) = (4 * length rows)%nat)
    as ->; [|lia].
  clear -Hall. induction Hall as [|loc rows (gid & Hgid & _) _ IH]; [done|].
  cbn [fmap list_fmap concat length]. rewrite length_app, IH.
  unfold city_requests. rewrite Hgid. simpl. lia.
Qed.
End all_cities_branch.


(** ** The answer as a whole *)

Section answer.
Variable py : builtins.
Variable net : network.

Lemma dispatch_inv (text : str) (flags : gmap str value) (w w' : world)
    (r : response) :
  dispatch py net text flags w = (Ok r, w') →
  user_message r = text
  ∧ (is_Some (grafico_html r) →
     truthy (flag_get flags (lit "incluir_grafico")) = true
     ∧ truthy (flag_get flags (lit "intencao_previsao")) = true
     ∧ truthy (flag_get flags (lit "cidade")) = true
     ∧ truthy (flag_get flags (lit "todas_localidades")) = false)
  ∧ (is_Some (plot_list r) →
     truthy (flag_get flags (lit "incluir_grafico")) = true
     ∧ truthy (flag_get flags (lit "todas_localidades")) = true)
  ∧ (is_Some (map_html r) →
     truthy (flag_get flags (lit "todas_localidades")) = true
     ∨ truthy (flag_get flags (lit "mostrar_mapa")) = true
       ∧ truthy (flag_get flags (lit "intencao_previsao")) = true
       ∧ truthy (flag_get flags (lit "cidade")) = true).
Proof.
  unfold dispatch.
  destruct (truthy (flag_get flags (lit "todas_localidades"))) eqn:Hall.
  { intros (data & locs & rows & _ & _ & _ & Hmsg & _ & Hgraf & _ & Hpl
            & _)%all_cities_inv.
    split; [done|]. rewrite Hgraf. split; [by intros [? ?]|].
    split; [|by left].
    destruct (truthy (flag_get flags (lit "incluir_grafico"))); [done|].
    rewrite Hpl. by intros [? ?]. }
  destruct (truthy (flag_get flags (lit "cidade"))) eqn:Hcity;
    destruct (truthy (flag_get flags (lit "intencao_previsao"))) eqn:Hint;
    cbn [negb orb];
    try (intros [= <- <-]; unfold unresolved;
         cbn [user_message grafico_html plot_list map_html];
         split; [done|]; split; [|split]; by intros [? ?]).
  intros (obj & w1 & _ & H)%M_bind_inv.
  destruct (negb (truthy obj)).
  { unfold not_found in H. apply M_bind_inv in H as (c & w2 & _ & [= <- <-]).
    cbn [user_message grafico_html plot_list map_html].
    split; [done|]. split; [|split]; by intros [? ?]. }
  apply resolved_inv in H as (gid & data & hoje & cidade & prompt & w2 & _ & _
    & _ & _ & _ & _ & Hmsg & Hpl & Hgraf & Hmap).
  split; [done|]. split; [|split].
  - destruct (truthy (flag_get flags (lit "incluir_grafico"))); [done|].
    rewrite Hgraf. by intros [? ?].
  - rewrite Hpl. by intros [? ?].
  - destruct (truthy (flag_get flags (lit "mostrar_mapa"))); [by right|].
    destruct Hmap as [-> _]. by intros [? ?].
Qed.

(** X16.  An answer echoes the message with the white space at its ends
    removed, and carries a fragment only when the message asked for it:
    a single chart only with a chart keyword, a forecast keyword, a
    recognised city and no all-cities keyword; a list of charts only
    with a chart keyword and an all-cities keyword; a map only with an
    all-cities keyword, or with a map keyword, a forecast keyword and a
    recognised city. *)
Theorem fragments_on_request (form : gmap str str) (w w' : world)
    (r : response) (text : str) :
  strip (default [] (form !! lit "mensagem")) = text →
  chat_htmx py net form w = (Ok r, w') →
  user_message r = text
  ∧ (is_Some (grafico_html r) →
     wants_chart py text = true ∧ wants_forecast py text = true
     ∧ wants_all py text = false
     ∧ ∃ city w1, extract_city py net text w = (Ok city, w1)
                  ∧ truthy city = true)
  ∧ (is_Some (plot_list r) →
     wants_chart py text = true ∧ wants_all py text = true)
  ∧ (is_Some (map_html r) →
     wants_all py text = true
     ∨ wants_map py text = true ∧ wants_forecast py text = true).
Proof.
  intros Htext. rewrite chat_htmx_eq, Htext. cbv zeta.
  case_bool_decide as Hblank.
  { intros [= <- <-]. unfold empty_message.
    cbn [user_message grafico_html plot_list map_html].
    split; [done|]. split; [|split]; by intros [? ?]. }
  intros (flags & w1 & Hp & H)%M_bind_inv.
  apply parse_user_input_inv in Hp
    as (city & Hcity & Hc & Hg & Hi & Hm & Ha & _).
  apply dispatch_inv in H as (Hmsg & Hgraf & Hpl & Hmap).
  unfold flag_get in *. rewrite Hc, Hg, Hi, Hm, Ha in *.
  cbn [default truthy] in *. split; [done|]. split; [|split].
  - intros (? & ? & ? & ?)%Hgraf. do 3 (split; [done|]). by exists city, w1.
  - done.
  - intros [?|(? & ? & _)]%Hmap; [by left|by right].
Qed.

(** X17.  [call_mistral] returns only on a reply with a status below 400
    whose JSON body has a string under "response"; it returns that
    string without the white space at its ends, after one POST that
    names the model "mistral", carries the prompt and turns streaming
    off. *)
Theorem call_mistral_answer (prompt answer : str) (w w' : world) :
  call_mistral net prompt w = (Ok answer, w') →
  ∃ status j text,
    net (sent w) (mistral_request prompt) = Reply status (Json j)
    ∧ (status < 400)%N
    ∧ getitem j (lit "response") = Ok (VStr text)
    ∧ answer = strip text ∧ trimmed answer
    ∧ sent w' = sent w ++ [mistral_request prompt]
    ∧ drawn w' = drawn w.
Proof.
  intros (status & j & text & Hnet & Hst & Hj & -> & ->)%call_mistral_inv.
  exists status, j, text. do 4 (split; [done|]).
  split; [apply strip_trimmed|done].
Qed.
End answer.


(** ** The day summary *)

Lemma mapM_result_inv {A B} (f : A → result B) (l : list A) (k : list B) :
  mapM f l = Ok k → Forall2 (λ x y, f x = Ok y) l k.
Proof.
  revert k. induction l as [|x l IH]; intros k; cbn [mapM].
  - intros [= <-]. constructor.
  - intros (y & Hy & H)%result_bind_inv.
    apply result_bind_inv in H as (k' & Hk' & [= <-]).
    constructor; [done|by apply IH].
Qed.

Lemma emoji_values_nonempty :
  forallb (λ kv : str * str, match kv.2 with [] => false | _ => true end)
    EMOJI_MAP = true.
Proof. vm_compute. reflexivity. Qed.

(** [m.get(s, e)] with the empty text for [e], on a table without empty
    values. *)
Lemma table_get_spec (m : list (str * str)) (s e : str) :
  forallb (λ kv : str * str, match kv.2 with [] => false | _ => true end) m
  = true →
  e = default [] (snd <$> find (λ kv : str * str, bool_decide (kv.1 = s)) m) →
  (e ≠ [] → (s, e) ∈ m) ∧ (e = [] ↔ s ∉ m.*1).
Proof.
  intros Hval ->. rewrite forallb_forall in Hval.
  destruct (find _ m) as [[k e]|] eqn:Hfind; simpl.
  - apply find_some in Hfind as [Hin Hk]. apply bool_decide_eq_true_1 in Hk.
    simpl in Hk. subst k. split; [intros _; by apply list_elem_of_In|].
    split.
    + intros ->. by specialize (Hval _ Hin).
    + intros Hnot. destruct Hnot. apply list_elem_of_fmap. exists (s, e).
      split; [done|by apply list_elem_of_In].
  - split; [done|]. split; [|done]. intros _ Hin.
    apply list_elem_of_fmap in Hin as ([k e] & -> & Hin).
    apply list_elem_of_In in Hin.
    pose proof (find_none _ _ Hfind _ Hin) as Hk. simpl in Hk.
    by apply bool_decide_eq_false_1 in Hk.
Qed.

Section day_summaries.
Variable py : builtins.

(** Everything [format_day] did when it returns. *)
Lemma format_day_parts (day types precs summary : value) :
  format_day py day types precs = Ok summary →
  ∃ d date tmin tmax wind desc pdesc emoji,
    day = VDict d
    ∧ py_iter types ≫= find_weather day = Ok desc
    ∧ match default VNone (assoc (lit "classPrecInt") d) with
      | VNone => Ok (VStr (lit "Sem dados"))
      | _ => py_iter precs
             ≫= find_precipitation py
                  (default VNone (assoc (lit "classPrecInt") d))
      end = Ok pdesc
    ∧ getitem day (lit "forecastDate") = Ok date
    ∧ getitem day (lit "tMin") = Ok tmin
    ∧ getitem day (lit "tMax") = Ok tmax
    ∧ getitem day (lit "predWindDir") = Ok wind
    ∧ emoji_of desc = Ok emoji
    ∧ summary = day_summary date tmin tmax wind desc pdesc
                  (default (default (VStr (lit "0"))
                              (assoc (lit "precipitaProb") d))
                     (assoc (lit "precitaProb") d))
                  emoji.
Proof.
  unfold format_day. intros (desc & Hdesc & H)%result_bind_inv.
  apply result_bind_inv in H as (cpi & Hcpi & H).
  destruct day as [| | | | | |d]; try done. injection Hcpi as <-.
  apply result_bind_inv in H as (pdesc & Hpdesc & H).
  apply result_bind_inv in H as (date & Hdate & H).
  apply result_bind_inv in H as (tmin & Htmin & H).
  apply result_bind_inv in H as (tmax & Htmax & H).
  apply result_bind_inv in H as (wind & Hwind & H).
  apply result_bind_inv in H as (fallback & [= <-] & H).
  apply result_bind_inv in H as (prob & [= <-] & H).
  apply result_bind_inv in H as (emoji & Hemoji & [= <-]).
  exists d, date, tmin, tmax, wind, desc, pdesc, emoji.
  split; [done|]. split; [exact Hdesc|]. split; [exact Hpdesc|].
  do 5 (split; [assumption|]). reflexivity.
Qed.

(** X18.  A summary never alters what it copies: its date, its two
    temperatures and its wind direction are the day's own fields, which
    the day must therefore carry. *)
Theorem format_day_copies (day types precs summary : value) :
  format_day py day types precs = Ok summary →
  ∃ date tmin tmax wind,
    getitem day (lit "forecastDate") = Ok date
    ∧ getitem day (lit "tMin") = Ok tmin
    ∧ getitem day (lit "tMax") = Ok tmax
    ∧ getitem day (lit "predWindDir") = Ok wind
    ∧ getitem summary (lit "data") = Ok date
    ∧ getitem summary (lit "temperatura_min") = Ok tmin
    ∧ getitem summary (lit "temperatura_max") = Ok tmax
    ∧ getitem summary (lit "vento") = Ok wind.
Proof.
  intros (d & date & tmin & tmax & wind & desc & pdesc & emoji & _ & _ & _
          & Hdate & Htmin & Htmax & Hwind & _ & ->)%format_day_parts.
  exists date, tmin, tmax, wind. do 4 (split; [done|]).
  match goal with
  | |- context [day_summary _ _ _ _ _ _ ?prob _] =>
      destruct (day_summary_fields date tmin tmax wind desc pdesc prob emoji)
        as (H1 & H2 & H3 & H4 & _)
  end.
  done.
Qed.

Lemma find_weather_first (day did : value) (ts : list value) (i : nat)
    (entry id desc : value) :
  getitem day (lit "idWeatherType") = Ok did →
  ts !! i = Some entry →
  getitem entry (lit "idWeatherType") = Ok id → py_eq id did = true →
  getitem entry (lit "descWeatherTypePT") = Ok desc →
  (∀ j e, (j < i)%nat → ts !! j = Some e →
          ∃ id', getitem e (lit "idWeatherType") = Ok id'
                 ∧ py_eq id' did = false) →
  find_weather day ts = Ok desc.
Proof.
  intros Hday. revert i. induction ts as [|t ts IH]; intros i Hi Hid Heq
    Hdesc Hbefore; [done|]. cbn [find_weather].
  destruct i as [|i].
  - injection Hi as ->. rewrite Hid, Hday. simpl. by rewrite Heq.
  - destruct (Hbefore 0%nat t) as (id' & Hid' & Hne); [lia|done|].
    rewrite Hid', Hday. simpl. rewrite Hne. apply (IH i); [done..|].
    intros j e Hj He. apply (Hbefore (S j)); [lia|done].
Qed.

(** X19.  The weather description is that of the first entry of the table
    whose code equals the day's, numbers being compared by value; the
    entries after it are not read, so they may repeat the code or be
    malformed. *)
Theorem weather_first_match (day types precs summary did : value)
    (ts : list value) (i : nat) (entry id desc : value) :
  format_day py day types precs = Ok summary →
  py_iter types = Ok ts →
  getitem day (lit "idWeatherType") = Ok did →
  ts !! i = Some entry →
  getitem entry (lit "idWeatherType") = Ok id → py_eq id did = true →
  getitem entry (lit "descWeatherTypePT") = Ok desc →
  (∀ j e, (j < i)%nat → ts !! j = Some e →
          ∃ id', getitem e (lit "idWeatherType") = Ok id'
                 ∧ py_eq id' did = false) →
  getitem summary (lit "tipo_tempo") = Ok desc.
Proof.
  intros (d & date & tmin & tmax & wind & desc' & pdesc & emoji & _ & Hdesc
          & _ & _ & _ & _ & _ & _ & ->)%format_day_parts
    Hts Hday Hi Hid Heq Hentry Hbefore.
  rewrite Hts in Hdesc. simpl in Hdesc.
  rewrite (find_weather_first _ _ _ _ _ _ _ Hday Hi Hid Heq Hentry Hbefore)
    in Hdesc. injection Hdesc as <-.
  match goal with
  | |- context [day_summary _ _ _ _ _ _ ?prob _] =>
      destruct (day_summary_fields date tmin tmax wind desc pdesc prob emoji)
        as (_ & _ & _ & _ & H5 & _)
  end.
  done.
Qed.

Lemma find_precipitation_first (cpi : value) (ps : list value) (i : nat)
    (entry c desc : value) :
  ps !! i = Some entry →
  getitem entry (lit "classPrecInt") = Ok c → py_str py c = py_str py cpi →
  getitem entry (lit "descClassPrecIntPT") = Ok desc →
  (∀ j e, (j < i)%nat → ps !! j = Some e →
          ∃ c', getitem e (lit "classPrecInt") = Ok c'
                ∧ py_str py c' ≠ py_str py cpi) →
  find_precipitation py cpi ps = Ok desc.
Proof.
  revert i. induction ps as [|p ps IH]; intros i Hi Hc Heq Hdesc Hbefore;
    [done|]. cbn [find_precipitation].
  destruct i as [|i].
  - injection Hi as ->. rewrite Hc. simpl.
    by rewrite bool_decide_eq_true_2.
  - destruct (Hbefore 0%nat p) as (c' & Hc' & Hne); [lia|done|].
    rewrite Hc'. simpl. rewrite bool_decide_eq_false_2 by done.
    apply (IH i); [done..|].
    intros j e Hj He. apply (Hbefore (S j)); [lia|done].
Qed.

(** X20.  The precipitation description is that of the first entry of the
    table whose class reads the same as the day's when both are written
    out with [str]: the number 1 and the text "1" match.  The entries
    after it are not read. *)
Theorem precipitation_first_match (day types precs summary cpi : value)
    (d : list (str * value)) (ps : list value) (i : nat)
    (entry c desc : value) :
  format_day py day types precs = Ok summary →
  day = VDict d → assoc (lit "classPrecInt") d = Some cpi → cpi ≠ VNone →
  py_iter precs = Ok ps →
  ps !! i = Some entry →
  getitem entry (lit "classPrecInt") = Ok c → py_str py c = py_str py cpi →
  getitem entry (lit "descClassPrecIntPT") = Ok desc →
  (∀ j e, (j < i)%nat → ps !! j = Some e →
          ∃ c', getitem e (lit "classPrecInt") = Ok c'
                ∧ py_str py c' ≠ py_str py cpi) →
  getitem summary (lit "precipitacao") = Ok desc.
Proof.
  intros (d' & date & tmin & tmax & wind & desc' & pdesc & emoji & Hd & _
          & Hpdesc & _ & _ & _ & _ & _ & ->)%format_day_parts
    -> Hcpi Hnone Hps Hi Hc Heq Hentry Hbefore.
  injection Hd as <-. rewrite Hcpi in Hpdesc. cbn [default] in Hpdesc.
  assert (py_iter precs ≫= find_precipitation py cpi = Ok pdesc) as Hp.
  { by destruct cpi. }
  rewrite Hps in Hp. simpl in Hp.
  rewrite (find_precipitation_first _ _ _ _ _ _ Hi Hc Heq Hentry Hbefore)
    in Hp. injection Hp as <-.
  match goal with
  | |- context [day_summary _ _ _ _ _ _ ?prob _] =>
      destruct (day_summary_fields date tmin tmax wind desc' desc prob emoji)
        as (_ & _ & _ & _ & _ & H6 & _)
  end.
  done.
Qed.

(** X21.  The emoji of a summary is the one [EMOJI_MAP] lists for its
    weather description, and the empty text exactly when the
    description is none of the map's keys; so a summary with the
    placeholder description has no emoji. *)
Theorem emoji_of_description (day types precs summary : value) (s : str) :
  format_day py day types precs = Ok summary →
  getitem summary (lit "tipo_tempo") = Ok (VStr s) →
  ∃ e, getitem summary (lit "emoji") = Ok (VStr e)
    ∧ (e ≠ [] → (s, e) ∈ EMOJI_MAP)
    ∧ (e = [] ↔ s ∉ EMOJI_MAP.*1).
Proof.
  intros (d & date & tmin & tmax & wind & desc & pdesc & emoji & _ & _ & _
          & _ & _ & _ & _ & Hemoji & ->)%format_day_parts.
  match goal with
  | |- context [day_summary _ _ _ _ _ _ ?prob _] =>
      destruct (day_summary_fields date tmin tmax wind desc pdesc prob emoji)
        as (_ & _ & _ & _ & H5 & _ & _ & H8 & _)
  end.
  rewrite H5, H8. intros [= ->]. cbn [emoji_of] in Hemoji.
  remember (default [] (snd <$> find (λ kv : str * str,
                                        bool_decide (kv.1 = s)) EMOJI_MAP))
    as e eqn:He.
  injection Hemoji as <-. exists e. split; [reflexivity|].
  exact (table_get_spec EMOJI_MAP s e emoji_values_nonempty He).
Qed.

(** X22.  The prompt can always be built from a summary made by
    [format_day]: every field [build_prompt] reads is there. *)
Theorem prompt_of_summary (day types precs summary cidade : value) :
  format_day py day types precs = Ok summary →
  ∃ date tmin tmax wind desc pdesc prob emoji,
    summary = day_summary date tmin tmax wind desc pdesc prob emoji
    ∧ build_prompt py cidade summary
      = Ok (lit "Cidade: " ++ py_str py cidade ++ nl ++
            lit "Data: " ++ py_str py date ++ nl ++
            lit "Tempo: " ++ py_str py desc ++ lit " " ++ py_str py emoji
              ++ nl ++
            lit "Tª min: " ++ py_str py tmin ++ lit "°C" ++ nl ++
            lit "Tª max: " ++ py_str py tmax ++ lit "°C" ++ nl ++
            lit "Vento: " ++ py_str py wind ++ nl ++
            lit "Precipitação: " ++ py_str py pdesc ++ nl ++
            lit "Prob.: " ++ py_str py prob ++ lit "%" ++ nl ++ nl ++
            lit "Responde em português europeu, de forma simpática.").
Proof.
  intros (d & date & tmin & tmax & wind & desc & pdesc & emoji & _ & _ & _
          & _ & _ & _ & _ & _ & ->)%format_day_parts.
  eexists date, tmin, tmax, wind, desc, pdesc, _, emoji.
  split; [reflexivity|].
  match goal with
  | |- context [day_summary _ _ _ _ _ _ ?prob _] =>
      destruct (day_summary_fields date tmin tmax wind desc pdesc prob emoji)
        as (H1 & H2 & H3 & H4 & H5 & H6 & H7 & H8 & _)
  end.
  unfold build_prompt. rewrite H1. cbn [mbind result_bind].
  rewrite H5. cbn [mbind result_bind]. rewrite H8. cbn [mbind result_bind].
  rewrite H2. cbn [mbind result_bind]. rewrite H3. cbn [mbind result_bind].
  rewrite H4. cbn [mbind result_bind]. rewrite H6. cbn [mbind result_bind].
  rewrite H7. cbn [mbind result_bind]. reflexivity.
Qed.

(** X23.  The chart is drawn from three series of the same length, one
    point a day in the order of the forecast: the dates as they are,
    and the two temperatures turned into numbers by [float]; a day
    without one of the three fields, or with a temperature [float]
    rejects, makes [generate_plot] raise. *)
Theorem generate_plot_series (forecast_data : value) (days : list value)
    (html : str) :
  py_iter forecast_data = Ok days →
  generate_plot py forecast_data = Ok html →
  ∃ dates tmin tmax,
    html = plot_html py dates tmin tmax
    ∧ Forall2 (λ d x, getitem d (lit "forecastDate") = Ok x) days dates
    ∧ Forall2 (λ d x, getitem d (lit "tMin") ≫= py_float py = Ok x) days tmin
    ∧ Forall2 (λ d x, getitem d (lit "tMax") ≫= py_float py = Ok x) days tmax
    ∧ length dates = length days ∧ length tmin = length days
    ∧ length tmax = length days.
Proof.
  intros Hdays. unfold generate_plot. rewrite Hdays. cbn [mbind result_bind].
  intros (dates & Hdates%mapM_result_inv & H)%result_bind_inv.
  apply result_bind_inv in H as (tmin & Htmin%mapM_result_inv & H).
  apply result_bind_inv in H as (tmax & Htmax%mapM_result_inv & [= <-]).
  exists dates, tmin, tmax. do 4 (split; [done|]).
  by rewrite <- (Forall2_length _ _ _ Hdates), <- (Forall2_length _ _ _ Htmin),
    <- (Forall2_length _ _ _ Htmax).
Qed.
End day_summaries.


(** ** The close match and the length of the message *)

Lemma real_quick_ratio_far (a b : str) :
  (10 * (length a `min` length b) < 3 * (length a + length b))%nat →
  (difflib.real_quick_ratio a b < 6 # 10)%Q.
Proof.
  intros Hfar. unfold difflib.real_quick_ratio, difflib.calculate_ratio.
  destruct (length a + length b =? 0)%nat eqn:Hz.
  { apply Nat.eqb_eq in Hz. lia. }
  apply Nat.eqb_neq in Hz.
  apply Qlt_shift_div_r.
  - unfold Qlt. simpl. lia.
  - unfold Qlt, Qmult, inject_Z. simpl. lia.
Qed.

Section far_lengths.
Variable py : builtins.
Variable net : network.

(** X24.  The close match compares the whole message with each name, so
    it cannot recover a name from a message of a very different length:
    when no name occurs in the message and, for every name, ten times
    the shorter of the two lowercased lengths is less than three times
    their sum (a message more than 7/3 as long as the name, say), no
    city is found, however the name is spelt in the message. *)
Theorem long_message_no_close_match (text : str) (w w' : world)
    (data : value) (rows : list value) (names : list str) :
  fetch_json net (lit "/distrits-islands.json") w = (Ok data, w') →
  getitem data (lit "data") = Ok (VList rows) →
  directory_names rows names →
  (∀ n, n ∈ names →
        ¬ substring (py_lower py n) (py_lower py text)
        ∧ (10 * (length (py_lower py n) `min` length (py_lower py text))
           < 3 * (length (py_lower py n) + length (py_lower py text)))%nat) →
  extract_city py net text w = (Ok VNone, w').
Proof.
  intros Hfetch Hdata Hrows Hfar.
  rewrite (extract_city_eq py net text w w' data rows names Hfetch Hdata Hrows).
  destruct (lookup_city_spec py text names) as [_ Hfuzzy].
  destruct Hfuzzy as (_ & _ & Hnone); [intros n Hn; by apply Hfar|].
  assert (lookup_city py text names = VNone) as ->; [|done].
  apply Hnone. intros n Hn.
  eapply Qle_lt_trans; [apply ratio_le_quick_ratio|].
  eapply Qle_lt_trans; [apply quick_ratio_le_real|].
  apply real_quick_ratio_far. by apply Hfar.
Qed.
End far_lengths.


(** ** The further properties on examples *)

(** One round of [gather_data] against the example service. *)
Lemma scenario_gather_data (fc answer : value) (flags : gmap str value)
    (w : world) :
  ∃ data,
    gather_data reference.py (scenario.service fc answer)
      (<[lit "global_id" := VInt 1110600]> flags) w
    = (Ok data,
       {| sent := sent w
            ++ [Get directory_url;
                Get (forecast_url reference.py (VInt 1110600));
                Get weather_types_url; Get precipitation_url];
          drawn := drawn w |})
    ∧ data !! lit "forecast" = Some fc.
Proof.
  set (net := scenario.service fc answer).
  set (parsed := <[lit "global_id" := VInt 1110600]> flags).
  assert (∀ w0, provider_locations net parsed w0
                = (Ok (VList reference.rows),
                   {| sent := sent w0 ++ [Get directory_url];
                      drawn := drawn w0 |})) as H1
    by (intros; vm_compute; reflexivity).
  assert (∀ w0, provider_forecast reference.py net parsed w0
                = (Ok fc,
                   {| sent := sent w0
                        ++ [Get (forecast_url reference.py (VInt 1110600))];
                      drawn := drawn w0 |})) as H2.
  { intros w0. unfold provider_forecast, flag_item, parsed.
    rewrite lookup_insert_eq. vm_compute. reflexivity. }
  assert (∀ w0, provider_weather_types net parsed w0
                = (Ok reference.weather_types,
                   {| sent := sent w0 ++ [Get weather_types_url];
                      drawn := drawn w0 |})) as H3
    by (intros; vm_compute; reflexivity).
  assert (∀ w0, provider_precipitation net parsed w0
                = (Ok reference.precipitation,
                   {| sent := sent w0 ++ [Get precipitation_url];
                      drawn := drawn w0 |})) as H4
    by (intros; vm_compute; reflexivity).
  unfold gather_data, DATA_PROVIDERS. cbn [run_providers].
  rewrite (M_bind_ok _ _ _ _ _ (H1 _)), (M_bind_ok _ _ _ _ _ (H2 _)).
  rewrite (M_bind_ok _ _ _ _ _ (H3 _)), (M_bind_ok _ _ _ _ _ (H4 _)).
  eexists. split.
  - unfold mret, M_ret. cbn [sent drawn]. rewrite <- !app_assoc. reflexivity.
  - by flag_lookup.
Defined.

Lemma parse_user_input_one_request_witness :
  sent (parse_user_input reference.py scenario.offline (lit "tempo em Lisboa")
          reference.start).2
  = sent reference.start ++ [Get directory_url]
  ∧ drawn (parse_user_input reference.py scenario.offline
             (lit "tempo em Lisboa") reference.start).2
    = drawn reference.start.
Proof.
  apply (parse_user_input_one_request reference.py scenario.offline
           (lit "tempo em Lisboa") reference.start _
           (parse_user_input reference.py scenario.offline
              (lit "tempo em Lisboa") reference.start).1).
  by destruct (parse_user_input _ _ _ _).
Defined.

Lemma gather_data_requests_witness :
  ∃ gid,
    (<[lit "global_id" := VInt 1110600]> scenario.flags : gmap str value)
      !! lit "global_id" = Some gid
    ∧ sent (gather_data reference.py scenario.net
              (<[lit "global_id" := VInt 1110600]> scenario.flags)
              reference.start).2
      = sent reference.start
        ++ [Get directory_url; Get (forecast_url reference.py gid);
            Get weather_types_url; Get precipitation_url]
    ∧ drawn (gather_data reference.py scenario.net
               (<[lit "global_id" := VInt 1110600]> scenario.flags)
               reference.start).2
      = drawn reference.start.
Proof.
  destruct (scenario_gather_data scenario.days scenario.answer scenario.flags
              reference.start) as (data & Hdata & _).
  fold scenario.net in Hdata.
  rewrite Hdata. cbn [snd].
  exact (gather_data_requests reference.py scenario.net _ data
           reference.start _ Hdata).
Defined.


Lemma language_model_asked_last_witness :
  ∃ gets, Forall is_get gets
    ∧ (sent (chat_htmx reference.py scenario.net
               (scenario.form "Qual é o tempo em Lisboa?")
               reference.start).2
       = sent reference.start ++ gets
       ∨ ∃ url body,
           sent (chat_htmx reference.py scenario.net
                   (scenario.form "Qual é o tempo em Lisboa?")
                   reference.start).2
           = sent reference.start ++ gets ++ [Post url body]).
Proof.
  apply (language_model_asked_last reference.py scenario.net
           (scenario.form "Qual é o tempo em Lisboa?") reference.start _
           (chat_htmx reference.py scenario.net
              (scenario.form "Qual é o tempo em Lisboa?")
              reference.start).1).
  by destruct (chat_htmx _ _ _ _).
Defined.

Lemma all_cities_only_gets_witness :
  ∃ gets, Forall is_get gets
    ∧ sent (all_cities reference.py scenario.no_days
              (lit "todas as cidades") scenario.flags reference.start).2
      = sent reference.start ++ gets.
Proof.
  apply (all_cities_only_gets reference.py scenario.no_days
           (lit "todas as cidades") scenario.flags reference.start _
           (all_cities reference.py scenario.no_days
              (lit "todas as cidades") scenario.flags reference.start).1).
  by destruct (all_cities _ _ _ _ _).
Defined.

Lemma nonblank_message_fetches_witness :
  ∃ rest,
    sent (chat_htmx reference.py scenario.net (scenario.form " olá ")
            reference.start).2
    = sent reference.start ++ Get directory_url :: rest.
Proof.
  apply (nonblank_message_fetches reference.py scenario.net
           (scenario.form " olá ") (lit " olá ") reference.start _
           (chat_htmx reference.py scenario.net (scenario.form " olá ")
              reference.start).1).
  - apply lookup_singleton_eq.
  - vm_compute. reflexivity.
  - by destruct (chat_htmx _ _ _ _).
Defined.

Lemma directory_failure_raises_witness :
  ∃ e, chat_htmx reference.py scenario.offline
         (scenario.form "tempo em Lisboa") reference.start
       = (Err e, {| sent := sent reference.start ++ [Get directory_url];
                    drawn := drawn reference.start |}).
Proof.
  apply (directory_failure_raises reference.py scenario.offline
           (scenario.form "tempo em Lisboa") (lit "tempo em Lisboa")).
  - apply lookup_singleton_eq.
  - vm_compute. reflexivity.
  - exact I.
Defined.

(** "gráfico de Lisboa": the city is recognised, the forecast keyword
    is missing. *)
Lemma no_forecast_keyword_unresolved_witness :
  chat_htmx reference.py scenario.net (scenario.form "gráfico de Lisboa")
    reference.start
  = (Ok (unresolved (strip (lit "gráfico de Lisboa"))),
     reference.after_directory)
  ∧ sent reference.after_directory
    = sent reference.start ++ [Get directory_url].
Proof.
  apply (no_forecast_keyword_unresolved reference.py scenario.net
           (scenario.form "gráfico de Lisboa") (lit "gráfico de Lisboa")
           reference.start reference.after_directory (VStr (lit "Lisboa"))).
  - apply lookup_singleton_eq.
  - vm_compute. reflexivity.
  - vm_compute. reflexivity.
  - vm_compute. reflexivity.
  - vm_compute. reflexivity.
Defined.

Lemma all_cities_keyword_wins_witness :
  ∃ flags,
    parse_user_input reference.py scenario.net
      (strip (lit "mapa de todas as cidades")) reference.start
    = (Ok flags, reference.after_directory)
    ∧ chat_htmx reference.py scenario.net
        (scenario.form "mapa de todas as cidades") reference.start
      = all_cities reference.py scenario.net
          (strip (lit "mapa de todas as cidades")) flags
          reference.after_directory.
Proof.
  apply (all_cities_keyword_wins reference.py scenario.net
           (scenario.form "mapa de todas as cidades")
           (lit "mapa de todas as cidades")
           reference.start reference.after_directory VNone).
  - apply lookup_singleton_eq.
  - vm_compute. reflexivity.
  - vm_compute. reflexivity.
  - vm_compute. reflexivity.
Defined.

(** The example model answers with white space around its text. *)
Lemma resolved_fragments_witness :
  ∃ r w',
    resolved reference.py scenario.net
      (lit "gráfico e mapa do tempo em Lisboa") scenario.flags
      scenario.lisboa reference.start
    = (Ok r, w')
    ∧ resposta r = lit "Hoje o céu está pouco nublado em Lisboa."
    ∧ user_message r = lit "gráfico e mapa do tempo em Lisboa"
    ∧ (∃ prompt asked status j answer,
         sent w' = asked ++ [mistral_request prompt]
         ∧ scenario.net asked (mistral_request prompt) = Reply status (Json j)
         ∧ (status < 400)%N
         ∧ getitem j (lit "response") = Ok (VStr answer)
         ∧ resposta r = strip answer)
    ∧ trimmed (resposta r)
    ∧ (is_Some (grafico_html r)
       ↔ truthy (flag_get scenario.flags (lit "incluir_grafico")) = true)
    ∧ (is_Some (map_html r)
       ↔ truthy (flag_get scenario.flags (lit "mostrar_mapa")) = true)
    ∧ plot_list r = None.
Proof.
  assert (∃ r w',
            resolved reference.py scenario.net
              (lit "gráfico e mapa do tempo em Lisboa") scenario.flags
              scenario.lisboa reference.start
            = (Ok r, w')) as (r & w' & H)
    by (eexists _, _; vm_compute; reflexivity).
  exists r, w'. split; [exact H|].
  pose proof (resolved_fragments reference.py scenario.net _ _ _ _ _ _ H)
    as Hthm.
  split; [|exact Hthm].
  destruct Hthm as (_ & (prompt & asked & status & j & answer & _ & Hnet & _
                         & Hj & ->) & _).
  change (Reply 200 (Json (VDict [(lit "response", scenario.answer)]))
          = Reply status (Json j)) in Hnet.
  injection Hnet as _ <-. vm_compute in Hj. injection Hj as <-.
  vm_compute. reflexivity.
Defined.


Lemma empty_forecast_raises_witness :
  resolved reference.py scenario.no_days (lit "tempo em Lisboa")
    scenario.flags scenario.lisboa reference.start
  = (Err IndexError,
     {| sent := sent reference.start
          ++ [Get directory_url;
              Get (forecast_url reference.py (VInt 1110600));
              Get weather_types_url; Get precipitation_url];
        drawn := drawn reference.start |})
  ∧ sent {| sent := sent reference.start
              ++ [Get directory_url;
                  Get (forecast_url reference.py (VInt 1110600));
                  Get weather_types_url; Get precipitation_url];
            drawn := drawn reference.start |}
    = sent reference.start
      ++ [Get directory_url; Get (forecast_url reference.py (VInt 1110600));
          Get weather_types_url; Get precipitation_url].
Proof.
  destruct (scenario_gather_data (VList []) scenario.answer scenario.flags
              reference.start) as (data & Hdata & Hfc).
  apply (empty_forecast_raises reference.py scenario.no_days
           (lit "tempo em Lisboa") scenario.flags data scenario.lisboa
           (VInt 1110600) reference.start).
  - vm_compute. reflexivity.
  - exact Hdata.
  - exact Hfc.
Defined.

Lemma all_cities_loop_covers_witness :
  ∃ fc pl' w',
    all_cities_loop reference.py scenario.net scenario.flags reference.rows
      [] (Some []) reference.start
    = (Ok (fc, pl'), w')
    ∧ summaries reference.py fc
    ∧ Forall (λ loc, ∃ gid f day types precs,
                getitem loc (lit "globalIdLocal") = Ok gid
                ∧ pydict_find gid fc = Some f
                ∧ format_day reference.py day types precs = Ok f)
        reference.rows.
Proof.
  assert (∃ fc pl' w',
            all_cities_loop reference.py scenario.net scenario.flags
              reference.rows [] (Some []) reference.start
            = (Ok (fc, pl'), w')) as (fc & pl' & w' & H)
    by (eexists _, _, _; vm_compute; reflexivity).
  exists fc, pl', w'. split; [exact H|].
  exact (all_cities_loop_covers reference.py scenario.net _ _ _ _ _ _ _ H).
Defined.


Lemma all_cities_requests_witness :
  ∃ r w',
    all_cities reference.py scenario.net (lit "gráficos de todas as cidades")
      scenario.flags reference.start
    = (Ok r, w')
    ∧ ∃ data locs rows w1,
        fetch_json scenario.net (lit "/distrits-islands.json") reference.start
        = (Ok data, w1)
        ∧ getitem data (lit "data") = Ok locs ∧ py_iter locs = Ok rows
        ∧ sent w' = sent reference.start
                    ++ Get directory_url
                       :: concat (city_requests reference.py <$> rows)
        ∧ length (sent w')
          = (length (sent reference.start) + 1 + 4 * length rows)%nat
        ∧ drawn w' = S (drawn reference.start).
Proof.
  assert (∃ r w',
            all_cities reference.py scenario.net
              (lit "gráficos de todas as cidades") scenario.flags
              reference.start
            = (Ok r, w')) as (r & w' & H)
    by (eexists _, _; vm_compute; reflexivity).
  exists r, w'. split; [exact H|].
  exact (all_cities_requests reference.py scenario.net _ _ _ _ _ H).
Defined.

Lemma fragments_on_request_witness :
  ∃ r w',
    chat_htmx reference.py scenario.net
      (scenario.form " mapa do tempo em Lisboa ") reference.start
    = (Ok r, w')
    ∧ user_message r = lit "mapa do tempo em Lisboa"
    ∧ (is_Some (grafico_html r) →
       wants_chart reference.py (lit "mapa do tempo em Lisboa") = true
       ∧ wants_forecast reference.py (lit "mapa do tempo em Lisboa") = true
       ∧ wants_all reference.py (lit "mapa do tempo em Lisboa") = false
       ∧ ∃ city w1,
           extract_city reference.py scenario.net
             (lit "mapa do tempo em Lisboa") reference.start
           = (Ok city, w1)
           ∧ truthy city = true)
    ∧ (is_Some (plot_list r) →
       wants_chart reference.py (lit "mapa do tempo em Lisboa") = true
       ∧ wants_all reference.py (lit "mapa do tempo em Lisboa") = true)
    ∧ (is_Some (map_html r) →
       wants_all reference.py (lit "mapa do tempo em Lisboa") = true
       ∨ wants_map reference.py (lit "mapa do tempo em Lisboa") = true
         ∧ wants_forecast reference.py (lit "mapa do tempo em Lisboa")
           = true).
Proof.
  assert (∃ r w',
            chat_htmx reference.py scenario.net
              (scenario.form " mapa do tempo em Lisboa ") reference.start
            = (Ok r, w')) as (r & w' & H)
    by (eexists _, _; vm_compute; reflexivity).
  exists r, w'. split; [exact H|].
  apply (fragments_on_request reference.py scenario.net
           (scenario.form " mapa do tempo em Lisboa ") reference.start w' r
           (lit "mapa do tempo em Lisboa")); [|exact H].
  vm_compute. reflexivity.
Defined.

Lemma call_mistral_answer_witness :
  ∃ answer w',
    call_mistral scenario.net (lit "Cidade: Lisboa") reference.start
    = (Ok answer, w')
    ∧ ∃ status j text,
        scenario.net (sent reference.start)
          (mistral_request (lit "Cidade: Lisboa"))
        = Reply status (Json j)
        ∧ (status < 400)%N
        ∧ getitem j (lit "response") = Ok (VStr text)
        ∧ answer = strip text ∧ trimmed answer
        ∧ sent w' = sent reference.start
                    ++ [mistral_request (lit "Cidade: Lisboa")]
        ∧ drawn w' = drawn reference.start.
Proof.
  assert (∃ answer w',
            call_mistral scenario.net (lit "Cidade: Lisboa") reference.start
            = (Ok answer, w')) as (answer & w' & H)
    by (eexists _, _; vm_compute; reflexivity).
  exists answer, w'. split; [exact H|].
  exact (call_mistral_answer scenario.net _ _ _ _ H).
Defined.


Lemma format_day_copies_witness :
  ∃ summary,
    format_day reference.py scenario.day scenario.types
      reference.precipitation
    = Ok summary
    ∧ ∃ date tmin tmax wind,
        getitem scenario.day (lit "forecastDate") = Ok date
        ∧ getitem scenario.day (lit "tMin") = Ok tmin
        ∧ getitem scenario.day (lit "tMax") = Ok tmax
        ∧ getitem scenario.day (lit "predWindDir") = Ok wind
        ∧ getitem summary (lit "data") = Ok date
        ∧ getitem summary (lit "temperatura_min") = Ok tmin
        ∧ getitem summary (lit "temperatura_max") = Ok tmax
        ∧ getitem summary (lit "vento") = Ok wind.
Proof.
  assert (∃ summary,
            format_day reference.py scenario.day scenario.types
              reference.precipitation
            = Ok summary) as (summary & H)
    by (eexists; vm_compute; reflexivity).
  exists summary. split; [exact H|].
  exact (format_day_copies reference.py _ _ _ _ H).
Defined.

(** Code 2 is listed twice, first as the float 2.0 with "Céu pouco
    nublado": that entry gives the description, and the malformed entry
    at the end of the table does no harm. *)
Lemma weather_first_match_witness :
  ∃ summary,
    format_day reference.py scenario.day scenario.types
      reference.precipitation
    = Ok summary
    ∧ getitem summary (lit "tipo_tempo") = Ok (VStr (lit "Céu pouco nublado")).
Proof.
  assert (∃ summary,
            format_day reference.py scenario.day scenario.types
              reference.precipitation
            = Ok summary) as (summary & H)
    by (eexists; vm_compute; reflexivity).
  exists summary. split; [exact H|].
  eapply (weather_first_match reference.py scenario.day scenario.types
            reference.precipitation summary (VInt 2) _ 1%nat _ (VFloat 2));
    [exact H|reflexivity|vm_compute; reflexivity|reflexivity
    |vm_compute; reflexivity|vm_compute; reflexivity
    |vm_compute; reflexivity|].
  intros j e Hj He. destruct j as [|j]; [|lia]. injection He as <-.
  exists (VInt 1). split; vm_compute; reflexivity.
Defined.

(** The day's class is the text "2", the table's is the number 2. *)
Lemma precipitation_first_match_witness :
  ∃ summary,
    format_day reference.py scenario.day scenario.types
      reference.precipitation
    = Ok summary
    ∧ getitem summary (lit "precipitacao") = Ok (VStr (lit "Moderado")).
Proof.
  assert (∃ summary,
            format_day reference.py scenario.day scenario.types
              reference.precipitation
            = Ok summary) as (summary & H)
    by (eexists; vm_compute; reflexivity).
  exists summary. split; [exact H|].
  eapply (precipitation_first_match reference.py scenario.day scenario.types
            reference.precipitation summary (VStr (lit "2")) _ _ 1%nat _
            (VInt 2));
    [exact H|reflexivity|vm_compute; reflexivity|discriminate|reflexivity
    |reflexivity|vm_compute; reflexivity|vm_compute; reflexivity
    |vm_compute; reflexivity|].
  intros j e Hj He. destruct j as [|j]; [|lia]. injection He as <-.
  exists (VInt 1). split; [vm_compute; reflexivity|].
  vm_compute. discriminate.
Defined.

Lemma emoji_of_description_witness :
  ∃ summary,
    format_day reference.py scenario.day scenario.types
      reference.precipitation
    = Ok summary
    ∧ ∃ e, getitem summary (lit "emoji") = Ok (VStr e)
        ∧ (e ≠ [] → (lit "Céu pouco nublado", e) ∈ EMOJI_MAP)
        ∧ (e = [] ↔ lit "Céu pouco nublado" ∉ EMOJI_MAP.*1).
Proof.
  assert (∃ summary,
            format_day reference.py scenario.day scenario.types
              reference.precipitation
            = Ok summary
            ∧ getitem summary (lit "tipo_tempo")
              = Ok (VStr (lit "Céu pouco nublado"))) as (summary & H & Hs)
    by (eexists; split; vm_compute; reflexivity).
  exists summary. split; [exact H|].
  exact (emoji_of_description reference.py _ _ _ _ _ H Hs).
Defined.

Lemma prompt_of_summary_witness :
  ∃ summary,
    format_day reference.py scenario.day scenario.types
      reference.precipitation
    = Ok summary
    ∧ ∃ date tmin tmax wind desc pdesc prob emoji,
        summary = day_summary date tmin tmax wind desc pdesc prob emoji
        ∧ build_prompt reference.py (VStr (lit "Lisboa")) summary
          = Ok (lit "Cidade: " ++ py_str reference.py (VStr (lit "Lisboa"))
                  ++ nl ++
                lit "Data: " ++ py_str reference.py date ++ nl ++
                lit "Tempo: " ++ py_str reference.py desc ++ lit " "
                  ++ py_str reference.py emoji ++ nl ++
                lit "Tª min: " ++ py_str reference.py tmin ++ lit "°C" ++ nl ++
                lit "Tª max: " ++ py_str reference.py tmax ++ lit "°C" ++ nl ++
                lit "Vento: " ++ py_str reference.py wind ++ nl ++
                lit "Precipitação: " ++ py_str reference.py pdesc ++ nl ++
                lit "Prob.: " ++ py_str reference.py prob ++ lit "%" ++ nl
                  ++ nl ++
                lit "Responde em português europeu, de forma simpática.").
Proof.
  assert (∃ summary,
            format_day reference.py scenario.day scenario.types
              reference.precipitation
            = Ok summary) as (summary & H)
    by (eexists; vm_compute; reflexivity).
  exists summary. split; [exact H|].
  exact (prompt_of_summary reference.py _ _ _ _ (VStr (lit "Lisboa")) H).
Defined.

Lemma generate_plot_series_witness :
  ∃ html,
    generate_plot reference.py scenario.days = Ok html
    ∧ ∃ dates tmin tmax,
        html = plot_html reference.py dates tmin tmax
        ∧ Forall2 (λ d x, getitem d (lit "forecastDate") = Ok x)
            [scenario.day; reference.day] dates
        ∧ Forall2 (λ d x, getitem d (lit "tMin") ≫= py_float reference.py
                          = Ok x)
            [scenario.day; reference.day] tmin
        ∧ Forall2 (λ d x, getitem d (lit "tMax") ≫= py_float reference.py
                          = Ok x)
            [scenario.day; reference.day] tmax
        ∧ length dates = length [scenario.day; reference.day]
        ∧ length tmin = length [scenario.day; reference.day]
        ∧ length tmax = length [scenario.day; reference.day].
Proof.
  assert (∃ html, generate_plot reference.py scenario.days = Ok html)
    as (html & H) by (eexists; vm_compute; reflexivity).
  exists html. split; [exact H|].
  exact (generate_plot_series reference.py scenario.days
           [scenario.day; reference.day] html eq_refl H).
Defined.

(** "Qual o tempo em Lisbo?" has 22 characters, the names five or six:
    the misspelt name is not found. *)
Lemma long_message_no_close_match_witness :
  extract_city reference.py reference.net (lit "Qual o tempo em Lisbo?")
    reference.start
  = (Ok VNone, reference.after_directory).
Proof.
  destruct reference_directory as (Hfetch & Hdata & Hnames).
  apply (long_message_no_close_match reference.py reference.net
           (lit "Qual o tempo em Lisbo?") reference.start
           reference.after_directory reference.directory reference.rows
           reference.names Hfetch Hdata Hnames).
  intros n Hn. unfold reference.names in Hn.
  repeat (apply elem_of_cons in Hn as [->|Hn]);
    [..|by apply elem_of_nil in Hn];
    (split; [apply contains_false; vm_compute; reflexivity|vm_compute; lia]).
Defined.
